(** * Building-footprint partitioning and extraction (main.py)

    A shallow embedding of [divide_data] and [extract_data] of [main.py],
    and the properties of the grid partitioner, the chunk metadata and
    the two-phase extraction that the design document states.  The first
    lines of [extract_data], [download_and_process_data] and [main] are
    embedded after them, with the network, the disk and the standard
    input as parameters.

    Numbers.  The program computes with binary64 floats.  The grid of
    [divide_data] (its step, its origins and its cell rectangles) is
    embedded twice: on binary64 floats, with the rounding of every
    operation and the length and fill rules of [np.arange] ([Binary64]),
    and on exact rationals ([Qc], canonical fractions, so that equal
    numbers are equal terms), where [math.sqrt] is an interface
    ([MathSqrt]) of which only [sqrt 0 = 0] and positivity on positive
    arguments are used.  The properties of the grid that rounding decides
    are settled on the floats; the files, the metadata and the extraction
    are embedded on the rationals.

    Libraries of the program.  [shapely]'s predicate [intersects] on
    feature geometries and the [rtree] index are interfaces as well
    ([Geometry], [RTree]); axis-aligned boxes, [np.arange], the [.6f]
    formatting of file names, dictionaries and the folder on disk are
    modelled concretely. *)

From Stdlib Require Import QArith Qcanon Qround Qabs Lqa ZArith Lia Ascii.
From Stdlib Require PrimFloat SpecFloat FloatOps Uint63.
From stdpp Require Import gmap strings list fin_maps pretty.

#[local] Set Warnings "-register-all".
#[local] Set Warnings "-inexact-float".
Local Open Scope Qc_scope.

(** * The program *)

(** ** Python and NumPy *)

(** The natural number [i] as a coordinate factor. *)
Definition Qc_of_nat (i : nat) : Qc := Qc_of_Z (Z.of_nat i).

(** Exceptions the modelled code can raise. *)
Inductive exn :=
| ValueError       (* math.sqrt of a negative number *)
| ArangeError      (* np.arange cannot compute a length (ValueError or
                      OverflowError, by the version of NumPy) *)
| AttributeError   (* [.items()] on a JSON value that is not an object *)
| KeyError         (* a missing key of a chunk's coordinates *)
| TypeError        (* subscripting or coercing a JSON value of the wrong kind *)
| RTreeError       (* coordinates refused by the index *)
| IndexError       (* a list index out of range *)
| JSONDecodeError  (* json.load on a text that is no JSON document *)
| UnicodeDecodeError (* reading a file whose bytes are no text *)
| FileNotFoundError. (* open on a name the folder does not hold *)

Inductive result (A : Type) :=
| Returned (a : A)
| Raised (e : exn).
Arguments Returned {A} a.
Arguments Raised {A} e.

#[global] Instance result_ret : MRet result := λ A a, Returned a.
#[global] Instance result_bind : MBind result := λ A B f m,
  match m with
  | Returned a => f a
  | Raised e => Raised e
  end.

(** The builtins [min] and [max] on two arguments: the first one is kept
    unless the second is strictly better. *)
Definition py_min (a b : Qc) : Qc := if decide (b < a) then b else a.
Definition py_max (a b : Qc) : Qc := if decide (a < b) then b else a.

(** [math.sqrt]: the root function is a parameter of the development. *)
Class MathSqrt := {
  sqrt : Qc → Qc;
  sqrt_0 : sqrt 0 = 0;
  sqrt_pos : ∀ q, 0 < q → 0 < sqrt q
}.

Definition math_sqrt `{MathSqrt} (q : Qc) : result Qc :=
  if decide (q < 0) then Raised ValueError else Returned (sqrt q).

(** [np.arange(start, stop, step)] without rounding:
    [ceil((stop - start) / step)] values [start + i * step]; a zero step is
    an error.  What rounding makes of the length and of the values is
    [Binary64.np_arange]. *)
Definition arange_length (start stop step : Qc) : nat :=
  Z.to_nat (Qceiling ((stop - start) / step)).

Definition np_arange (start stop step : Qc) : result (list Qc) :=
  if decide (step = 0) then Raised ArangeError
  else Returned (map (λ i, start + Qc_of_nat i * step)
                     (seq 0 (arange_length start stop step))).

(** ** Shapely boxes *)

(** [box(x1, y1, x2, y2)]: the rectangle spanned by two corners. *)
Record Box := box { bx1 : Qc; by1 : Qc; bx2 : Qc; by2 : Qc }.

Definition minx (b : Box) : Qc := py_min (bx1 b) (bx2 b).
Definition maxx (b : Box) : Qc := py_max (bx1 b) (bx2 b).
Definition miny (b : Box) : Qc := py_min (by1 b) (by2 b).
Definition maxy (b : Box) : Qc := py_max (by1 b) (by2 b).

(** [b.bounds] *)
Definition bounds_of (b : Box) : Qc * Qc * Qc * Qc :=
  (minx b, miny b, maxx b, maxy b).

(** The points of a box, its boundary included. *)
Definition box_contains (b : Box) (p : Qc * Qc) : Prop :=
  minx b ≤ p.1 ∧ p.1 ≤ maxx b ∧ miny b ≤ p.2 ∧ p.2 ≤ maxy b.

(** [a.intersects(b)] for two boxes: they share a point. *)
Definition box_intersects (a b : Box) : bool :=
  bool_decide (minx a ≤ maxx b) && bool_decide (minx b ≤ maxx a) &&
  bool_decide (miny a ≤ maxy b) && bool_decide (miny b ≤ maxy a).

(** Feature geometries: whatever [shapely] can test against a box. *)
Class Geometry (G : Type) := {
  intersects : G → Box → bool
}.

(** Boxes are geometries themselves. *)
#[global] Instance Box_geometry : Geometry Box := {|
  intersects := box_intersects
|}.

(** ** JSON values, rows and files *)

Inductive json :=
| JNull
| JBool (b : bool)
| JNum (q : Qc)
| JStr (s : string)
| JArr (l : list json)
| JObj (m : gmap string json).

(** The column ['properties'] of a chunk row is a text.  It is represented
    by what [json.loads] and [dict.update] make of it.  Texts of JSON
    arrays and strings, which [dict.update] would read as a sequence of
    key/value pairs, are not represented. *)
Inductive payload :=
| JsonObject (m : gmap string json) (* the text of a JSON object *)
| JsonInvalid                       (* [json.loads] raises JSONDecodeError *)
| JsonOther.                        (* a number, true, false, null or a missing
                                       value: [json.loads] or [dict.update]
                                       raises TypeError *)

Record row (G : Type) := Row { geometry : G; properties : payload }.
Arguments Row {G} geometry properties.
Arguments geometry {G} r.
Arguments properties {G} r.

(** A file of the folder, by what its two readers make of it. *)
Inductive file (G : Type) :=
| FeatureFile (rows : list (row G)) (* a GeoJSON feature collection *)
| JsonFile (v : json)               (* a JSON text that is no feature collection *)
| OtherFile                         (* a text that is neither *)
| BinaryFile.                       (* bytes that do not decode as a text *)
Arguments FeatureFile {G} rows.
Arguments JsonFile {G} v.
Arguments OtherFile {G}.
Arguments BinaryFile {G}.

(** [gpd.read_file]: [None] when it raises. *)
Definition read_file {G} (f : file G) : option (list (row G)) :=
  match f with
  | FeatureFile rows => Some rows
  | _ => None
  end.

(** [json.load(f)] on the file opened as a text: a text that is no JSON
    document raises JSONDecodeError, and bytes that do not decode raise
    UnicodeDecodeError while they are read.  Of the document of a feature
    collection only the first member is represented. *)
Definition json_load {G} (f : file G) : result json :=
  match f with
  | JsonFile v => Returned v
  | FeatureFile _ => Returned (JObj {[ "type" := JStr "FeatureCollection" ]})
  | OtherFile => Raised JSONDecodeError
  | BinaryFile => Raised UnicodeDecodeError
  end.

(** [os.listdir] and [str.endswith] *)
Definition listdir {G} (fs : gmap string (file G)) : list string :=
  (map_to_list fs).*1.

Definition endswith (s suffix : string) : bool :=
  bool_decide (String.substring (String.length s - String.length suffix)
                 (String.length suffix) s = suffix).

(** ** The text of [f"{x:.6f}"] *)

Definition round_half_even (q : Q) : Z :=
  let f := Qfloor q in
  match (q - inject_Z f ?= 1 # 2)%Q with
  | Lt => f
  | Gt => (f + 1)%Z
  | Eq => if Z.even f then f else (f + 1)%Z
  end.

Definition digit (d : Z) : Ascii.ascii := Ascii.ascii_of_nat (48 + Z.to_nat d).

Definition digits6 (n : Z) : string :=
  String (digit ((n / 100000) `mod` 10))
 (String (digit ((n / 10000) `mod` 10))
 (String (digit ((n / 1000) `mod` 10))
 (String (digit ((n / 100) `mod` 10))
 (String (digit ((n / 10) `mod` 10))
 (String (digit (n `mod` 10)) ""))))).

(** The number of millionths [x] is rounded to. *)
Definition millionths (x : Qc) : Z :=
  round_half_even (Qabs x * inject_Z 1000000)%Q.

(** The sign, the integer part and the six decimals. *)
Definition sign_text (x : Qc) : string := if decide (x < 0) then "-" else "".
Definition integer_text (x : Qc) : string :=
  pretty (Z.to_N (millionths x / 1000000)).
Definition fraction_text (x : Qc) : string :=
  digits6 (millionths x `mod` 1000000).

Definition fmt6 (x : Qc) : string :=
  sign_text x +:+ integer_text x +:+ "." +:+ fraction_text x.

(** ** [divide_data] *)

Section partition.
Context `{MathSqrt} {G : Type} `{Geometry G}.

(** The state of the two loops: the output folder and [metadata]. *)
Definition partition_state : Type := gmap string (file G) * gmap string json.

Definition chunk_filename (location : string) (x y : Qc) : string :=
  location +:+ "_" +:+ fmt6 x +:+ "_" +:+ fmt6 y +:+ ".geojson".

Definition grid_cell (grid_size x_max y_max x y : Qc) : Box :=
  box x y (py_min (x + grid_size) x_max) (py_min (y + grid_size) y_max).

(** The entry of [metadata] for the cell at [(x, y)]. *)
Definition chunk_coords (grid_size x_max y_max x y : Qc) : json :=
  JObj (<["x_min" := JNum x]>
       (<["y_min" := JNum y]>
       (<["x_max" := JNum (py_min (x + grid_size) x_max)]>
       (<["y_max" := JNum (py_min (y + grid_size) y_max)]> ∅)))).

(** [gdf[gdf.intersects(cell)]] *)
Definition cell_gdf (gdf : list (row G)) (cell : Box) : list (row G) :=
  List.filter (λ r, intersects (geometry r) cell) gdf.

(** The body of the inner loop. *)
Definition divide_cell (gdf : list (row G)) (location : string)
    (grid_size x_max y_max : Qc) (st : partition_state) (x y : Qc)
  : partition_state :=
  let cell := grid_cell grid_size x_max y_max x y in
  let cell_gdf := cell_gdf gdf cell in
  match cell_gdf with
  | [] => st
  | _ :: _ =>
      let filename := chunk_filename location x y in
      (<[filename := FeatureFile cell_gdf]> st.1,
       <[filename := chunk_coords grid_size x_max y_max x y]> st.2)
  end.

Definition divide_loop (gdf : list (row G)) (location : string)
    (grid_size x_max y_max : Qc) (x_ranges y_ranges : list Qc)
    (st : partition_state) : partition_state :=
  foldl (λ st x,
           foldl (λ st y, divide_cell gdf location grid_size x_max y_max st x y)
                 st y_ranges)
        st x_ranges.

(** [grid_size] of the bounds: the side of one hundredth of the area. *)
Definition grid_size_of (bounds : Qc * Qc * Qc * Qc) : result Qc :=
  let '(x_min, y_min, x_max, y_max) := bounds in
  let area := (x_max - x_min) * (y_max - y_min) in
  let chunk_area := area / Qc_of_Z 100 in
  math_sqrt chunk_area.

(** Lines 63 to 71: the step and the origins of the grid along both axes. *)
Definition grid (bounds : Qc * Qc * Qc * Qc)
  : result (Qc * list Qc * list Qc) :=
  let '(x_min, y_min, x_max, y_max) := bounds in
  grid_size ← grid_size_of bounds;
  x_ranges ← np_arange x_min x_max grid_size;
  y_ranges ← np_arange y_min y_max grid_size;
  mret (grid_size, x_ranges, y_ranges).

(** The rectangles the two loops visit, in their order. *)
Definition grid_cells (bounds : Qc * Qc * Qc * Qc) : result (list Box) :=
  let '(x_min, y_min, x_max, y_max) := bounds in
  '(grid_size, x_ranges, y_ranges) ← grid bounds;
  mret (x ← x_ranges; y ← y_ranges;
        [grid_cell grid_size x_max y_max x y]).

(** [divide_data(gdf, output_folder, location, bounds)], as a function of
    the content [fs] of the output folder.  An exception is raised before
    the first file is written: it leaves the folder as it was. *)
Definition divide_data (gdf : list (row G)) (fs : gmap string (file G))
    (location : string) (bounds : Qc * Qc * Qc * Qc)
  : result (gmap string (file G)) :=
  let '(x_min, y_min, x_max, y_max) := bounds in
  '(grid_size, x_ranges, y_ranges) ← grid bounds;
  let st := divide_loop gdf location grid_size x_max y_max x_ranges y_ranges
              (fs, ∅) in
  mret (<[location +:+ "_metadata.json" := JsonFile (JObj st.2)]> st.1).

End partition.

(** ** The grid of [divide_data] in binary64 *)

Module Binary64.
Import PrimFloat.

(** The number a float stands for; an infinity and a NaN stand for none. *)
Definition number (x : float) : option Qc :=
  match FloatOps.Prim2SF x with
  | SpecFloat.S754_zero _ => Some 0
  | SpecFloat.S754_finite s m e =>
      Some (Q2Qc ((if s then -1 else 1) * inject_Z (Z.pos m) * 2 ^ e))
  | SpecFloat.S754_infinity _ | SpecFloat.S754_nan => None
  end.

(** The float of an index of the array. *)
Definition of_nat (i : nat) : float := of_uint63 (Uint63.of_Z (Z.of_nat i)).

(** The builtin [min] on two floats. *)
Definition py_min (a b : float) : float := if (b <? a)%float then b else a.

Definition math_sqrt (x : float) : result float :=
  if (x <? 0)%float then Raised ValueError else Returned (sqrt x).

(** The length of [np.arange(start, stop, step)]: the ceiling of the
    rounded quotient; a quotient that is no number is an error. *)
Definition arange_length (start stop step : float) : result nat :=
  match number ((stop - start) / step)%float with
  | Some q => Returned (Z.to_nat (Qceiling q))
  | None => Raised ArangeError
  end.

(** [np.arange(start, stop, step)]: the first two values are [start] and
    [start + step]; NumPy fills the others from their difference, as
    [start + i * delta]. *)
Definition np_arange (start stop step : float) : result (list float) :=
  length ← arange_length start stop step;
  let next := (start + step)%float in
  let delta := (next - start)%float in
  mret (map (λ i, match i with
                  | 0%nat => start
                  | 1%nat => next
                  | _ => (start + of_nat i * delta)%float
                  end) (seq 0 length)).

(** Lines 63 to 67 *)
Definition grid_size_of (bounds : float * float * float * float)
  : result float :=
  let '(x_min, y_min, x_max, y_max) := bounds in
  let area := ((x_max - x_min) * (y_max - y_min))%float in
  let chunk_area := (area / 100)%float in
  math_sqrt chunk_area.

(** Lines 63 to 71 *)
Definition grid (bounds : float * float * float * float)
  : result (float * list float * list float) :=
  let '(x_min, y_min, x_max, y_max) := bounds in
  grid_size ← grid_size_of bounds;
  x_ranges ← np_arange x_min x_max grid_size;
  y_ranges ← np_arange y_min y_max grid_size;
  mret (grid_size, x_ranges, y_ranges).

(** Line 77: the four arguments of [box]. *)
Definition grid_cell (grid_size x_max y_max x y : float)
  : float * float * float * float :=
  (x, y, py_min (x + grid_size) x_max, py_min (y + grid_size) y_max).

(** The rectangles the two loops visit, in their order. *)
Definition grid_cells (bounds : float * float * float * float)
  : result (list (float * float * float * float)) :=
  let '(x_min, y_min, x_max, y_max) := bounds in
  '(grid_size, x_ranges, y_ranges) ← grid bounds;
  mret (x ← x_ranges; y ← y_ranges;
        [grid_cell grid_size x_max y_max x y]).

(** [box] of four floats that are numbers. *)
Definition box_of (c : float * float * float * float) : option Box :=
  let '(x1, y1, x2, y2) := c in
  x1 ← number x1; y1 ← number y1; x2 ← number x2; y2 ← number y2;
  Some (box x1 y1 x2 y2).

End Binary64.

(** ** [extract_data] *)

(** The [rtree] index: which coordinates [insert] accepts, and the ids
    [intersection] yields for the rectangles inserted under the ids
    [0, 1, ...], in the order it yields them. *)
Class RTree := {
  rtree_accepts : Qc * Qc * Qc * Qc → bool;
  rtree_intersection : list (Qc * Qc * Qc * Qc) → Qc * Qc * Qc * Qc → list nat
}.

(** A feature of the output: ["properties"] and ["geometry"] (the geometry
    stands for its [mapping]). *)
Record feature (G : Type) := Feature {
  feature_properties : gmap string json;
  feature_geometry : G
}.
Arguments Feature {G} feature_properties feature_geometry.
Arguments feature_properties {G} f.
Arguments feature_geometry {G} f.

(** What [extract_data] prints. *)
Inductive event :=
| MetadataNotFound              (* Error: Metadata file not found. ... *)
| MetadataInvalid               (* Error: Invalid metadata file. ... *)
| FoundFiles (n : nat)          (* Found n potentially intersecting files. *)
| FileNotFound (filename : string)  (* Warning: File ... not found. Skipping. *)
| PropertiesNotParsed           (* Warning: Could not parse properties ... *)
| FileError (filename : string) (* Error processing file ...: ... *)
| Extracted (n : nat)           (* Extracted n buildings to ... *)
| NoBuildingsFound.             (* No buildings found in the specified area. *)

(** How [extract_data] ends. *)
Inductive outcome (G : Type) :=
| Wrote (features : list (feature G)) (* the collection written to output_file *)
| NothingWritten                      (* no feature was found *)
| SysExit                             (* sys.exit(1) *)
| Uncaught (e : exn).                 (* an exception nobody catches *)
Arguments Wrote {G} features.
Arguments NothingWritten {G}.
Arguments SysExit {G}.
Arguments Uncaught {G} e.

(** [all_features] and the lines printed so far. *)
Record state (G : Type) := State {
  all_features : list (feature G);
  stdout : list event
}.
Arguments State {G} all_features stdout.
Arguments all_features {G} s.
Arguments stdout {G} s.

Definition print {G} (e : event) (s : state G) : state G :=
  State (all_features s) (stdout s ++ [e]).

Definition append_feature {G} (f : feature G) (s : state G) : state G :=
  State (all_features s ++ [f]) (stdout s).

(** The box of the two corners, each a pair [(latitude, longitude)]. *)
Definition query_box (top_left bottom_right : Qc * Qc) : Box :=
  box (py_min top_left.2 bottom_right.2) (py_min top_left.1 bottom_right.1)
      (py_max top_left.2 bottom_right.2) (py_max top_left.1 bottom_right.1).

(** The first name of the folder that ends in [_metadata.json]. *)
Definition metadata_file {G} (fs : gmap string (file G)) : option string :=
  head (List.filter (λ f, endswith f "_metadata.json") (listdir fs)).

(** [metadata.items()] *)
Definition items (metadata : json) : result (list (string * json)) :=
  match metadata with
  | JObj m => Returned (map_to_list m)
  | _ => Raised AttributeError
  end.

(** [chunk_coords[key]] *)
Definition subscript (chunk_coords : json) (key : string) : result json :=
  match chunk_coords with
  | JObj m =>
      match m !! key with
      | Some v => Returned v
      | None => Raised KeyError
      end
  | _ => Raised TypeError
  end.

(** A JSON value as a coordinate (a boolean is an integer in Python). *)
Definition py_float (v : json) : result Qc :=
  match v with
  | JNum q => Returned q
  | JBool b => Returned (if b then 1 else 0)
  | _ => Raised TypeError
  end.

Section extraction.
Context {G : Type} `{Geometry G} `{RTree}.

(** One turn of the loop that fills the index. *)
Definition index_insert (entry : string * json)
  : result (string * (Qc * Qc * Qc * Qc)) :=
  a ← subscript entry.2 "x_min";
  b ← subscript entry.2 "y_min";
  c ← subscript entry.2 "x_max";
  d ← subscript entry.2 "y_max";
  x_min ← py_float a;
  y_min ← py_float b;
  x_max ← py_float c;
  y_max ← py_float d;
  if rtree_accepts (x_min, y_min, x_max, y_max)
  then Returned (entry.1, (x_min, y_min, x_max, y_max))
  else Raised RTreeError.

(** The index: the entries of [metadata] with their coordinates, in the
    order of [metadata.items()]. *)
Definition build_index (metadata : json)
  : result (list (string * (Qc * Qc * Qc * Qc))) :=
  entries ← items metadata;
  mapM index_insert entries.

(** One turn of the loop over [idx.intersection(bbox.bounds)]. *)
Definition candidate (entries : list (string * (Qc * Qc * Qc * Qc)))
    (bbox : Box) (i : nat) : result (list string) :=
  match entries !! i with
  | Some (filename, (x_min, y_min, x_max, y_max)) =>
      Returned (if box_intersects bbox (box x_min y_min x_max y_max)
                then [filename] else [])
  | None => Raised IndexError
  end.

Definition intersecting_files (entries : list (string * (Qc * Qc * Qc * Qc)))
    (bbox : Box) : result (list string) :=
  found ← mapM (candidate entries bbox)
              (rtree_intersection entries.*2 (bounds_of bbox));
  mret (concat found).

(** The loop over [filtered.iterrows()]; an exception other than
    JSONDecodeError leaves the loop. *)
Fixpoint iterrows (rows : list (row G)) (s : state G) : state G * result () :=
  match rows with
  | [] => (s, Returned ())
  | r :: rows =>
      match properties r with
      | JsonObject properties_dict =>
          iterrows rows
            (append_feature
               (Feature (properties_dict ∪ {[ "type" := JStr "Feature" ]})
                        (geometry r)) s)
      | JsonInvalid => iterrows rows (print PropertiesNotParsed s)
      | JsonOther => (s, Raised TypeError)
      end
  end.

(** The body of the loop over [intersecting_files]. *)
Definition extract_file (fs : gmap string (file G)) (bbox : Box)
    (s : state G) (filename : string) : state G :=
  match fs !! filename with
  | None => print (FileNotFound filename) s
  | Some f =>
      match read_file f with
      | None => print (FileError filename) s
      | Some gdf =>
          let filtered :=
            List.filter (λ r, intersects (geometry r) bbox) gdf in
          match iterrows filtered s with
          | (s, Returned _) => s
          | (s, Raised _) => print (FileError filename) s
          end
      end
  end.

Definition extract_files (fs : gmap string (file G)) (bbox : Box)
    (files : list string) (s : state G) : state G :=
  foldl (extract_file fs bbox) s files.

(** Lines 120 to 130: the metadata of the folder.  The [except] clause of
    line 128 names JSONDecodeError alone: any other exception of [open] or
    [json.load] leaves [extract_data] uncaught. *)
Inductive metadata_error :=
| NotFoundError          (* no metadata file: a message, then sys.exit(1) *)
| CorruptError           (* JSONDecodeError: a message, then sys.exit(1) *)
| Unhandled (e : exn).   (* an exception that line 128 does not catch *)

Definition load_metadata (fs : gmap string (file G))
  : metadata_error + json :=
  match metadata_file fs with
  | None => inl NotFoundError
  | Some name =>
      match fs !! name with
      | None => inl (Unhandled FileNotFoundError)
      | Some f =>
          match json_load f with
          | Returned metadata => inr metadata
          | Raised JSONDecodeError => inl CorruptError
          | Raised e => inl (Unhandled e)
          end
      end
  end.

(** [extract_data(input_folder, output_file, top_left, bottom_right)] for an
    existing folder of content [fs] and a fresh output file: what is
    printed, and how the call ends. *)
Definition extract_data (fs : gmap string (file G))
    (top_left bottom_right : Qc * Qc) : list event * outcome G :=
  let bbox := query_box top_left bottom_right in
  match load_metadata fs with
  | inl NotFoundError => ([MetadataNotFound], SysExit)
  | inl CorruptError => ([MetadataInvalid], SysExit)
  | inl (Unhandled e) => ([], Uncaught e)
  | inr metadata =>
      match build_index metadata ≫= λ entries, intersecting_files entries bbox with
      | Raised e => ([], Uncaught e)
      | Returned files =>
          let s := extract_files fs bbox files
                     (State [] [FoundFiles (length files)]) in
          match all_features s with
          | [] => (stdout s ++ [NoBuildingsFound], NothingWritten)
          | _ :: _ =>
              (stdout s ++ [Extracted (length (all_features s))],
               Wrote (all_features s))
          end
      end
  end.

End extraction.

(** * The rest of the program *)

(** ** [extract_data] from its first line *)

(** The folders of the disk, by their path. *)
Abbreviation disk G := (gmap string (gmap string (file G))) (only parsing).

(** [str.lower] on the letters A to Z; the program compares its result
    with ['y'] and ['n'] only. *)
Definition lower_ascii (c : ascii) : ascii :=
  let n := nat_of_ascii c in
  if (65 <=? n)%nat && (n <=? 90)%nat then ascii_of_nat (n + 32) else c.

Fixpoint lower (s : string) : string :=
  match s with
  | EmptyString => EmptyString
  | String c s => String (lower_ascii c) (lower s)
  end.

(** What the whole of [extract_data] shows on the terminal. *)
Inductive line :=
| FolderNotFound (input_folder : string)
    (* Error: The input folder '...' does not exist. *)
| AskOverwrite (output_file : string)
    (* The file '...' already exists. Do you want to overwrite it? (y/n): *)
| AskNewName   (* Please enter a new file name: *)
| InvalidInput (* Invalid input. Please enter 'y' or 'n'. *)
| Says (e : event). (* a line of the lines 115 to 184 *)

(** Lines 103 to 113: the loop that asks what to do with an output file
    that exists, on the lines [stdin] still holds.  The answer is the name
    to write to and the lines left; [None] when [input] meets the end of the
    input and raises EOFError. *)
Fixpoint ask_output_file (output_file : string) (stdin : list string)
  : list line * option (string * list string) :=
  match stdin with
  | [] => ([AskOverwrite output_file], None)
  | response :: stdin =>
      if decide (lower response = "y")
      then ([AskOverwrite output_file], Some (output_file, stdin))
      else if decide (lower response = "n")
      then match stdin with
           | [] => ([AskOverwrite output_file; AskNewName], None)
           | new_name :: stdin =>
               ([AskOverwrite output_file; AskNewName],
                Some (if endswith new_name ".geojson" then new_name
                      else new_name +:+ ".geojson", stdin))
           end
      else let '(lines, answer) := ask_output_file output_file stdin in
           (AskOverwrite output_file :: InvalidInput :: lines, answer)
  end.

(** [top_left[0]] and [top_left[1]] of a list of numbers. *)
Definition corner (c : list Qc) : result (Qc * Qc) :=
  match c with
  | latitude :: longitude :: _ => Returned (latitude, longitude)
  | _ => Raised IndexError
  end.

(** How a call of [extract_data] ends. *)
Inductive ending (G : Type) :=
| Ended (output_file : string) (o : outcome G)
    (* the lines 115 to 184 ran, for this output file *)
| FolderExit   (* sys.exit(1) at line 99 *)
| EndOfInput.  (* EOFError from [input] *)
Arguments Ended {G} output_file o.
Arguments FolderExit {G}.
Arguments EndOfInput {G}.

Section extract_data_call.
Context {G : Type} `{Geometry G} `{RTree}.

(** [extract_data(input_folder, output_file, top_left, bottom_right)] on a
    disk, with the paths [exists] that [os.path.exists] finds and the
    lines [stdin] of the standard input. *)
Definition extract_data_call (d : disk G) (exists_ : string → bool)
    (stdin : list string) (input_folder output_file : string)
    (top_left bottom_right : list Qc) : list line * ending G :=
  match d !! input_folder with
  | None => ([FolderNotFound input_folder], FolderExit)
  | Some fs =>
      let '(asked, answer) :=
        if exists_ output_file then ask_output_file output_file stdin
        else ([], Some (output_file, stdin)) in
      match answer with
      | None => (asked, EndOfInput)
      | Some (output_file, _) =>
          match corner top_left, corner bottom_right with
          | Returned tl, Returned br =>
              let '(log, o) := extract_data fs tl br in
              (asked ++ (Says <$> log), Ended output_file o)
          | _, _ => (asked, Ended output_file (Uncaught IndexError))
          end
      end
  end.

End extract_data_call.

(** ** [download_and_process_data] *)

(** The bounds of a geometry ([shapely]'s [bounds]). *)
Class Bounded (G : Type) := {
  geometry_bounds : G → Qc * Qc * Qc * Qc
}.

#[global] Instance Box_bounded : Bounded Box := {|
  geometry_bounds := bounds_of
|}.

(** What the two requests of the download give.  [dataset_links] is the
    table of [pd.read_csv], row by row its columns [Location] and [Url];
    [read_json] is the frame of a URL once its geometries are built; [None]
    when the request or the conversion raises. *)
Record web (G : Type) := Web {
  dataset_links : option (list (string * string));
  read_json : string → option (list (row G))
}.
Arguments Web {G} dataset_links read_json.
Arguments dataset_links {G} w.
Arguments read_json {G} w url.

(** What [download_and_process_data] prints. *)
Inductive download_line :=
| Downloading (location : string)  (* Downloading data for ...... *)
| LinksError                       (* Error downloading dataset links: ... *)
| NoDataFound (location : string)  (* Error: No data found for '...'. ... *)
| AvailableLocations (locations : gset string)
    (* Available locations: and the sorted names, each once *)
| UrlError (url : string)          (* Error processing data from ...: ... *)
| NoDataProcessed.                 (* Error: No data could be processed. Exiting. *)

(** How a command ends. *)
Inductive status :=
| Completed
| Exited (code : nat)  (* sys.exit(code) *)
| Crashed (e : exn).   (* an exception nobody catches *)

Section download.
Context `{MathSqrt} {G : Type} `{Geometry G} `{Bounded G}.

(** The bounds widened to hold a row. *)
Definition widen (bounds : Qc * Qc * Qc * Qc) (r : row G)
  : Qc * Qc * Qc * Qc :=
  let '(x_min, y_min, x_max, y_max) := bounds in
  let '(x1, y1, x2, y2) := geometry_bounds (geometry r) in
  (py_min x_min x1, py_min y_min y1, py_max x_max x2, py_max y_max y2).

(** [combined_gdf.total_bounds] of a frame with a first row. *)
Definition total_bounds (first : row G) (rest : list (row G))
  : Qc * Qc * Qc * Qc :=
  foldl widen (geometry_bounds (geometry first)) rest.

(** The body of the loop over [location_links]: [all_data] and the errors
    printed.  A frame without rows has no column ['geometry'], so that line
    39 raises for it as well. *)
Definition download_url (w : web G)
    (acc : list (list (row G)) * list download_line) (url : string)
  : list (list (row G)) * list download_line :=
  match read_json w url with
  | Some (r :: rows) => (acc.1 ++ [r :: rows], acc.2)
  | _ => (acc.1, acc.2 ++ [UrlError url])
  end.

(** [download_and_process_data(location, output_folder, divide_immediately)]:
    what is printed, the disk it leaves and how it ends.  [all_data] holds
    frames with rows only, so that [pd.concat(all_data)] has a first row
    unless [all_data] is empty. *)
Definition download_and_process_data (w : web G) (d : disk G)
    (location output_folder : string) (divide_immediately : bool)
  : list download_line * disk G * status :=
  match dataset_links w with
  | None => ([Downloading location; LinksError], d, Exited 1)
  | Some links =>
      let location_links :=
        List.filter (λ l : string * string, bool_decide (l.1 = location))
                    links in
      match location_links with
      | [] => ([Downloading location; NoDataFound location;
                AvailableLocations (list_to_set links.*1)], d, Exited 1)
      | _ :: _ =>
          let folder := default ∅ (d !! output_folder) in
          let '(all_data, errors) :=
            foldl (download_url w) ([], []) location_links.*2 in
          match concat all_data with
          | [] => (Downloading location :: errors ++ [NoDataProcessed],
                   <[output_folder := folder]> d, Exited 1)
          | first :: rest =>
              let combined_gdf := first :: rest in
              let bounds := total_bounds first rest in
              if divide_immediately
              then match divide_data combined_gdf folder location bounds with
                   | Returned folder' =>
                       (Downloading location :: errors,
                        <[output_folder := folder']> d, Completed)
                   | Raised e =>
                       (Downloading location :: errors,
                        <[output_folder := folder]> d, Crashed e)
                   end
              else (Downloading location :: errors,
                    <[output_folder :=
                        <[location +:+ ".geojson" := FeatureFile combined_gdf]>
                          folder]> d,
                    Completed)
          end
      end
  end.

End download.

(** ** [main] *)

(** The namespace of [parser.parse_args()]. *)
Record args := Args {
  download : option string;
  output : string;
  divide : bool;
  extract : bool;
  input : option string;
  output_file : string;
  top_left : option string;
  bottom_right : option string
}.

(** The truth value of an optional text: [None] and [''] are false. *)
Definition truthy (s : option string) : bool :=
  match s with
  | Some s => bool_decide (s ≠ "")
  | None => false
  end.

(** [s.split(',')] *)
Fixpoint split_comma (s : string) : list string :=
  match s with
  | EmptyString => [EmptyString]
  | String c s =>
      if decide (c = ","%char) then EmptyString :: split_comma s
      else match split_comma s with
           | part :: parts => String c part :: parts
           | [] => [String c EmptyString]
           end
  end.

(** [float] on a text: the number read is a parameter of the development;
    [None] when it raises ValueError. *)
Class PyFloat := {
  float : string → option Qc
}.

(** What [main] shows. *)
Inductive main_line :=
| DownloadLine (l : download_line)
| ExtractLine (l : line)
| UsageError.  (* parser.error: --input, --top-left, and --bottom-right
                  are required for extraction *)

(** How [main] ends. *)
Inductive main_ending (G : Type) :=
| Finished                    (* no extraction was asked for *)
| DownloadEnded (s : status)  (* the download left with an exit or an exception *)
| Usage                       (* parser.error: exit status 2 *)
| FloatError                  (* ValueError from [float] *)
| Extraction (e : ending G).
Arguments Finished {G}.
Arguments DownloadEnded {G} s.
Arguments Usage {G}.
Arguments FloatError {G}.
Arguments Extraction {G} e.

Section main.
Context `{MathSqrt} `{PyFloat} `{RTree} {G : Type} `{Geometry G} `{Bounded G}.

(** [list(map(float, text.split(',')))] *)
Definition parse_corner (text : string) : option (list Qc) :=
  mapM float (split_comma text).

(** The lines 204 to 212. *)
Definition main_extract (a : args) (d : disk G) (exists_ : string → bool)
    (stdin : list string) : list main_line * main_ending G :=
  if extract a then
    if truthy (input a) && truthy (top_left a) && truthy (bottom_right a)
    then match parse_corner (default "" (top_left a)) with
         | None => ([], FloatError)
         | Some tl =>
             match parse_corner (default "" (bottom_right a)) with
             | None => ([], FloatError)
             | Some br =>
                 let '(lines, e) :=
                   extract_data_call d exists_ stdin (default "" (input a))
                     (output_file a) tl br in
                 (ExtractLine <$> lines, Extraction e)
             end
         end
    else ([UsageError], Usage)
  else ([], Finished).

(** [main()] once the arguments are parsed. *)
Definition main (a : args) (w : web G) (d : disk G) (exists_ : string → bool)
    (stdin : list string) : list main_line * disk G * main_ending G :=
  let '(lines, d, s) :=
    if truthy (download a)
    then download_and_process_data w d (default "" (download a)) (output a)
           (divide a)
    else ([], d, Completed) in
  match s with
  | Completed =>
      let '(lines', e) := main_extract a d exists_ stdin in
      ((DownloadLine <$> lines) ++ lines', d, e)
  | _ => (DownloadLine <$> lines, d, DownloadEnded s)
  end.

End main.

(** * Properties *)

(** ** Rational arithmetic: from [Qc] to [Q] and back *)

Lemma this_plus (x y : Qc) : (this (x + y) == this x + this y)%Q.
Proof. unfold Qcplus, Q2Qc; simpl. apply Qred_correct. Qed.

Lemma this_mult (x y : Qc) : (this (x * y) == this x * this y)%Q.
Proof. unfold Qcmult, Q2Qc; simpl. apply Qred_correct. Qed.

Lemma this_opp (x : Qc) : (this (- x) == - this x)%Q.
Proof. unfold Qcopp, Q2Qc; simpl. apply Qred_correct. Qed.

Lemma this_minus (x y : Qc) : (this (x - y) == this x - this y)%Q.
Proof. unfold Qcminus. rewrite this_plus, this_opp. reflexivity. Qed.

Lemma this_inv (x : Qc) : (this (/ x) == / this x)%Q.
Proof. unfold Qcinv, Q2Qc; simpl. apply Qred_correct. Qed.

Lemma this_div (x y : Qc) : (this (x / y) == this x / this y)%Q.
Proof. unfold Qcdiv. rewrite this_mult, this_inv. reflexivity. Qed.

Lemma this_Q2Qc (q : Q) : (this (Q2Qc q) == q)%Q.
Proof. simpl. apply Qred_correct. Qed.

Lemma this_of_Z (n : Z) : this (Qc_of_Z n) = inject_Z n.
Proof. reflexivity. Qed.

Lemma this_of_nat (i : nat) : this (Qc_of_nat i) = inject_Z (Z.of_nat i).
Proof. reflexivity. Qed.

(** Turns a goal and its hypotheses over [Qc] into statements over [Q],
    where [lra] and [field] apply. *)
Ltac qc_to_q :=
  repeat match goal with
  | H : @eq Qc ?a ?b |- _ =>
      let H' := fresh H in
      assert (H' : (this a == this b)%Q) by (rewrite H; reflexivity); clear H
  | H : ?a <> ?b :> Qc |- _ =>
      let H' := fresh H in
      assert (H' : ~ (this a == this b)%Q)
        by (let E := fresh in intros E; apply H; apply Qc_is_canon; exact E);
      clear H
  | |- @eq Qc _ _ => apply Qc_is_canon
  end;
  unfold Qclt, Qcle in *;
  repeat (rewrite ?this_plus, ?this_minus, ?this_mult,
            ?this_opp, ?this_div, ?this_inv, ?this_of_nat,
            ?this_of_Z, ?this_Q2Qc in * );
  change (this 0) with 0%Q in *; change (this 1) with 1%Q in *.

Lemma bind_Returned {A B} (a : A) (f : A → result B) : Returned a ≫= f = f a.
Proof. reflexivity. Qed.

(** ** Order and arithmetic *)

Lemma py_min_l a b : a ≤ b → py_min a b = a.
Proof.
  intros Hab. unfold py_min. case_decide as Hlt; [|done].
  by apply Qclt_not_le in Hlt.
Qed.

Lemma py_min_r a b : b ≤ a → py_min a b = b.
Proof.
  intros Hba. unfold py_min. case_decide as Hlt; [done|].
  apply (anti_symm Qcle); [by apply Qcnot_lt_le | done].
Qed.

Lemma py_max_l a b : b ≤ a → py_max a b = a.
Proof.
  intros Hba. unfold py_max. case_decide as Hlt; [|done].
  by apply Qclt_not_le in Hlt.
Qed.

Lemma py_max_r a b : a ≤ b → py_max a b = b.
Proof.
  intros Hab. unfold py_max. case_decide as Hlt; [done|].
  apply (anti_symm Qcle); [done | by apply Qcnot_lt_le].
Qed.

Lemma py_min_comm a b : py_min a b = py_min b a.
Proof.
  destruct (Qclt_le_dec a b) as [Hlt|Hle].
  - rewrite py_min_l, py_min_r; auto using Qclt_le_weak.
  - rewrite py_min_r, py_min_l; auto.
Qed.

Lemma py_max_comm a b : py_max a b = py_max b a.
Proof.
  destruct (Qclt_le_dec a b) as [Hlt|Hle].
  - rewrite py_max_r, py_max_l; auto using Qclt_le_weak.
  - rewrite py_max_l, py_max_r; auto.
Qed.

Lemma py_min_le_l a b : py_min a b ≤ a.
Proof.
  unfold py_min. case_decide; [by apply Qclt_le_weak | apply Qcle_refl].
Qed.

Lemma py_min_le_r a b : py_min a b ≤ b.
Proof. rewrite py_min_comm. apply py_min_le_l. Qed.

Lemma py_max_ge_l a b : a ≤ py_max a b.
Proof.
  unfold py_max. case_decide; [by apply Qclt_le_weak | apply Qcle_refl].
Qed.

Lemma py_max_ge_r a b : b ≤ py_max a b.
Proof. rewrite py_max_comm. apply py_max_ge_l. Qed.

Lemma py_min_le_max a b : py_min a b ≤ py_max a b.
Proof. eapply Qcle_trans; [apply py_min_le_l | apply py_max_ge_l]. Qed.

Lemma py_min_glb a b c : c ≤ a → c ≤ b → c ≤ py_min a b.
Proof. intros. unfold py_min. by case_decide. Qed.

(** [min] and [max] of two numbers are these two numbers, in one order or
    the other. *)
Lemma py_min_max_pair a b :
  (py_min a b, py_max a b) = (a, b) ∨ (py_min a b, py_max a b) = (b, a).
Proof.
  unfold py_min, py_max.
  destruct (decide (b < a)) as [Hba|Hba], (decide (a < b)) as [Hab|Hab];
    [right|right|left|left]; try done.
  - exfalso. apply (Qclt_not_le _ _ Hba). by apply Qclt_le_weak.
  - f_equal. apply Qcle_antisym; by apply Qcnot_lt_le.
Qed.

(** ** [np.arange] *)

Lemma np_arange_zero_step start stop : np_arange start stop 0 = Raised ArangeError.
Proof. unfold np_arange. by rewrite decide_True. Qed.

Lemma np_arange_returns start stop step :
  step ≠ 0 →
  np_arange start stop step =
    Returned (map (λ i, start + Qc_of_nat i * step)
                  (seq 0 (arange_length start stop step))).
Proof. intros Hstep. unfold np_arange. by rewrite decide_False. Qed.

Lemma elem_of_arange start stop step l x :
  np_arange start stop step = Returned l →
  x ∈ l ↔ ∃ i, (i < arange_length start stop step)%nat ∧
               x = start + Qc_of_nat i * step.
Proof.
  unfold np_arange. case_decide; [done|]. intros [= <-].
  rewrite list_elem_of_In, in_map_iff. split.
  - intros (i & <- & Hi%in_seq). exists i. split; [lia | done].
  - intros (i & Hi & ->). exists i. split; [done|]. apply in_seq. lia.
Qed.

(** The number of steps: the last origin lies before [stop], and one more
    step reaches it. *)
Lemma arange_length_spec start stop step :
  0 < step → start < stop →
  let n := arange_length start stop step in
  (0 < n)%nat ∧
  start + Qc_of_nat (n - 1) * step < stop ∧
  stop ≤ start + Qc_of_nat n * step.
Proof.
  intros Hstep Hlt n. subst n. unfold arange_length.
  set (q := ((this stop - this start) / this step)%Q).
  pose proof (Qle_ceiling q) as Hup.
  pose proof (Qceiling_lt q) as Hlow.
  qc_to_q.
  assert (Hq : (q * this step == this stop - this start)%Q).
  { subst q. field. lra. }
  assert (Hqpos : (0 < q)%Q).
  { apply Qnot_le_lt. intros Hneg.
    assert (q * this step <= 0 * this step)%Q
      by (apply Qmult_le_compat_r; lra). lra. }
  assert (Hc : (0 < Qceiling q)%Z).
  { rewrite Zlt_Qlt. eapply Qlt_le_trans; [exact Hqpos | exact Hup]. }
  split; [lia|].
  rewrite Nat2Z.inj_sub by lia. rewrite !Z2Nat.id by lia.
  change (Z.of_nat 1) with 1%Z. split.
  - assert (inject_Z (Qceiling q - 1) * this step < q * this step)%Q
      by (apply Qmult_lt_compat_r; lra). lra.
  - assert (q * this step <= inject_Z (Qceiling q) * this step)%Q
      by (apply Qmult_le_compat_r; lra). lra.
Qed.

Lemma Qc_of_nat_le (i j : nat) : (i ≤ j)%nat → Qc_of_nat i ≤ Qc_of_nat j.
Proof. intros Hij. qc_to_q. rewrite <- Zle_Qle. lia. Qed.

Lemma Qc_of_nat_0 : Qc_of_nat 0 = 0.
Proof. by apply Qc_is_canon. Qed.

Lemma Qc_of_nat_S (i : nat) : Qc_of_nat (S i) = Qc_of_nat i + 1.
Proof.
  qc_to_q. rewrite Nat2Z.inj_succ. unfold Z.succ. rewrite inject_Z_plus.
  reflexivity.
Qed.

(** Every origin lies at or after [start] and strictly before [stop]. *)
Lemma arange_origin_bounds start stop step i :
  0 < step → (i < arange_length start stop step)%nat →
  start ≤ start + Qc_of_nat i * step ∧ start + Qc_of_nat i * step < stop.
Proof.
  intros Hstep Hi.
  assert (Hi0 : 0 ≤ Qc_of_nat i) by (apply (Qc_of_nat_le 0); lia).
  destruct (Qclt_le_dec start stop) as [Hlt|Hge].
  - destruct (arange_length_spec start stop step Hstep Hlt) as (_ & Hlast & _).
    assert (Hle : Qc_of_nat i ≤ Qc_of_nat (arange_length start stop step - 1))
      by (apply Qc_of_nat_le; lia).
    revert Hi0 Hle Hlast.
    generalize (Qc_of_nat (arange_length start stop step - 1)) as m.
    generalize (Qc_of_nat i) as k. intros k m Hk Hkm Hlast. qc_to_q.
    assert (0 * this step <= this k * this step)%Q
      by (apply Qmult_le_compat_r; lra).
    assert (this k * this step <= this m * this step)%Q
      by (apply Qmult_le_compat_r; lra).
    lra.
  - exfalso. unfold arange_length in Hi.
    set (q := ((this stop - this start) / this step)%Q) in Hi.
    pose proof (Qceiling_lt q) as Hlow.
    assert (Hq : (q <= 0)%Q).
    { subst q. qc_to_q. apply Qle_shift_div_r; lra. }
    assert (Hc : (inject_Z (Qceiling q - 1) < inject_Z 0)%Q)
      by (change (inject_Z 0) with 0%Q; lra).
    rewrite <- Zlt_Qlt in Hc. lia.
Qed.

(** The steps from [start] cover the whole interval up to [stop]. *)
Lemma steps_cover start step p (n : nat) :
  0 < step → (0 < n)%nat →
  start ≤ p → p ≤ start + Qc_of_nat n * step →
  ∃ i, (i < n)%nat ∧
       start + Qc_of_nat i * step ≤ p ∧
       p ≤ start + Qc_of_nat i * step + step.
Proof.
  intros Hstep. induction n as [|n IH]; [lia|]. intros _ Hlo Hhi.
  destruct (Qclt_le_dec (start + Qc_of_nat n * step) p) as [Hlt|Hle].
  - exists n. split; [lia|]. split; [by apply Qclt_le_weak|].
    rewrite Qc_of_nat_S in Hhi. revert Hhi. clear.
    generalize (Qc_of_nat n). intros k Hhi. qc_to_q. lra.
  - destruct n as [|n].
    + exists 0%nat. split; [lia|]. clear IH Hle.
      rewrite Qc_of_nat_S in Hhi. rewrite Qc_of_nat_0 in *.
      split; qc_to_q; lra.
    + destruct IH as (i & Hi & Hi1 & Hi2); [lia | done | done |].
      exists i. split; [lia | done].
Qed.

Lemma axis_cover start stop step p :
  0 < step → start < stop → start ≤ p → p ≤ stop →
  ∃ i, (i < arange_length start stop step)%nat ∧
       start + Qc_of_nat i * step ≤ p ∧
       p ≤ py_min (start + Qc_of_nat i * step + step) stop.
Proof.
  intros Hstep Hlt Hlo Hhi.
  destruct (arange_length_spec start stop step Hstep Hlt) as (Hn & _ & Hlast).
  destruct (steps_cover start step p (arange_length start stop step))
    as (i & Hi & Hi1 & Hi2); [done | done | done | |].
  { by eapply Qcle_trans. }
  exists i. split; [done|]. split; [done|]. by apply py_min_glb.
Qed.

(** ** The grid of [divide_data] *)

Section grid.
Context `{MathSqrt}.

Lemma grid_size_of_positive x_min y_min x_max y_max :
  x_min < x_max → y_min < y_max →
  let g := sqrt ((x_max - x_min) * (y_max - y_min) / Qc_of_Z 100) in
  grid_size_of (x_min, y_min, x_max, y_max) = Returned g ∧ 0 < g.
Proof.
  intros Hx Hy g. subst g. unfold grid_size_of, math_sqrt.
  assert (Hpos : 0 < (x_max - x_min) * (y_max - y_min) / Qc_of_Z 100).
  { qc_to_q. apply Qlt_shift_div_l; [reflexivity|].
    assert (0 < (this x_max - this x_min) * (this y_max - this y_min))%Q
      by (apply Qmult_lt_0_compat; lra). lra. }
  rewrite decide_False by (by apply Qcle_not_lt, Qclt_le_weak).
  split; [done | by apply sqrt_pos].
Qed.

Lemma grid_size_of_degenerate x_min y_min x_max y_max :
  x_max = x_min ∨ y_max = y_min →
  grid_size_of (x_min, y_min, x_max, y_max) = Returned 0.
Proof.
  intros Hdeg. unfold grid_size_of, math_sqrt.
  assert (Hzero : (x_max - x_min) * (y_max - y_min) / Qc_of_Z 100 = 0).
  { destruct Hdeg as [-> | ->]; apply Qc_is_canon;
      rewrite this_div, this_mult, !this_minus; unfold Qdiv;
      change (this 0) with 0%Q; ring. }
  rewrite Hzero. rewrite decide_False by (intros []%Qclt_not_eq; done).
  by rewrite sqrt_0.
Qed.

(** The rectangles of the grid are those at the origins of the two axes. *)
Lemma elem_of_grid_cells x_min y_min x_max y_max grid_size cells c :
  grid_size_of (x_min, y_min, x_max, y_max) = Returned grid_size →
  grid_cells (x_min, y_min, x_max, y_max) = Returned cells →
  c ∈ cells ↔
  ∃ i j, (i < arange_length x_min x_max grid_size)%nat ∧
         (j < arange_length y_min y_max grid_size)%nat ∧
         c = grid_cell grid_size x_max y_max
               (x_min + Qc_of_nat i * grid_size)
               (y_min + Qc_of_nat j * grid_size).
Proof.
  intros Hg. unfold grid_cells, grid. rewrite Hg. simpl.
  destruct (np_arange x_min x_max grid_size) as [xs|] eqn:Hxs; [|done].
  destruct (np_arange y_min y_max grid_size) as [ys|] eqn:Hys; [|done].
  simpl. intros [= <-]. rewrite list_elem_of_bind. split.
  - intros (x & (y & Hc%list_elem_of_singleton & Hy)%list_elem_of_bind & Hx).
    apply (elem_of_arange _ _ _ _ _ Hxs) in Hx as (i & Hi & ->).
    apply (elem_of_arange _ _ _ _ _ Hys) in Hy as (j & Hj & ->).
    by exists i, j.
  - intros (i & j & Hi & Hj & ->).
    exists (x_min + Qc_of_nat i * grid_size). split.
    + apply list_elem_of_bind. exists (y_min + Qc_of_nat j * grid_size).
      split; [by apply list_elem_of_singleton|].
      apply (elem_of_arange _ _ _ _ _ Hys). by exists j.
    + apply (elem_of_arange _ _ _ _ _ Hxs). by exists i.
Qed.

Lemma grid_cells_returns x_min y_min x_max y_max grid_size :
  grid_size_of (x_min, y_min, x_max, y_max) = Returned grid_size →
  grid_size ≠ 0 →
  ∃ cells, grid_cells (x_min, y_min, x_max, y_max) = Returned cells.
Proof.
  intros Hg Hne. unfold grid_cells, grid. rewrite Hg. simpl.
  rewrite !np_arange_returns by done. simpl. eauto.
Qed.

(** The points of a cell whose origin lies before the maxima. *)
Lemma grid_cell_contains grid_size x_max y_max x y p :
  0 < grid_size → x < x_max → y < y_max →
  box_contains (grid_cell grid_size x_max y_max x y) p ↔
  x ≤ p.1 ∧ p.1 ≤ py_min (x + grid_size) x_max ∧
  y ≤ p.2 ∧ p.2 ≤ py_min (y + grid_size) y_max.
Proof.
  intros Hg Hx Hy. unfold box_contains, minx, maxx, miny, maxy. simpl.
  assert (Hx' : x ≤ py_min (x + grid_size) x_max).
  { apply py_min_glb; [|by apply Qclt_le_weak]. qc_to_q. lra. }
  assert (Hy' : y ≤ py_min (y + grid_size) y_max).
  { apply py_min_glb; [|by apply Qclt_le_weak]. qc_to_q. lra. }
  by rewrite (py_min_l x _ Hx'), (py_max_r x _ Hx'),
    (py_min_l y _ Hy'), (py_max_r y _ Hy').
Qed.

End grid.

Section grid_geometry.
Context `{MathSqrt}.

(** Two cells whose origins are one step apart along x meet in the edge
    between them, and nowhere else. *)
Lemma grid_cell_neighbour_x grid_size x_max y_max x y :
  0 < grid_size → x + grid_size < x_max → y < y_max →
  let c1 := grid_cell grid_size x_max y_max x y in
  let c2 := grid_cell grid_size x_max y_max (x + grid_size) y in
  bx2 c1 = bx1 c2 ∧ by2 c1 = by2 c2 ∧
  ∀ p, box_contains c1 p ∧ box_contains c2 p ↔
       p.1 = bx1 c2 ∧ by1 c1 ≤ p.2 ∧ p.2 ≤ by2 c1.
Proof.
  intros Hg Hx Hy c1 c2.
  assert (Hx1 : x < x_max) by (qc_to_q; lra).
  assert (Hmin : py_min (x + grid_size) x_max = x + grid_size)
    by (by apply py_min_l, Qclt_le_weak).
  split; [done|]. split; [done|]. intros p. subst c1 c2.
  rewrite !grid_cell_contains by done. simpl. rewrite Hmin.
  assert (Hnext : x + grid_size ≤ py_min (x + grid_size + grid_size) x_max).
  { apply py_min_glb; [|by apply Qclt_le_weak]. qc_to_q. lra. }
  revert Hnext. generalize (py_min (x + grid_size + grid_size) x_max).
  generalize (py_min (y + grid_size) y_max). intros Y X HX.
  split.
  - intros [(?&?&?&?) (?&?&?&?)]. split_and!; [|done..].
    by apply (anti_symm Qcle).
  - intros (-> & ? & ?). split_and!; try done; try apply Qcle_refl.
    qc_to_q; lra.
Qed.

Lemma grid_cell_neighbour_y grid_size x_max y_max x y :
  0 < grid_size → x < x_max → y + grid_size < y_max →
  let c1 := grid_cell grid_size x_max y_max x y in
  let c2 := grid_cell grid_size x_max y_max x (y + grid_size) in
  by2 c1 = by1 c2 ∧ bx2 c1 = bx2 c2 ∧
  ∀ p, box_contains c1 p ∧ box_contains c2 p ↔
       p.2 = by1 c2 ∧ bx1 c1 ≤ p.1 ∧ p.1 ≤ bx2 c1.
Proof.
  intros Hg Hx Hy c1 c2.
  assert (Hy1 : y < y_max) by (qc_to_q; lra).
  assert (Hmin : py_min (y + grid_size) y_max = y + grid_size)
    by (by apply py_min_l, Qclt_le_weak).
  split; [done|]. split; [done|]. intros p. subst c1 c2.
  rewrite !grid_cell_contains by done. simpl. rewrite Hmin.
  assert (Hnext : y + grid_size ≤ py_min (y + grid_size + grid_size) y_max).
  { apply py_min_glb; [|by apply Qclt_le_weak]. qc_to_q. lra. }
  revert Hnext. generalize (py_min (y + grid_size + grid_size) y_max).
  generalize (py_min (x + grid_size) x_max). intros X Y HY.
  split.
  - intros [(?&?&?&?) (?&?&?&?)]. split_and!; [|done..].
    by apply (anti_symm Qcle).
  - intros (-> & ? & ?). split_and!; try done; try apply Qcle_refl.
    qc_to_q; lra.
Qed.

(** The grid without rounding.  For a bounding box of positive width and
    height the grid is generated, the union of its cells is exactly the
    bounding box (every point of the box lies in a cell, every cell lies in
    the box), and two cells that are neighbours along an axis meet exactly
    in the edge they share.  This is the design that the program computes
    in binary64, where it does not hold: see [unit_square_cells_leave_gap]. *)
Theorem grid_cells_cover_bounds x_min y_min x_max y_max :
  x_min < x_max → y_min < y_max →
  ∃ grid_size cells,
    grid_size_of (x_min, y_min, x_max, y_max) = Returned grid_size ∧
    grid_cells (x_min, y_min, x_max, y_max) = Returned cells ∧
    (∀ p, box_contains (box x_min y_min x_max y_max) p ↔
          ∃ c, c ∈ cells ∧ box_contains c p) ∧
    (∀ c1 c2, c1 ∈ cells → c2 ∈ cells →
       bx1 c2 = bx1 c1 + grid_size → by1 c2 = by1 c1 →
       bx2 c1 = bx1 c2 ∧ by2 c1 = by2 c2 ∧
       ∀ p, box_contains c1 p ∧ box_contains c2 p ↔
            p.1 = bx1 c2 ∧ by1 c1 ≤ p.2 ∧ p.2 ≤ by2 c1) ∧
    (∀ c1 c2, c1 ∈ cells → c2 ∈ cells →
       by1 c2 = by1 c1 + grid_size → bx1 c2 = bx1 c1 →
       by2 c1 = by1 c2 ∧ bx2 c1 = bx2 c2 ∧
       ∀ p, box_contains c1 p ∧ box_contains c2 p ↔
            p.2 = by1 c2 ∧ bx1 c1 ≤ p.1 ∧ p.1 ≤ bx2 c1).
Proof.
  intros Hx Hy.
  destruct (grid_size_of_positive x_min y_min x_max y_max Hx Hy) as [Hg Hpos].
  set (g := sqrt ((x_max - x_min) * (y_max - y_min) / Qc_of_Z 100)) in *.
  destruct (grid_cells_returns x_min y_min x_max y_max g Hg) as [cells Hcells].
  { intros Hz. rewrite Hz in Hpos. by apply Qclt_not_eq in Hpos. }
  exists g, cells. split; [done|]. split; [done|].
  pose proof (λ c, elem_of_grid_cells _ _ _ _ _ _ c Hg Hcells) as Hin.
  split; [|split].
  - intros p. split.
    + unfold box_contains, minx, maxx, miny, maxy. simpl.
      rewrite !py_min_l, !py_max_r by (by apply Qclt_le_weak).
      intros (Hx1 & Hx2 & Hy1 & Hy2).
      destruct (axis_cover x_min x_max g p.1) as (i & Hi & Hi1 & Hi2);
        [done..|].
      destruct (axis_cover y_min y_max g p.2) as (j & Hj & Hj1 & Hj2);
        [done..|].
      eexists. split; [apply Hin; by exists i, j|].
      apply grid_cell_contains; [done | | | done].
      * by apply arange_origin_bounds.
      * by apply arange_origin_bounds.
    + intros (c & (i & j & Hi & Hj & ->)%Hin & Hc).
      destruct (arange_origin_bounds x_min x_max g i Hpos Hi) as [Hi1 Hi2].
      destruct (arange_origin_bounds y_min y_max g j Hpos Hj) as [Hj1 Hj2].
      apply grid_cell_contains in Hc as (Hc1 & Hc2 & Hc3 & Hc4); [|done..].
      unfold box_contains, minx, maxx, miny, maxy. simpl.
      rewrite !py_min_l, !py_max_r by (by apply Qclt_le_weak).
      split_and!.
      * by eapply Qcle_trans.
      * eapply Qcle_trans; [done | apply py_min_le_r].
      * by eapply Qcle_trans.
      * eapply Qcle_trans; [done | apply py_min_le_r].
  - intros c1 c2 (i & j & Hi & Hj & ->)%Hin (i' & j' & Hi' & Hj' & ->)%Hin.
    simpl. intros Hbx Hby. rewrite Hbx, Hby.
    destruct (arange_origin_bounds x_min x_max g i' Hpos Hi') as [_ Hi2].
    destruct (arange_origin_bounds y_min y_max g j Hpos Hj) as [_ Hj2].
    rewrite Hbx in Hi2.
    apply (grid_cell_neighbour_x g x_max y_max _ _ Hpos Hi2 Hj2).
  - intros c1 c2 (i & j & Hi & Hj & ->)%Hin (i' & j' & Hi' & Hj' & ->)%Hin.
    simpl. intros Hby Hbx. rewrite Hbx, Hby.
    destruct (arange_origin_bounds x_min x_max g i Hpos Hi) as [_ Hi2].
    destruct (arange_origin_bounds y_min y_max g j' Hpos Hj') as [_ Hj2].
    rewrite Hby in Hj2.
    apply (grid_cell_neighbour_y g x_max y_max _ _ Hpos Hi2 Hj2).
Qed.

End grid_geometry.

Section grid_steps.
Context `{MathSqrt}.

Lemma lookup_arange start stop step l k x :
  np_arange start stop step = Returned l →
  l !! k = Some x →
  (k < arange_length start stop step)%nat ∧ x = start + Qc_of_nat k * step.
Proof.
  unfold np_arange. case_decide; [done|]. intros [= <-].
  rewrite list_lookup_fmap. intros Hk.
  destruct (seq 0 (arange_length start stop step) !! k) as [i|] eqn:Hi;
    [|done].
  apply lookup_seq in Hi as [-> ?]. simpl in Hk. by injection Hk as <-.
Qed.

(** When the grid is generated its step is positive. *)
Lemma grid_returns_inv x_min y_min x_max y_max grid_size x_ranges y_ranges :
  grid (x_min, y_min, x_max, y_max) = Returned (grid_size, x_ranges, y_ranges) →
  grid_size = sqrt ((x_max - x_min) * (y_max - y_min) / Qc_of_Z 100) ∧
  0 < grid_size ∧
  np_arange x_min x_max grid_size = Returned x_ranges ∧
  np_arange y_min y_max grid_size = Returned y_ranges.
Proof.
  unfold grid, grid_size_of, math_sqrt.
  set (chunk_area := (x_max - x_min) * (y_max - y_min) / Qc_of_Z 100).
  case_decide as Hneg; [done|]. simpl.
  destruct (np_arange x_min x_max (sqrt chunk_area)) as [xs|] eqn:Hxs; [|done].
  destruct (np_arange y_min y_max (sqrt chunk_area)) as [ys|] eqn:Hys; [|done].
  simpl. intros [= <- <- <-]. split; [done|]. split; [|done].
  apply Qcnot_lt_le in Hneg. apply Qcle_lt_or_eq in Hneg as [Hpos|Hzero].
  - by apply sqrt_pos.
  - rewrite <- Hzero, sqrt_0 in Hxs. by rewrite np_arange_zero_step in Hxs.
Qed.

Lemma grid_returns x_min y_min x_max y_max :
  x_min < x_max → y_min < y_max →
  ∃ x_ranges y_ranges,
    grid (x_min, y_min, x_max, y_max) =
      Returned (sqrt ((x_max - x_min) * (y_max - y_min) / Qc_of_Z 100),
                x_min :: x_ranges, y_min :: y_ranges).
Proof.
  intros Hx Hy.
  destruct (grid_size_of_positive x_min y_min x_max y_max Hx Hy) as [Hg Hpos].
  set (g := sqrt ((x_max - x_min) * (y_max - y_min) / Qc_of_Z 100)) in *.
  assert (Hne : g ≠ 0).
  { intros Hz. rewrite Hz in Hpos. by apply Qclt_not_eq in Hpos. }
  unfold grid. rewrite Hg. simpl. rewrite !np_arange_returns by done. simpl.
  destruct (arange_length_spec x_min x_max g Hpos Hx) as (Hnx & _).
  destruct (arange_length_spec y_min y_max g Hpos Hy) as (Hny & _).
  destruct (arange_length x_min x_max g) as [|nx]; [lia|].
  destruct (arange_length y_min y_max g) as [|ny]; [lia|].
  simpl. rewrite Qc_of_nat_0, !Qcmult_0_l, !Qcplus_0_r. eauto.
Qed.

(** The origins without rounding.  The step of the grid is the root of one
    hundredth of the area of the bounding box.  Whenever the grid is
    generated, its origins along each axis are the multiples of the step
    counted from the minimum, all of them before the maximum, and the cell
    at an origin [(x, y)] is the rectangle from [(x, y)] to
    [(min(x + step, x_max), min(y + step, y_max))], so that no cell is wider
    or higher than the step.  A bounding box of positive width and height
    has such a grid, and its first origin is the minimum on each axis.  In
    binary64 an origin can lie beyond the maximum: see
    [origin_beyond_the_maximum]. *)
Theorem grid_is_clipped_steps x_min y_min x_max y_max :
  let bounds := (x_min, y_min, x_max, y_max) in
  let cell_side := sqrt ((x_max - x_min) * (y_max - y_min) / Qc_of_Z 100) in
  (∀ grid_size, grid_size_of bounds = Returned grid_size →
                grid_size = cell_side) ∧
  (∀ grid_size x_ranges y_ranges,
     grid bounds = Returned (grid_size, x_ranges, y_ranges) →
     grid_size = cell_side ∧ 0 < grid_size ∧
     (∀ k x, x_ranges !! k = Some x →
             x = x_min + Qc_of_nat k * grid_size ∧ x_min ≤ x ∧ x < x_max) ∧
     (∀ k y, y_ranges !! k = Some y →
             y = y_min + Qc_of_nat k * grid_size ∧ y_min ≤ y ∧ y < y_max) ∧
     grid_cells bounds =
       Returned (x ← x_ranges; y ← y_ranges;
                 [box x y (py_min (x + grid_size) x_max)
                          (py_min (y + grid_size) y_max)]) ∧
     (∀ x y, x ∈ x_ranges → y ∈ y_ranges →
        let cell := grid_cell grid_size x_max y_max x y in
        bounds_of cell = (x, y, py_min (x + grid_size) x_max,
                                py_min (y + grid_size) y_max) ∧
        maxx cell - minx cell ≤ grid_size ∧
        maxy cell - miny cell ≤ grid_size)) ∧
  (x_min < x_max → y_min < y_max →
   ∃ x_ranges y_ranges,
     grid bounds = Returned (cell_side, x_min :: x_ranges, y_min :: y_ranges)).
Proof.
  intros bounds cell_side. split; [|split].
  - intros g. unfold bounds, grid_size_of, math_sqrt.
    case_decide; [done|]. by intros [= <-].
  - intros g xs ys Hgrid.
    pose proof (grid_returns_inv _ _ _ _ _ _ _ Hgrid) as (Hg & Hpos & Hxs & Hys).
    assert (Hx : ∀ k x, xs !! k = Some x →
               x = x_min + Qc_of_nat k * g ∧ x_min ≤ x ∧ x < x_max).
    { intros k x Hk. destruct (lookup_arange _ _ _ _ _ _ Hxs Hk) as [Hlt ->].
      split; [done|]. by apply arange_origin_bounds. }
    assert (Hy : ∀ k y, ys !! k = Some y →
               y = y_min + Qc_of_nat k * g ∧ y_min ≤ y ∧ y < y_max).
    { intros k y Hk. destruct (lookup_arange _ _ _ _ _ _ Hys Hk) as [Hlt ->].
      split; [done|]. by apply arange_origin_bounds. }
    split_and!; try done.
    + unfold grid_cells. fold bounds. by rewrite Hgrid.
    + intros x y [kx Hkx]%list_elem_of_lookup [ky Hky]%list_elem_of_lookup cell.
      destruct (Hx _ _ Hkx) as (_ & _ & Hxlt).
      destruct (Hy _ _ Hky) as (_ & _ & Hylt).
      assert (Hx' : x ≤ py_min (x + g) x_max).
      { apply py_min_glb; [|by apply Qclt_le_weak]. qc_to_q. lra. }
      assert (Hy' : y ≤ py_min (y + g) y_max).
      { apply py_min_glb; [|by apply Qclt_le_weak]. qc_to_q. lra. }
      unfold bounds_of, minx, maxx, miny, maxy, cell. simpl.
      rewrite (py_min_l x _ Hx'), (py_max_r x _ Hx'),
        (py_min_l y _ Hy'), (py_max_r y _ Hy').
      split; [done|].
      pose proof (py_min_le_l (x + g) x_max).
      pose proof (py_min_le_l (y + g) y_max).
      split; qc_to_q; lra.
  - apply grid_returns.
Qed.

End grid_steps.

(** ** Instances of the interfaces, for the examples *)

(** A root to sixteen decimals, exact on the squares of fractions. *)
Definition root16 (q : Qc) : Qc :=
  Q2Qc (Z.sqrt (Qnum q * Zpos (Qden q) * 10 ^ 32) # (Qden q * 10 ^ 16)).

Lemma root16_0 : root16 0 = 0.
Proof. by apply Qc_is_canon. Qed.

Lemma root16_pos q : 0 < q → 0 < root16 q.
Proof.
  intros Hq. unfold root16. qc_to_q.
  destruct q as [[n d] Hc]. simpl in *. unfold Qlt in *. simpl in *.
  assert (1 <= Z.sqrt (n * Z.pos d * 10 ^ 32))%Z.
  { change 1%Z with (Z.sqrt 1). apply Z.sqrt_le_mono. nia. }
  lia.
Qed.

#[global] Instance root16_sqrt : MathSqrt :=
  {| sqrt := root16; sqrt_0 := root16_0; sqrt_pos := root16_pos |}.

(** An index that scans its entries in the order of insertion and accepts
    the rectangles whose minima do not exceed their maxima. *)
Definition overlaps (e q : Qc * Qc * Qc * Qc) : bool :=
  let '(ex1, ey1, ex2, ey2) := e in
  let '(qx1, qy1, qx2, qy2) := q in
  bool_decide (ex1 ≤ qx2) && bool_decide (qx1 ≤ ex2) &&
  bool_decide (ey1 ≤ qy2) && bool_decide (qy1 ≤ ey2).

#[global] Instance linear_scan : RTree := {|
  rtree_accepts := λ '(x1, y1, x2, y2),
    bool_decide (x1 ≤ x2) && bool_decide (y1 ≤ y2);
  rtree_intersection := λ entries q,
    List.filter (λ i, from_option (λ e, overlaps e q) false (entries !! i))
                (seq 0 (length entries))
|}.

(** ** Degenerate bounding boxes (C1) *)

Section degenerate.
Context `{MathSqrt} {G : Type} `{Geometry G}.

(** C1, as amended.  When the bounding box has width 0 or height 0 the
    step of the grid is 0, the generation of the grid origins fails on it,
    and [divide_data] ends with that error before it writes a chunk or the
    metadata: it neither loops nor produces a chunk. *)
Theorem divide_data_degenerate_raises (gdf : list (row G))
    (fs : gmap string (file G)) (location : string) x_min y_min x_max y_max :
  x_max - x_min = 0 ∨ y_max - y_min = 0 →
  grid_size_of (x_min, y_min, x_max, y_max) = Returned 0 ∧
  grid (x_min, y_min, x_max, y_max) = Raised ArangeError ∧
  divide_data gdf fs location (x_min, y_min, x_max, y_max) =
    Raised ArangeError.
Proof.
  intros Hdeg.
  assert (Hg : grid_size_of (x_min, y_min, x_max, y_max) = Returned 0).
  { apply grid_size_of_degenerate.
    destruct Hdeg as [Hw|Hh]; [left|right]; qc_to_q; lra. }
  assert (Hgrid : grid (x_min, y_min, x_max, y_max) = Raised ArangeError).
  { unfold grid. rewrite Hg, bind_Returned. by rewrite np_arange_zero_step. }
  split; [done|]. split; [done|]. unfold divide_data. by rewrite Hgrid.
Qed.

End degenerate.

(** A dataset of a single point. *)
Definition single_point : list (row Box) :=
  [Row (box (Qc_of_Z 3) (Qc_of_Z 4) (Qc_of_Z 3) (Qc_of_Z 4)) (JsonObject ∅)].

Lemma divide_data_degenerate_raises_witness :
  grid_size_of (Qc_of_Z 3, Qc_of_Z 4, Qc_of_Z 3, Qc_of_Z 4) = Returned 0 ∧
  grid (Qc_of_Z 3, Qc_of_Z 4, Qc_of_Z 3, Qc_of_Z 4) = Raised ArangeError ∧
  divide_data single_point ∅ "point"
    (Qc_of_Z 3, Qc_of_Z 4, Qc_of_Z 3, Qc_of_Z 4) = Raised ArangeError.
Proof.
  apply divide_data_degenerate_raises. left. by apply Qc_is_canon.
Defined.

(** C1, as stated, fails: a single point has a bounding box of width and
    height 0, and its partition produces no chunk but an error. *)
Lemma single_point_dataset_raises :
  divide_data single_point ∅ "point"
    (Qc_of_Z 3, Qc_of_Z 4, Qc_of_Z 3, Qc_of_Z 4) = Raised ArangeError ∧
  ¬ ∃ fs, divide_data single_point ∅ "point"
            (Qc_of_Z 3, Qc_of_Z 4, Qc_of_Z 3, Qc_of_Z 4) = Returned fs.
Proof.
  assert (Hraise : divide_data single_point ∅ "point"
            (Qc_of_Z 3, Qc_of_Z 4, Qc_of_Z 3, Qc_of_Z 4) = Raised ArangeError)
    by (vm_compute; reflexivity).
  split; [done|]. intros [fs Hfs]. by rewrite Hraise in Hfs.
Qed.

(** ** Loading the metadata (C2) *)

Section metadata.
Context {G : Type} `{Geometry G} `{RTree}.

Lemma elem_of_listdir (fs : gmap string (file G)) name :
  name ∈ listdir fs ↔ is_Some (fs !! name).
Proof.
  unfold listdir. rewrite list_elem_of_fmap. split.
  - intros ([k f] & -> & Hkf%elem_of_map_to_list). by exists f.
  - intros [f Hf]. exists (name, f). split; [done|].
    by apply elem_of_map_to_list.
Qed.

Lemma metadata_file_None (fs : gmap string (file G)) :
  metadata_file fs = None ↔
  ∀ name, is_Some (fs !! name) → endswith name "_metadata.json" = false.
Proof.
  unfold metadata_file. rewrite head_None. split.
  - intros Hnil name Hname%elem_of_listdir%list_elem_of_In.
    destruct (endswith name "_metadata.json") eqn:Hend; [|done].
    assert (Hin : In name (List.filter (λ f, endswith f "_metadata.json")
                             (listdir fs))) by (by apply filter_In).
    by rewrite Hnil in Hin.
  - intros Hall.
    destruct (List.filter _ (listdir fs)) as [|name l] eqn:Hfilter; [done|].
    assert (Hin : In name (List.filter (λ f, endswith f "_metadata.json")
                             (listdir fs))) by (rewrite Hfilter; by left).
    apply filter_In in Hin as [Hin%list_elem_of_In%elem_of_listdir Hend].
    by rewrite (Hall name Hin) in Hend.
Qed.

Lemma metadata_file_Some (fs : gmap string (file G)) name :
  metadata_file fs = Some name →
  is_Some (fs !! name) ∧ endswith name "_metadata.json" = true.
Proof.
  unfold metadata_file. intros Hhead.
  destruct (List.filter _ (listdir fs)) as [|name' l] eqn:Hfilter; [done|].
  injection Hhead as ->.
  assert (Hin : In name (List.filter (λ f, endswith f "_metadata.json")
                           (listdir fs))) by (rewrite Hfilter; by left).
  apply filter_In in Hin as [Hin%list_elem_of_In%elem_of_listdir Hend].
  done.
Qed.

(** What lines 125 to 130 make of the outcome of [json.load]. *)
Definition loaded (r : result json) : metadata_error + json :=
  match r with
  | Returned metadata => inr metadata
  | Raised JSONDecodeError => inl CorruptError
  | Raised e => inl (Unhandled e)
  end.

Lemma load_metadata_loaded (fs : gmap string (file G)) name f :
  metadata_file fs = Some name → fs !! name = Some f →
  load_metadata fs = loaded (json_load f).
Proof. intros Hname Hf. unfold load_metadata. by rewrite Hname, Hf. Qed.

(** The folder written by one partition holds one metadata file: that is
    the one loaded. *)
Lemma load_metadata_only (fs : gmap string (file G)) name f :
  (∀ other, is_Some (fs !! other) →
            endswith other "_metadata.json" = true → other = name) →
  endswith name "_metadata.json" = true → fs !! name = Some f →
  load_metadata fs = loaded (json_load f).
Proof.
  intros Honly Hend Hf.
  destruct (metadata_file fs) as [name'|] eqn:Hname.
  - pose proof (metadata_file_Some _ _ Hname) as [Hsome Hend'].
    rewrite (Honly name' Hsome Hend') in Hname.
    by apply (load_metadata_loaded fs name f).
  - pose proof (proj1 (metadata_file_None fs) Hname) as Hnone.
    rewrite Hnone in Hend; [done|]. by exists f.
Qed.

(** Every outcome of the load comes from one file of the folder that is
    named as a metadata file. *)
Lemma load_metadata_inv (fs : gmap string (file G)) :
  metadata_file fs = None ∧ load_metadata fs = inl NotFoundError ∨
  ∃ name f, endswith name "_metadata.json" = true ∧ fs !! name = Some f ∧
            load_metadata fs = loaded (json_load f).
Proof.
  destruct (metadata_file fs) as [name|] eqn:Hname.
  - right. pose proof (metadata_file_Some _ _ Hname) as [[f Hf] Hend].
    exists name, f. split_and!; [done..|].
    by apply (load_metadata_loaded fs name f).
  - left. split; [done|]. unfold load_metadata. by rewrite Hname.
Qed.

Lemma loaded_NotFoundError r : loaded r ≠ inl NotFoundError.
Proof. by destruct r as [v|[]]. Qed.

Lemma loaded_CorruptError r :
  loaded r = inl CorruptError ↔ r = Raised JSONDecodeError.
Proof. by destruct r as [v|[]]. Qed.

Lemma loaded_Unhandled r e :
  loaded r = inl (Unhandled e) ↔ r = Raised e ∧ e ≠ JSONDecodeError.
Proof.
  destruct r as [v|e']; simpl.
  - split; [done | by intros [? ?]].
  - split.
    + intros Hl. destruct e'; try done; by injection Hl as <-.
    + intros [[= ->] Hne]. by destruct e.
Qed.

Lemma loaded_inr r metadata : loaded r = inr metadata ↔ r = Returned metadata.
Proof.
  destruct r as [v|[]]; simpl; split; try done; by intros [= ->].
Qed.

(** C2, as amended.  Loading fails with NotFoundError exactly when no file
    of the folder is named [..._metadata.json]; it fails with CorruptError
    only on a metadata file on which [json.load] raises JSONDecodeError (a
    text that is no JSON document); an exception of another class, as the
    UnicodeDecodeError of a file that is no text, is not caught and is no
    CorruptError; and otherwise the load returns the decoded document of a
    metadata file as it is: no value of the mapping is inspected,
    well-ordered or not.  Where the folder holds one metadata file, that
    file decides which of these happens.  The two errors end [extract_data]
    with their message and [sys.exit(1)]; the exception that is not caught
    ends it with no message. *)
Theorem load_metadata_spec (fs : gmap string (file G)) :
  (load_metadata fs = inl NotFoundError ↔
   ∀ name, is_Some (fs !! name) → endswith name "_metadata.json" = false) ∧
  (load_metadata fs = inl CorruptError →
   ∃ name f, endswith name "_metadata.json" = true ∧
             fs !! name = Some f ∧ json_load f = Raised JSONDecodeError) ∧
  (∀ e, load_metadata fs = inl (Unhandled e) →
   e ≠ JSONDecodeError ∧
   ∃ name f, endswith name "_metadata.json" = true ∧
             fs !! name = Some f ∧ json_load f = Raised e) ∧
  (∀ metadata, load_metadata fs = inr metadata →
   ∃ name f, endswith name "_metadata.json" = true ∧
             fs !! name = Some f ∧ json_load f = Returned metadata) ∧
  (∀ name f, (∀ other, is_Some (fs !! other) →
                endswith other "_metadata.json" = true → other = name) →
     endswith name "_metadata.json" = true → fs !! name = Some f →
     load_metadata fs = match f with
                        | JsonFile metadata => inr metadata
                        | FeatureFile _ =>
                            inr (JObj {[ "type" := JStr "FeatureCollection" ]})
                        | OtherFile => inl CorruptError
                        | BinaryFile => inl (Unhandled UnicodeDecodeError)
                        end) ∧
  (∀ top_left bottom_right,
     match load_metadata fs with
     | inl NotFoundError =>
         extract_data fs top_left bottom_right = ([MetadataNotFound], SysExit)
     | inl CorruptError =>
         extract_data fs top_left bottom_right = ([MetadataInvalid], SysExit)
     | inl (Unhandled e) =>
         extract_data fs top_left bottom_right = ([], Uncaught e)
     | inr metadata => True
     end).
Proof.
  split_and!.
  - rewrite <- metadata_file_None.
    destruct (load_metadata_inv fs) as [[Hnone ->]|(name & f & Hend & Hf & ->)];
      [done|].
    split; [by intros ?%loaded_NotFoundError|].
    intros Hnone.
    rewrite (proj1 (metadata_file_None fs) Hnone name) in Hend; [done|].
    by exists f.
  - destruct (load_metadata_inv fs) as [[Hnone ->]|(name & f & Hend & Hf & ->)];
      [done|].
    intros Hload%loaded_CorruptError. by exists name, f.
  - intros e.
    destruct (load_metadata_inv fs) as [[Hnone ->]|(name & f & Hend & Hf & ->)];
      [done|].
    intros [Hload Hne]%loaded_Unhandled. split; [done|]. by exists name, f.
  - intros metadata.
    destruct (load_metadata_inv fs) as [[Hnone ->]|(name & f & Hend & Hf & ->)];
      [done|].
    intros Hload%loaded_inr. by exists name, f.
  - intros name f Honly Hend Hf.
    rewrite (load_metadata_only fs name f Honly Hend Hf). by destruct f.
  - intros top_left bottom_right. unfold extract_data.
    by destruct (load_metadata fs) as [[| |e]|metadata].
Qed.

End metadata.

(** A metadata file whose only entry has [x_min = 5 > x_max = 1]. *)
Definition ill_ordered_coords : json :=
  JObj (<["x_min" := JNum (Qc_of_Z 5)]>
       (<["y_min" := JNum (Qc_of_Z 0)]>
       (<["x_max" := JNum (Qc_of_Z 1)]>
       (<["y_max" := JNum (Qc_of_Z 1)]> ∅)))).

Definition ill_ordered_metadata : json :=
  JObj {[ "loc_5.000000_0.000000.geojson" := ill_ordered_coords ]}.

Definition ill_ordered_folder : gmap string (file Box) :=
  {[ "loc_metadata.json" := JsonFile ill_ordered_metadata ]}.

(** A metadata file that is no text, and one that is no JSON document. *)
Definition binary_folder : gmap string (file Box) :=
  {[ "loc_metadata.json" := BinaryFile ]}.

Definition scribbled_folder : gmap string (file Box) :=
  {[ "loc_metadata.json" := OtherFile ]}.

(** C2, as stated, fails: a mapping with ill-ordered bounds is loaded. *)
Lemma load_metadata_accepts_ill_ordered_bounds :
  load_metadata ill_ordered_folder = inr ill_ordered_metadata ∧
  (∀ e : metadata_error, load_metadata ill_ordered_folder ≠ inl e) ∧
  subscript ill_ordered_metadata "loc_5.000000_0.000000.geojson"
    = Returned ill_ordered_coords ∧
  subscript ill_ordered_coords "x_min" = Returned (JNum (Qc_of_Z 5)) ∧
  subscript ill_ordered_coords "x_max" = Returned (JNum (Qc_of_Z 1)) ∧
  Qc_of_Z 1 < Qc_of_Z 5.
Proof.
  assert (Hload : load_metadata ill_ordered_folder = inr ill_ordered_metadata)
    by (vm_compute; reflexivity).
  split_and!.
  - exact Hload.
  - intros e. rewrite Hload. discriminate.
  - vm_compute. reflexivity.
  - vm_compute. reflexivity.
  - vm_compute. reflexivity.
  - vm_compute. reflexivity.
Qed.

(** The two metadata files that do not load: the text that is no JSON is
    reported, the bytes that are no text end the program by an exception. *)
Lemma metadata_that_does_not_load top_left bottom_right :
  load_metadata scribbled_folder = inl CorruptError ∧
  extract_data scribbled_folder top_left bottom_right
    = ([MetadataInvalid], SysExit) ∧
  load_metadata binary_folder = inl (Unhandled UnicodeDecodeError) ∧
  extract_data binary_folder top_left bottom_right
    = ([], Uncaught UnicodeDecodeError).
Proof.
  assert (Hs : load_metadata scribbled_folder = inl CorruptError)
    by (vm_compute; reflexivity).
  assert (Hb : load_metadata binary_folder = inl (Unhandled UnicodeDecodeError))
    by (vm_compute; reflexivity).
  split_and!; [exact Hs| |exact Hb|]; unfold extract_data;
    [rewrite Hs|rewrite Hb]; reflexivity.
Qed.

(** ** The extraction loops *)

Section extraction_loops.
Context {G : Type} `{Geometry G}.

(** What a list of rows contributes to [all_features], whatever was
    collected before. *)
Definition rows_features (rows : list (row G)) : list (feature G) :=
  all_features (iterrows rows (State [] [])).1.

Definition file_features (fs : gmap string (file G)) (bbox : Box)
    (filename : string) : list (feature G) :=
  all_features (extract_file fs bbox (State [] []) filename).

Lemma iterrows_state rows (s : state G) :
  iterrows rows s =
    (State (all_features s ++ rows_features rows)
           (stdout s ++ stdout (iterrows rows (State [] [])).1),
     (iterrows rows (State [] [])).2).
Proof.
  unfold rows_features. revert s.
  induction rows as [|r rows IH]; intros s; simpl.
  - rewrite !app_nil_r. by destruct s.
  - destruct (properties r) as [m| |].
    + rewrite IH, (IH (append_feature _ (State [] []))). simpl.
      by rewrite <- !app_assoc.
    + rewrite IH, (IH (print _ (State [] []))). simpl.
      by rewrite <- !app_assoc.
    + simpl. rewrite !app_nil_r. by destruct s.
Qed.

Lemma iterrows_app rows1 rows2 (s : state G) :
  iterrows (rows1 ++ rows2) s =
    match iterrows rows1 s with
    | (s1, Returned _) => iterrows rows2 s1
    | (s1, Raised e) => (s1, Raised e)
    end.
Proof.
  revert s. induction rows1 as [|r rows1 IH]; intros s; simpl; [done|].
  destruct (properties r); by rewrite ?IH.
Qed.

(** A row whose payload is no JSON adds a warning and nothing else. *)
Lemma iterrows_invalid before r after (s : state G) :
  properties r = JsonInvalid →
  all_features (iterrows (before ++ r :: after) s).1 =
    all_features (iterrows (before ++ after) s).1 ∧
  (iterrows (before ++ r :: after) s).2 = (iterrows (before ++ after) s).2.
Proof.
  intros Hr. rewrite !iterrows_app.
  destruct (iterrows before s) as [s1 [[]|e]]; [|done].
  simpl. rewrite Hr.
  rewrite (iterrows_state after (print _ s1)), (iterrows_state after s1).
  done.
Qed.

Lemma extract_file_state fs bbox (s : state G) filename :
  all_features (extract_file fs bbox s filename) =
    all_features s ++ file_features fs bbox filename.
Proof.
  unfold file_features, extract_file.
  destruct (fs !! filename) as [f|]; simpl; [|by rewrite app_nil_r].
  destruct (read_file f) as [gdf|]; simpl; [|by rewrite app_nil_r].
  rewrite (iterrows_state _ s).
  destruct (iterrows _ (State [] [])) as [s0 [[]|e]] eqn:Hrows;
    simpl; unfold rows_features; by rewrite Hrows.
Qed.

Lemma extract_files_state fs bbox files (s : state G) :
  all_features (extract_files fs bbox files s) =
    all_features s ++ (files ≫= file_features fs bbox).
Proof.
  unfold extract_files. revert s.
  induction files as [|filename files IH]; intros s; simpl.
  - by rewrite app_nil_r.
  - by rewrite IH, extract_file_state, <- app_assoc.
Qed.

Lemma extract_files_app fs bbox files1 files2 (s : state G) :
  extract_files fs bbox (files1 ++ files2) s =
    extract_files fs bbox files2 (extract_files fs bbox files1 s).
Proof. unfold extract_files. apply foldl_app. Qed.

Lemma stdout_extract_file fs bbox (s : state G) filename :
  ∃ lines, stdout (extract_file fs bbox s filename) = stdout s ++ lines.
Proof.
  unfold extract_file.
  destruct (fs !! filename) as [f|]; simpl; [|by eexists].
  destruct (read_file f) as [gdf|]; simpl; [|by eexists].
  rewrite (iterrows_state _ s).
  destruct (iterrows _ (State [] [])) as [s0 [[]|e]]; simpl.
  - by eexists.
  - rewrite <- app_assoc. by eexists.
Qed.

Lemma stdout_extract_files fs bbox files (s : state G) :
  ∃ lines, stdout (extract_files fs bbox files s) = stdout s ++ lines.
Proof.
  unfold extract_files. revert s.
  induction files as [|filename files IH]; intros s; simpl.
  - exists []. by rewrite app_nil_r.
  - destruct (IH (extract_file fs bbox s filename)) as [l2 ->].
    destruct (stdout_extract_file fs bbox s filename) as [l1 ->].
    rewrite <- app_assoc. by eexists.
Qed.

Lemma file_features_missing (fs : gmap string (file G)) bbox filename :
  fs !! filename = None → file_features fs bbox filename = [].
Proof. intros Hnone. unfold file_features, extract_file. by rewrite Hnone. Qed.

(** Where the features of a file come from. *)
Lemma rows_features_inv rows (f : feature G) :
  f ∈ rows_features rows →
  ∃ r properties_dict,
    r ∈ rows ∧ properties r = JsonObject properties_dict ∧
    f = Feature (properties_dict ∪ {[ "type" := JStr "Feature" ]})
                (geometry r).
Proof.
  unfold rows_features. induction rows as [|r rows IH]; simpl.
  - by intros ?%elem_of_nil.
  - destruct (properties r) as [m| |] eqn:Hr.
    + rewrite iterrows_state. simpl.
      intros [->|Hf]%elem_of_cons.
      * exists r, m. split; [by left | done].
      * destruct (IH Hf) as (r' & m' & ? & ? & ?).
        exists r', m'. split; [by right | done].
    + rewrite iterrows_state. simpl. intros Hf.
      destruct (IH Hf) as (r' & m' & ? & ? & ?).
      exists r', m'. split; [by right | done].
    + simpl. by intros ?%elem_of_nil.
Qed.

Lemma file_features_inv fs bbox filename (f : feature G) :
  f ∈ file_features fs bbox filename →
  ∃ rows r properties_dict,
    fs !! filename = Some (FeatureFile rows) ∧ r ∈ rows ∧
    intersects (geometry r) bbox = true ∧
    properties r = JsonObject properties_dict ∧
    f = Feature (properties_dict ∪ {[ "type" := JStr "Feature" ]})
                (geometry r).
Proof.
  unfold file_features, extract_file.
  destruct (fs !! filename) as [file|]; simpl; [|by intros ?%elem_of_nil].
  destruct file as [rows| | |]; simpl; try by intros ?%elem_of_nil.
  intros Hf.
  assert (Hin : f ∈ rows_features
            (List.filter (λ r, intersects (geometry r) bbox) rows)).
  { unfold rows_features.
    by destruct (iterrows _ (State [] [])) as [s0 [[]|e]]. }
  apply rows_features_inv in Hin as (r & m & Hr & Hm & ->).
  apply list_elem_of_In, filter_In in Hr as [Hr%list_elem_of_In Hbox].
  by exists rows, r, m.
Qed.

Lemma rows_features_cons r rows :
  rows_features (r :: rows) =
    match properties r with
    | JsonObject properties_dict =>
        Feature (properties_dict ∪ {[ "type" := JStr "Feature" ]}) (geometry r)
          :: rows_features rows
    | JsonInvalid => rows_features rows
    | JsonOther => []
    end.
Proof.
  unfold rows_features. simpl.
  destruct (properties r); [| |done]; by rewrite iterrows_state.
Qed.

(** The features of a chunk file are those of its rows that meet the box. *)
Lemma file_features_rows (fs : gmap string (file G)) bbox filename rows :
  fs !! filename = Some (FeatureFile rows) →
  file_features fs bbox filename =
    rows_features (List.filter (λ r, intersects (geometry r) bbox) rows).
Proof.
  intros Hfile. unfold file_features, extract_file, rows_features.
  rewrite Hfile. simpl.
  by destruct (iterrows _ (State [] [])) as [s0 [[]|e]].
Qed.

(** Without a payload that raises, every valid row yields its feature. *)
Lemma rows_features_valid rows v properties_dict :
  Forall (λ r, properties r ≠ JsonOther) rows →
  v ∈ rows → properties v = JsonObject properties_dict →
  Feature (properties_dict ∪ {[ "type" := JStr "Feature" ]}) (geometry v)
    ∈ rows_features rows.
Proof.
  intros Hall Hv Hm. induction Hall as [|r rows Hr _ IH].
  - by apply elem_of_nil in Hv.
  - rewrite rows_features_cons. apply elem_of_cons in Hv as [<-|Hv].
    + rewrite Hm. by left.
    + destruct (properties r); [right; by apply IH | by apply IH | done].
Qed.

Lemma iterrows_returns rows (s : state G) :
  Forall (λ r, properties r ≠ JsonOther) rows →
  (iterrows rows s).2 = Returned ().
Proof.
  intros Hall. revert s.
  induction Hall as [|r rows Hr _ IH]; intros s; simpl; [done|].
  destruct (properties r); [apply IH | apply IH | done].
Qed.

End extraction_loops.

(** ** The query box (C7) *)

Section query.
Context {G : Type} `{Geometry G} `{RTree}.

(** How [extract_data] ends once the candidate files are known. *)
Definition outcome_of (features : list (feature G)) : outcome G :=
  match features with
  | [] => NothingWritten
  | _ :: _ => Wrote features
  end.

Lemma extract_data_candidates (fs : gmap string (file G)) tl br metadata files :
  load_metadata fs = inr metadata →
  build_index metadata ≫= (λ entries,
    intersecting_files entries (query_box tl br)) = Returned files →
  ∃ log,
    extract_data fs tl br =
      (log, outcome_of (files ≫= file_features fs (query_box tl br))) ∧
    ∃ lines, log =
      stdout (extract_files fs (query_box tl br) files
                (State [] [FoundFiles (length files)])) ++ lines.
Proof.
  intros Hload Hfiles. unfold extract_data. rewrite Hload, Hfiles.
  pose proof (extract_files_state fs (query_box tl br) files
                (State [] [FoundFiles (length files)])) as Hfeat.
  simpl in Hfeat. rewrite <- Hfeat.
  destruct (all_features _) as [|f l]; simpl; eexists; split; eauto.
Qed.

Lemma extract_data_Wrote_inv (fs : gmap string (file G)) tl br log features :
  extract_data fs tl br = (log, Wrote features) →
  ∃ files, features = files ≫= file_features fs (query_box tl br).
Proof.
  unfold extract_data.
  destruct (load_metadata fs) as [[]|metadata]; [done..|].
  destruct (build_index metadata ≫= _) as [files|e]; [|done].
  pose proof (extract_files_state fs (query_box tl br) files
                (State [] [FoundFiles (length files)])) as Hfeat.
  simpl in Hfeat. rewrite Hfeat.
  destruct (files ≫= _) as [|f l] eqn:Hbind; [done|].
  intros [= _ <-]. by exists files.
Qed.

(** C7.  The two corners, each a pair (latitude, longitude), are turned
    into the box from the smaller to the larger longitude and from the
    smaller to the larger latitude: its minima do not exceed its maxima,
    its sides in x are the two longitudes and its sides in y the two
    latitudes (so that both corners are points of it), it is the same box
    when the corners are swapped or when the other two corners of the
    rectangle are given, and the extraction, which reads the corners
    through this box only, is the same for either order. *)
Theorem query_box_normalised (fs : gmap string (file G)) top_left bottom_right :
  let bbox := query_box top_left bottom_right in
  bx1 bbox ≤ bx2 bbox ∧ by1 bbox ≤ by2 bbox ∧
  bounds_of bbox = (bx1 bbox, by1 bbox, bx2 bbox, by2 bbox) ∧
  bx1 bbox = py_min top_left.2 bottom_right.2 ∧
  by1 bbox = py_min top_left.1 bottom_right.1 ∧
  bx2 bbox = py_max top_left.2 bottom_right.2 ∧
  by2 bbox = py_max top_left.1 bottom_right.1 ∧
  ((bx1 bbox, bx2 bbox) = (top_left.2, bottom_right.2) ∨
   (bx1 bbox, bx2 bbox) = (bottom_right.2, top_left.2)) ∧
  ((by1 bbox, by2 bbox) = (top_left.1, bottom_right.1) ∨
   (by1 bbox, by2 bbox) = (bottom_right.1, top_left.1)) ∧
  box_contains bbox (top_left.2, top_left.1) ∧
  box_contains bbox (bottom_right.2, bottom_right.1) ∧
  query_box bottom_right top_left = bbox ∧
  query_box (top_left.1, bottom_right.2) (bottom_right.1, top_left.2) = bbox ∧
  extract_data fs bottom_right top_left =
    extract_data fs top_left bottom_right ∧
  (∀ top_left' bottom_right',
     query_box top_left' bottom_right' = bbox →
     extract_data fs top_left' bottom_right' =
       extract_data fs top_left bottom_right).
Proof.
  intros bbox.
  assert (Hx : bx1 bbox ≤ bx2 bbox) by apply py_min_le_max.
  assert (Hy : by1 bbox ≤ by2 bbox) by apply py_min_le_max.
  assert (Hswap : query_box bottom_right top_left = bbox).
  { unfold bbox, query_box.
    by rewrite (py_min_comm bottom_right.2), (py_min_comm bottom_right.1),
      (py_max_comm bottom_right.2), (py_max_comm bottom_right.1). }
  assert (Hsame : ∀ tl br, query_box tl br = bbox →
            extract_data fs tl br = extract_data fs top_left bottom_right).
  { intros tl br Hbox. unfold extract_data. by rewrite Hbox. }
  assert (Hbounds : bounds_of bbox = (bx1 bbox, by1 bbox, bx2 bbox, by2 bbox)).
  { unfold bounds_of, minx, maxx, miny, maxy.
    by rewrite !py_min_l, !py_max_r. }
  assert (Hin : ∀ lon lat,
            py_min top_left.2 bottom_right.2 ≤ lon →
            lon ≤ py_max top_left.2 bottom_right.2 →
            py_min top_left.1 bottom_right.1 ≤ lat →
            lat ≤ py_max top_left.1 bottom_right.1 →
            box_contains bbox (lon, lat)).
  { intros lon lat Hx1 Hx2 Hy1 Hy2. unfold box_contains.
    injection Hbounds as -> -> -> ->. done. }
  split_and!; try done.
  - apply py_min_max_pair.
  - apply py_min_max_pair.
  - apply Hin; [apply py_min_le_l|apply py_max_ge_l|
                apply py_min_le_l|apply py_max_ge_l].
  - apply Hin; [apply py_min_le_r|apply py_max_ge_r|
                apply py_min_le_r|apply py_max_ge_r].
  - unfold bbox, query_box. simpl.
    by rewrite (py_min_comm bottom_right.2), (py_max_comm bottom_right.2).
  - by apply Hsame.
Qed.

End query.

(** ** Missing chunks, undecodable payloads and the ["type"] attribute
       (C8, C9, C10) *)

Section recovery.
Context {G : Type} `{Geometry G} `{RTree}.

(** C8.  A candidate file that is not in the folder only adds the warning
    that it was not found: the loop goes on with the candidates after it,
    the features collected are those of the candidates without it, and
    [extract_data] ends as it would had the file not been a candidate. *)
Theorem missing_chunk_is_skipped (fs : gmap string (file G)) bbox
    before filename after (s : state G) :
  fs !! filename = None →
  extract_file fs bbox s filename = print (FileNotFound filename) s ∧
  extract_files fs bbox (before ++ filename :: after) s =
    extract_files fs bbox after
      (print (FileNotFound filename) (extract_files fs bbox before s)) ∧
  all_features (extract_files fs bbox (before ++ filename :: after) s) =
    all_features (extract_files fs bbox (before ++ after) s) ∧
  FileNotFound filename ∈
    stdout (extract_files fs bbox (before ++ filename :: after) s) ∧
  (∀ top_left bottom_right metadata,
     bbox = query_box top_left bottom_right →
     load_metadata fs = inr metadata →
     build_index metadata ≫= (λ entries, intersecting_files entries bbox)
       = Returned (before ++ filename :: after) →
     ∃ log,
       extract_data fs top_left bottom_right =
         (log, outcome_of ((before ++ after) ≫= file_features fs bbox)) ∧
       FileNotFound filename ∈ log).
Proof.
  intros Hnone.
  assert (Hfile : ∀ s', extract_file fs bbox s' filename =
                        print (FileNotFound filename) s').
  { intros s'. unfold extract_file. by rewrite Hnone. }
  assert (Hloop : ∀ s', extract_files fs bbox (before ++ filename :: after) s' =
            extract_files fs bbox after
              (print (FileNotFound filename) (extract_files fs bbox before s'))).
  { intros s'. rewrite extract_files_app. unfold extract_files at 1. simpl.
    by rewrite Hfile. }
  assert (Hfeat : (before ++ filename :: after) ≫= file_features fs bbox =
                  (before ++ after) ≫= file_features fs bbox).
  { rewrite !bind_app, bind_cons. by rewrite file_features_missing. }
  assert (Hlog : ∀ s', FileNotFound filename ∈
            stdout (extract_files fs bbox (before ++ filename :: after) s')).
  { intros s'. rewrite Hloop.
    destruct (stdout_extract_files fs bbox after
                (print (FileNotFound filename) (extract_files fs bbox before s')))
      as [lines ->].
    simpl. rewrite !elem_of_app, list_elem_of_singleton. auto. }
  split_and!; try done.
  - by rewrite !extract_files_state, Hfeat.
  - intros tl br metadata -> Hload Hfiles.
    destruct (extract_data_candidates fs tl br metadata _ Hload Hfiles)
      as (log & Hrun & lines & Hlines).
    exists log. rewrite Hrun, Hfeat. split; [done|].
    rewrite Hlines, elem_of_app. left. apply Hlog.
Qed.

(** C9.  A row whose payload is no JSON is left out of the output and
    costs nothing else: every run of the loop collects the features it
    would collect from the folder in which that row is removed from its
    chunk, and [extract_data] ends accordingly; the warning is printed
    when the row is reached; and a valid row of the same chunk is in the
    output. *)
Theorem undecodable_feature_is_skipped (fs : gmap string (file G)) bbox
    filename before r after :
  fs !! filename = Some (FeatureFile (before ++ r :: after)) →
  properties r = JsonInvalid →
  let fs' := <[filename := FeatureFile (before ++ after)]> fs in
  (∀ files s, all_features (extract_files fs bbox files s) =
              all_features (extract_files fs' bbox files s)) ∧
  (∀ top_left bottom_right metadata files,
     bbox = query_box top_left bottom_right →
     load_metadata fs = inr metadata →
     build_index metadata ≫= (λ entries, intersecting_files entries bbox)
       = Returned files →
     ∃ log, extract_data fs top_left bottom_right =
              (log, outcome_of (files ≫= file_features fs' bbox))) ∧
  (∀ s, intersects (geometry r) bbox = true →
        Forall (λ r', properties r' ≠ JsonOther) before →
        PropertiesNotParsed ∈ stdout (extract_file fs bbox s filename)) ∧
  (∀ v properties_dict s,
     v ∈ before ++ after →
     properties v = JsonObject properties_dict →
     intersects (geometry v) bbox = true →
     Forall (λ r', properties r' ≠ JsonOther) (before ++ after) →
     Feature (properties_dict ∪ {[ "type" := JStr "Feature" ]}) (geometry v)
       ∈ all_features (extract_file fs bbox s filename)).
Proof.
  intros Hfile Hr fs'.
  set (keep := λ r' : row G, intersects (geometry r') bbox).
  assert (Hrows : rows_features (List.filter keep (before ++ r :: after)) =
                  rows_features (List.filter keep (before ++ after))).
  { rewrite !List.filter_app. simpl. destruct (keep r); [|done].
    apply (iterrows_invalid _ r _ (State [] []) Hr). }
  assert (Hsame : ∀ name, file_features fs bbox name = file_features fs' bbox name).
  { intros name. destruct (decide (name = filename)) as [->|Hne].
    - rewrite (file_features_rows fs bbox filename _ Hfile).
      rewrite (file_features_rows fs' bbox filename (before ++ after))
        by apply lookup_insert_eq.
      done.
    - unfold file_features, extract_file, fs'. by rewrite lookup_insert_ne. }
  assert (Hbind : ∀ files, files ≫= file_features fs bbox =
                           files ≫= file_features fs' bbox).
  { intros files. induction files as [|name files IH]; [done|].
    by rewrite !bind_cons, IH, Hsame. }
  split_and!.
  - intros files s. by rewrite !extract_files_state, Hbind.
  - intros tl br metadata files -> Hload Hfiles.
    destruct (extract_data_candidates fs tl br metadata _ Hload Hfiles)
      as (log & Hrun & _).
    exists log. by rewrite Hrun, Hbind.
  - intros s Hbox Hbefore. unfold extract_file. rewrite Hfile. simpl.
    fold keep. rewrite List.filter_app. simpl. unfold keep at 2. rewrite Hbox.
    rewrite iterrows_app.
    assert (Hok : Forall (λ r', properties r' ≠ JsonOther)
                    (List.filter keep before)).
    { apply Forall_forall. intros x [Hx _]%list_elem_of_In%filter_In.
      by eapply Forall_forall in Hbefore; [|apply list_elem_of_In]. }
    pose proof (iterrows_returns _ s Hok) as Hret.
    destruct (iterrows (List.filter keep before) s) as [s1 res]. simpl in Hret.
    subst res. simpl. rewrite Hr.
    rewrite (iterrows_state _ (print _ s1)). simpl.
    destruct (iterrows _ (State [] [])) as [s2 [[]|e]]; simpl;
      rewrite ?elem_of_app, ?list_elem_of_singleton; auto.
  - intros v m s Hv Hm Hbox Hall.
    rewrite extract_file_state, elem_of_app. right.
    rewrite Hsame.
    rewrite (file_features_rows fs' bbox filename (before ++ after))
      by apply lookup_insert_eq.
    apply rows_features_valid; [| |done].
    + apply Forall_forall. intros x [Hx _]%list_elem_of_In%filter_In.
      by eapply Forall_forall in Hall; [|apply list_elem_of_In].
    + apply list_elem_of_In, filter_In. by rewrite <- list_elem_of_In.
Qed.

End recovery.

Section typed_output.
Context {G : Type} `{Geometry G} `{RTree}.

Lemma union_type_lookup (properties_dict : gmap string json) :
  (properties_dict !! "type" = None →
   (properties_dict ∪ {[ "type" := JStr "Feature" ]}) !! "type"
     = Some (JStr "Feature")) ∧
  (∀ v, properties_dict !! "type" = Some v →
        (properties_dict ∪ {[ "type" := JStr "Feature" ]}) !! "type" = Some v).
Proof.
  split.
  - intros Hnone. rewrite lookup_union_r by done. apply lookup_singleton_eq.
  - intros v Hv. by apply lookup_union_Some_l.
Qed.

(** C10.  Every feature written by [extract_data] comes from a row of a
    chunk file that meets the query box and whose payload is a JSON object;
    its properties are that object laid over [{"type": "Feature"}]: they
    map ["type"] to ["Feature"] unless the payload has a ["type"] of its
    own, which then wins, and they keep every other key of the payload. *)
Theorem output_properties_carry_type (fs : gmap string (file G))
    top_left bottom_right log features f :
  extract_data fs top_left bottom_right = (log, Wrote features) →
  f ∈ features →
  ∃ filename rows r properties_dict,
    fs !! filename = Some (FeatureFile rows) ∧ r ∈ rows ∧
    intersects (geometry r) (query_box top_left bottom_right) = true ∧
    properties r = JsonObject properties_dict ∧
    feature_geometry f = geometry r ∧
    feature_properties f =
      properties_dict ∪ {[ "type" := JStr "Feature" ]} ∧
    (properties_dict !! "type" = None →
     feature_properties f !! "type" = Some (JStr "Feature")) ∧
    (∀ v, properties_dict !! "type" = Some v →
          feature_properties f !! "type" = Some v) ∧
    (∀ key v, properties_dict !! key = Some v →
              feature_properties f !! key = Some v).
Proof.
  intros [files ->]%extract_data_Wrote_inv.
  intros (filename & Hf & _)%list_elem_of_bind.
  apply file_features_inv in Hf as (rows & r & m & Hfile & Hr & Hbox & Hm & ->).
  exists filename, rows, r, m. simpl.
  destruct (union_type_lookup m) as [Hdefault Hoverride].
  split_and!; try done.
  intros key v Hkey. by apply lookup_union_Some_l.
Qed.

End typed_output.

(** ** A dataset smaller than the precision of the chunk names *)

(** Hundred-millionths of a degree. *)
Definition tiny (n : Z) : Qc := Q2Qc (n # 100000000).

Definition named (name : string) : payload :=
  JsonObject {[ "name" := JStr name ]}.

Definition shed_a : row Box :=
  Row (box (tiny 0) (tiny 0) (tiny 5) (tiny 5)) (named "a").
Definition shed_b : row Box :=
  Row (box (tiny 22) (tiny 1) (tiny 28) (tiny 5)) (named "b").
Definition shed_c : row Box :=
  Row (box (tiny 95) (tiny 95) (tiny 100) (tiny 100)) (named "c").

(** Three rectangles within a millionth of a degree; [tiny_bounds] is
    their bounding box. *)
Definition tiny_gdf : list (row Box) := [shed_a; shed_b; shed_c].
Definition tiny_bounds : Qc * Qc * Qc * Qc :=
  (tiny 0, tiny 0, tiny 100, tiny 100).

(** The folder [divide_data] leaves. *)
Definition tiny_folder : gmap string (file Box) :=
  match divide_data tiny_gdf ∅ "loc" tiny_bounds with
  | Returned fs => fs
  | Raised _ => ∅
  end.

(** The names of the rows a folder stores, file by file. *)
Definition stored_names (fs : gmap string (file Box))
  : list (string * list (option json)) :=
  List.map (λ entry : string * file Box,
              (entry.1,
               List.map (λ r, match properties r with
                              | JsonObject m => m !! "name"
                              | _ => None
                              end)
                        (default [] (read_file entry.2))))
           (map_to_list fs).

(** The query of the whole bounding box: its top-left and bottom-right
    corners, as (latitude, longitude). *)
Definition tiny_top_left : Qc * Qc := (tiny 100, tiny 0).
Definition tiny_bottom_right : Qc * Qc := (tiny 0, tiny 100).

(** What an outcome wrote. *)
Definition written {G} (o : outcome G) : list (feature G) :=
  match o with
  | Wrote features => features
  | _ => []
  end.

#[global] Instance exn_eq_dec : EqDecision exn.
Proof. solve_decision. Defined.

#[global] Instance result_eq_dec `{EqDecision A} : EqDecision (result A).
Proof. solve_decision. Defined.

(** Settles a decidable statement by evaluation. *)
Ltac by_evaluation :=
  lazymatch goal with
  | |- ?P =>
      let d := constr:(_ : Decision P) in
      apply (@bool_decide_eq_true_1 P d); vm_compute; reflexivity
  end.

(** The grid of [tiny_bounds]. *)
Definition tiny_grid : Qc * list Qc * list Qc :=
  match grid tiny_bounds with
  | Returned g => g
  | Raised _ => (0, [], [])
  end.

(** C6 on [tiny_gdf].  The step of the grid is a ten-millionth of a degree,
    so the cells at the origins [(0, 0)] and [(2e-7, 0)] get the same file
    name.  The first holds [shed_a], the second [shed_b]: the file written
    for the first is overwritten by the second, and after the partition no
    chunk holds [shed_a] although it meets a cell of the grid. *)
Theorem tiny_partition_overwrites_chunk :
  divide_data tiny_gdf ∅ "loc" tiny_bounds = Returned tiny_folder ∧
  grid tiny_bounds = Returned tiny_grid ∧
  tiny_grid.1.1 = tiny 10 ∧
  tiny_grid.1.2 !! 0%nat = Some (tiny 0) ∧
  tiny_grid.1.2 !! 2%nat = Some (tiny 20) ∧
  tiny_grid.2 !! 0%nat = Some (tiny 0) ∧
  cell_gdf tiny_gdf
    (grid_cell (tiny 10) (tiny 100) (tiny 100) (tiny 0) (tiny 0))
    = [shed_a] ∧
  cell_gdf tiny_gdf
    (grid_cell (tiny 10) (tiny 100) (tiny 100) (tiny 20) (tiny 0))
    = [shed_b] ∧
  chunk_filename "loc" (tiny 0) (tiny 0) = "loc_0.000000_0.000000.geojson" ∧
  chunk_filename "loc" (tiny 20) (tiny 0) = "loc_0.000000_0.000000.geojson" ∧
  tiny_folder !! "loc_0.000000_0.000000.geojson"
    = Some (FeatureFile [shed_b]) ∧
  stored_names tiny_folder =
    [("loc_metadata.json", []);
     ("loc_0.000001_0.000001.geojson", [Some (JStr "c")]);
     ("loc_0.000000_0.000000.geojson", [Some (JStr "b")])].
Proof.
  split_and!;
    first [ by_evaluation | vm_compute; reflexivity ].
Qed.

(** C3 on [tiny_gdf].  Every payload decodes, the query box is the
    bounding box of the dataset and [shed_a] lies in it, yet the extraction
    from the partitioned folder writes two features for the three of the
    dataset, and [shed_a] is not among them. *)
Theorem tiny_extraction_loses_feature :
  divide_data tiny_gdf ∅ "loc" tiny_bounds = Returned tiny_folder ∧
  Forall (λ r, ∃ properties_dict, properties r = JsonObject properties_dict)
    tiny_gdf ∧
  bounds_of (query_box tiny_top_left tiny_bottom_right) = tiny_bounds ∧
  intersects (geometry shed_a) (query_box tiny_top_left tiny_bottom_right)
    = true ∧
  (extract_data tiny_folder tiny_top_left tiny_bottom_right).1
    = [FoundFiles 2; Extracted 2] ∧
  (∃ features,
     (extract_data tiny_folder tiny_top_left tiny_bottom_right).2
       = Wrote features ∧
     List.map (λ f, feature_properties f !! "name") features
       = [Some (JStr "c"); Some (JStr "b")] ∧
     (length features < length tiny_gdf)%nat ∧
     ∀ f, f ∈ features → feature_geometry f ≠ geometry shed_a).
Proof.
  split_and!; try (vm_compute; reflexivity).
  - repeat constructor; by eexists.
  - exists (written (extract_data tiny_folder tiny_top_left tiny_bottom_right).2).
    split_and!; [vm_compute; reflexivity | vm_compute; reflexivity
                | by_evaluation |].
    assert (Hgeo :
      List.map (λ f : feature Box, this (bx1 (feature_geometry f)))
        (written (extract_data tiny_folder tiny_top_left tiny_bottom_right).2)
      = [this (tiny 95); this (tiny 22)])
      by (vm_compute; reflexivity).
    intros f Hf%list_elem_of_In Heq.
    apply (in_map (λ f : feature Box, this (bx1 (feature_geometry f)))) in Hf.
    rewrite Hgeo, Heq in Hf. vm_compute in Hf.
    by destruct Hf as [?|[?|[]]].
Qed.

(** ** The grid in binary64 (C4, C5) *)

Section binary64.
Import PrimFloat.

Lemma box_contains_inv (b : Box) p :
  box_contains b p → minx b ≤ p.1 ∧ p.1 ≤ maxx b.
Proof. by intros (? & ? & _). Qed.

(** The unit square. *)
Definition unit_square : float * float
                         * float * float :=
  (0, 0, 1, 1)%float.

Definition unit_square_boxes : list Box :=
  match Binary64.grid_cells unit_square with
  | Returned cells => default [] (mapM Binary64.box_of cells)
  | Raised _ => []
  end.

(** The floats 0.6 and 0.6000000000000001, one after the other in
    binary64, as fractions of denominator [2 ^ 53]. *)
Definition gap_left : Qc := Q2Qc (5404319552844595 # 9007199254740992).
Definition gap_right : Qc := Q2Qc (5404319552844596 # 9007199254740992).

(** C4.  The cells of the unit square, as the program computes them: one
    hundred rectangles, of which the sixth along x ends at 0.6 and the
    seventh starts at the next float, 0.6000000000000001.  The two cells do
    not meet, and no cell holds a point of the strip between them, which
    runs through the bounding box from bottom to top. *)
Theorem unit_square_cells_leave_gap :
  ∃ cells,
    Binary64.grid_cells unit_square = Returned cells ∧
    mapM Binary64.box_of cells = Some unit_square_boxes ∧
    length cells = 100%nat ∧
    cells !! 50%nat = Some (0.5, 0, 0.6, 0.1)%float ∧
    cells !! 60%nat
      = Some (0.6000000000000001, 0, 0.7000000000000001, 0.1)%float ∧
    Binary64.number 0.6 = Some gap_left ∧
    Binary64.number 0.6000000000000001 = Some gap_right ∧
    gap_left < gap_right ∧
    maxx <$> unit_square_boxes !! 50%nat = Some gap_left ∧
    minx <$> unit_square_boxes !! 60%nat = Some gap_right ∧
    ∀ x y, gap_left < x → x < gap_right → 0 ≤ y → y ≤ 1 →
      box_contains (box 0 0 1 1) (x, y) ∧
      Forall (λ b, ¬ box_contains b (x, y)) unit_square_boxes.
Proof.
  assert (Hside : Forall (λ b, maxx b ≤ gap_left ∨ gap_right ≤ minx b)
                    unit_square_boxes).
  { apply Forall_forall. intros b Hb.
    assert (Hdec : bool_decide (maxx b ≤ gap_left)
                   || bool_decide (gap_right ≤ minx b) = true).
    { revert b Hb. apply Forall_forall.
      apply (bool_decide_eq_true_1 _). vm_compute. reflexivity. }
    apply orb_true_iff in Hdec as [?%bool_decide_eq_true|?%bool_decide_eq_true];
      [by left | by right]. }
  eexists. split_and!; try (vm_compute; reflexivity).
  intros x y Hx1 Hx2 Hy1 Hy2. split.
  - unfold box_contains, minx, maxx, miny, maxy. simpl.
    assert (H01 : (0 : Qc) ≤ 1) by by_evaluation.
    rewrite !(py_min_l 0 1 H01), !(py_max_r 0 1 H01).
    split_and!; [| |done|done].
    + apply Qclt_le_weak. eapply Qcle_lt_trans; [|exact Hx1]. by_evaluation.
    + apply Qclt_le_weak. eapply Qclt_le_trans; [exact Hx2|]. by_evaluation.
  - eapply Forall_impl; [exact Hside|]. simpl.
    intros b [Hleft|Hright] [Hmin Hmax]%box_contains_inv; simpl in *.
    + apply (Qclt_not_le _ _ Hx1). by etrans.
    + apply (Qclt_not_le _ _ Hx2). by etrans.
Qed.

(** Bounds of which the area is the square of 2.57. *)
Definition wide_bounds : float * float
                         * float * float :=
  (0.1, 0, 2.67, 2.57)%float.

(** C5.  On [wide_bounds] the step is 0.25699999999999995, and the quotient
    of the width by the step rounds to 10.000000000000002: [np.arange]
    returns eleven origins along x, the last of which lies beyond [x_max].
    The rectangle of the cell there starts at 2.6700000000000004 and ends
    at 2.67: its left side is to the right of its right side, and its
    corner is a point outside the bounding box. *)
Theorem origin_beyond_the_maximum :
  ∃ y_ranges cell bounds,
    Binary64.grid_size_of wide_bounds = Returned 0.25699999999999995%float ∧
    ((2.67 - 0.1) / 0.25699999999999995)%float = 10.000000000000002%float ∧
    Binary64.arange_length 0.1 2.67 0.25699999999999995 = Returned 11%nat ∧
    Binary64.grid wide_bounds
      = Returned (0.25699999999999995,
                  [0.1; 0.357; 0.614; 0.871; 1.1280000000000001;
                   1.3850000000000002; 1.6420000000000001; 1.899; 2.156;
                   2.4130000000000003; 2.6700000000000004], y_ranges)%float ∧
    length y_ranges = 11%nat ∧
    (2.67 <? 2.6700000000000004)%float = true ∧
    Binary64.grid_cell 0.25699999999999995 2.67 2.57 2.6700000000000004 0
      = (2.6700000000000004, 0, 2.67, 0.25699999999999995)%float ∧
    Binary64.box_of (2.6700000000000004, 0, 2.67, 0.25699999999999995)%float
      = Some cell ∧
    Binary64.box_of wide_bounds = Some bounds ∧
    bx2 cell < bx1 cell ∧
    box_contains cell (bx1 cell, by1 cell) ∧
    ¬ box_contains bounds (bx1 cell, by1 cell).
Proof.
  eexists _, _, _. split_and!; try (vm_compute; reflexivity).
  - unfold box_contains. by_evaluation.
  - unfold box_contains. by_evaluation.
Qed.

End binary64.

(** ** The theorems at concrete inputs *)

(** The folder of [tiny_gdf] after one of its chunks was removed. *)
Definition thinned_folder : gmap string (file Box) :=
  delete "loc_0.000001_0.000001.geojson" tiny_folder.

Lemma missing_chunk_is_skipped_witness :
  all_features
    (extract_files thinned_folder (query_box tiny_top_left tiny_bottom_right)
       ([] ++ "loc_0.000001_0.000001.geojson"
           :: ["loc_0.000000_0.000000.geojson"])
       (State [] [])) =
  all_features
    (extract_files thinned_folder (query_box tiny_top_left tiny_bottom_right)
       ([] ++ ["loc_0.000000_0.000000.geojson"]) (State [] [])) ∧
  FileNotFound "loc_0.000001_0.000001.geojson" ∈
    stdout
      (extract_files thinned_folder
         (query_box tiny_top_left tiny_bottom_right)
         ([] ++ "loc_0.000001_0.000001.geojson"
             :: ["loc_0.000000_0.000000.geojson"])
         (State [] [])).
Proof.
  destruct (missing_chunk_is_skipped thinned_folder
              (query_box tiny_top_left tiny_bottom_right) []
              "loc_0.000001_0.000001.geojson"
              ["loc_0.000000_0.000000.geojson"] (State [] []))
    as (_ & _ & Hfeatures & Hwarning & _).
  - vm_compute. reflexivity.
  - split; [exact Hfeatures | exact Hwarning].
Defined.

(** A chunk with a row whose payload is no JSON between two valid rows. *)
Definition broken_row : row Box :=
  Row (box (tiny 10) (tiny 10) (tiny 20) (tiny 20)) JsonInvalid.

Definition damaged_folder : gmap string (file Box) :=
  {[ "chunk.geojson" := FeatureFile ([shed_a] ++ broken_row :: [shed_b]) ]}.

Lemma undecodable_feature_is_skipped_witness :
  PropertiesNotParsed ∈
    stdout (extract_file damaged_folder
              (query_box tiny_top_left tiny_bottom_right) (State [] [])
              "chunk.geojson") ∧
  Feature ({[ "name" := JStr "b" ]} ∪ {[ "type" := JStr "Feature" ]})
          (geometry shed_b)
    ∈ all_features
        (extract_file damaged_folder
           (query_box tiny_top_left tiny_bottom_right) (State [] [])
           "chunk.geojson").
Proof.
  destruct (undecodable_feature_is_skipped damaged_folder
              (query_box tiny_top_left tiny_bottom_right)
              "chunk.geojson" [shed_a] broken_row [shed_b])
    as (_ & _ & Hwarning & Hvalid).
  - vm_compute. reflexivity.
  - reflexivity.
  - split.
    + apply Hwarning; [vm_compute; reflexivity|].
      apply List.Forall_cons; [discriminate | apply List.Forall_nil].
    + apply Hvalid.
      * apply elem_of_app. right. apply list_elem_of_singleton. reflexivity.
      * reflexivity.
      * vm_compute. reflexivity.
      * apply List.Forall_cons; [discriminate|].
        apply List.Forall_cons; [discriminate | apply List.Forall_nil].
Defined.

Lemma output_properties_carry_type_witness :
  ∃ filename rows r properties_dict,
    tiny_folder !! filename = Some (FeatureFile rows) ∧ r ∈ rows ∧
    intersects (geometry r) (query_box tiny_top_left tiny_bottom_right)
      = true ∧
    properties r = JsonObject properties_dict ∧
    geometry shed_b = geometry r ∧
    {[ "name" := JStr "b" ]} ∪ {[ "type" := JStr "Feature" ]}
      = properties_dict ∪ {[ "type" := JStr "Feature" ]}.
Proof.
  destruct (output_properties_carry_type tiny_folder
              tiny_top_left tiny_bottom_right
              (extract_data tiny_folder tiny_top_left tiny_bottom_right).1
              (written (extract_data tiny_folder tiny_top_left
                          tiny_bottom_right).2)
              (Feature ({[ "name" := JStr "b" ]} ∪ {[ "type" := JStr "Feature" ]})
                       (geometry shed_b)))
    as (filename & rows & r & m & Hfile & Hr & Hbox & Hm & Hgeo & Hprops & _).
  - vm_compute. reflexivity.
  - apply list_elem_of_In. vm_compute. right. left. reflexivity.
  - exists filename, rows, r, m. simpl in Hgeo, Hprops.
    repeat (split; [assumption|]). assumption.
Defined.

(** * Auxiliary facts *)

(** ** Strings *)

Lemma append_nil_l (t : string) : "" +:+ t = t.
Proof. reflexivity. Qed.

Lemma append_cons (c : ascii) (s t : string) :
  String c s +:+ t = String c (s +:+ t).
Proof. reflexivity. Qed.

Lemma append_assoc (a b c : string) : (a +:+ b) +:+ c = a +:+ b +:+ c.
Proof.
  induction a as [|x a IH]; [done|]. by rewrite !append_cons, IH.
Qed.

Lemma length_append (a b : string) :
  String.length (a +:+ b) = (String.length a + String.length b)%nat.
Proof.
  induction a as [|x a IH]; [done|]. rewrite append_cons. simpl. by rewrite IH.
Qed.

Lemma append_inj_length (a b a' b' : string) :
  a +:+ b = a' +:+ b' → String.length a = String.length a' →
  a = a' ∧ b = b'.
Proof.
  revert a'. induction a as [|x a IH]; intros [|x' a']; try done.
  rewrite !append_cons. intros [= -> Hrest] [= Hlen].
  destruct (IH _ Hrest Hlen) as [-> ->]. done.
Qed.

Lemma append_inj_length_r (a b a' b' : string) :
  a +:+ b = a' +:+ b' → String.length b = String.length b' →
  a = a' ∧ b = b'.
Proof.
  intros Heq Hlen. apply append_inj_length; [done|].
  apply (f_equal String.length) in Heq. rewrite !length_append in Heq. lia.
Qed.

(** The characters of a string. *)
Fixpoint chars (P : ascii → bool) (s : string) : bool :=
  match s with
  | "" => true
  | String c s => P c && chars P s
  end.

Lemma chars_cons P c s : chars P (String c s) = P c && chars P s.
Proof. reflexivity. Qed.

(** The characters of a formatted number. *)
Definition number_char (c : ascii) : bool :=
  match c with
  | "0" | "1" | "2" | "3" | "4" | "5" | "6" | "7" | "8" | "9"
  | "-" | "." => true
  | _ => false
  end%char.

Definition digit_char (c : ascii) : bool :=
  match c with
  | "0" | "1" | "2" | "3" | "4" | "5" | "6" | "7" | "8" | "9" => true
  | _ => false
  end%char.

Lemma pretty_N_char_digit x : digit_char (pretty_N_char x) = true.
Proof. unfold pretty_N_char. by repeat case_match. Qed.

Lemma pretty_N_go_digits x s :
  chars digit_char s = true → chars digit_char (pretty_N_go x s) = true.
Proof.
  revert s. induction (N.lt_wf_0 x) as [x _ IH]; intros s Hs.
  assert (x = 0 ∨ 0 < x)%N as [->|?] by lia.
  - by rewrite pretty_N_go_0.
  - rewrite pretty_N_go_step by done. apply IH; [by apply N.div_lt|].
    simpl. by rewrite pretty_N_char_digit.
Qed.

Lemma pretty_N_digits (x : N) : chars digit_char (pretty x) = true.
Proof.
  unfold pretty, pretty_N. case_decide; [done|]. by apply pretty_N_go_digits.
Qed.

Lemma pretty_N_nonempty (x : N) : pretty x ≠ "".
Proof.
  unfold pretty, pretty_N. case_decide; [done|].
  rewrite pretty_N_go_step by lia.
  intros Hempty. apply (f_equal String.length) in Hempty.
  assert (Hlen : ∀ y s, (String.length s ≤ String.length (pretty_N_go y s))%nat).
  { intros y. induction (N.lt_wf_0 y) as [y _ IH]; intros s.
    assert (y = 0 ∨ 0 < y)%N as [->|?] by lia; [by rewrite pretty_N_go_0|].
    rewrite pretty_N_go_step by done.
    etrans; [|by eapply IH, N.div_lt]. simpl. lia. }
  specialize (Hlen (x `div` 10)%N (String (pretty_N_char (x `mod` 10)) "")).
  simpl in *. lia.
Qed.

(** ** The text of a number *)

Lemma digit_cases (d : Z) :
  (0 ≤ d < 10)%Z →
  d = 0%Z ∨ d = 1%Z ∨ d = 2%Z ∨ d = 3%Z ∨ d = 4%Z ∨ d = 5%Z ∨ d = 6%Z ∨
  d = 7%Z ∨ d = 8%Z ∨ d = 9%Z.
Proof. lia. Qed.

Lemma digit_digit_char (d : Z) : (0 ≤ d < 10)%Z → digit_char (digit d) = true.
Proof. intros Hd%digit_cases. by repeat destruct Hd as [->|Hd]; subst. Qed.

Lemma fmt6_parts x :
  fmt6 x = sign_text x +:+ integer_text x +:+ "." +:+ fraction_text x.
Proof. reflexivity. Qed.

Lemma digit_number_char c : digit_char c = true → number_char c = true.
Proof.
  destruct c as [[] [] [] [] [] [] [] []]; simpl; done.
Qed.

Lemma integer_text_first x :
  ∃ c s, integer_text x = String c s ∧ digit_char c = true.
Proof.
  unfold integer_text.
  pose proof (pretty_N_digits (Z.to_N (millionths x / 1000000))) as Hdigits.
  pose proof (pretty_N_nonempty (Z.to_N (millionths x / 1000000))) as Hne.
  destruct (pretty (Z.to_N (millionths x / 1000000))) as [|c s]; [done|].
  apply andb_true_iff in Hdigits as [Hc _]. by exists c, s.
Qed.

Lemma fmt6_first x : ∃ c s, fmt6 x = String c s ∧ number_char c = true.
Proof.
  rewrite fmt6_parts. unfold sign_text. case_decide.
  - by eexists _, _.
  - destruct (integer_text_first x) as (c & s & -> & Hc).
    rewrite append_nil_l, append_cons. eexists _, _. split; [done|].
    by apply digit_number_char.
Qed.

(** ** File names *)

Lemma chunk_filename_not_metadata location x y :
  chunk_filename location x y ≠ location +:+ "_metadata.json".
Proof.
  unfold chunk_filename. intros Heq.
  apply (inj (String.app location)) in Heq.
  apply (inj (String.app "_")) in Heq.
  destruct (fmt6_first x) as (c & s & Hx & Hc). rewrite Hx in Heq.
  rewrite append_cons in Heq. by injection Heq as -> _.
Qed.

Lemma substring_append_r (p t : string) :
  String.substring (String.length p) (String.length t) (p +:+ t) = t.
Proof.
  induction p as [|c p IH]; [|by rewrite append_cons].
  rewrite append_nil_l. simpl.
  induction t as [|c t IHt]; simpl; [done | by rewrite IHt].
Qed.

Lemma endswith_append (p t suffix : string) :
  String.length t = String.length suffix →
  endswith (p +:+ t) suffix = bool_decide (t = suffix).
Proof.
  intros Hlen. unfold endswith. rewrite length_append, <- Hlen.
  replace (String.length p + String.length t - String.length t)%nat
    with (String.length p) by lia.
  by rewrite substring_append_r.
Qed.

Lemma endswith_metadata_name location :
  endswith (location +:+ "_metadata.json") "_metadata.json" = true.
Proof. by rewrite endswith_append. Qed.

Lemma endswith_chunk_filename location x y :
  endswith (chunk_filename location x y) "_metadata.json" = false.
Proof.
  unfold chunk_filename. rewrite (fmt6_parts y).
  rewrite <- !append_assoc.
  rewrite (append_assoc _ (fraction_text y) ".geojson").
  rewrite endswith_append by done.
  apply bool_decide_eq_false. unfold fraction_text, digits6.
  rewrite append_cons. intros Heq. injection Heq as Hdigit _.
  assert (Hd : digit_char
            (digit (((millionths y `mod` 1000000) `div` 100000) `mod` 10))
          = true) by (apply digit_digit_char, Z.mod_pos_bound; lia).
  rewrite Hdigit in Hd. discriminate Hd.
Qed.

(** ** The origins of the two loops *)

Section chunks.
Context {G : Type} `{Geometry G}.

Implicit Types (gdf : list (row G)) (st : partition_state (G:=G)).

(** The origins in the order of the two loops. *)
Definition origins (x_ranges y_ranges : list Qc) : list (Qc * Qc) :=
  x ← x_ranges; y ← y_ranges; [(x, y)].

Lemma divide_loop_origins gdf location grid_size x_max y_max xs ys st :
  divide_loop gdf location grid_size x_max y_max xs ys st =
    foldl (λ st origin, divide_cell gdf location grid_size x_max y_max st
                          origin.1 origin.2)
          st (origins xs ys).
Proof.
  unfold divide_loop, origins. revert st.
  induction xs as [|x xs IH]; intros st; [done|].
  rewrite bind_cons, foldl_app. simpl. rewrite IH. f_equal.
  clear. revert st. induction ys as [|y ys IH]; intros st; [done|].
  rewrite bind_cons. simpl. by rewrite IH.
Qed.

Lemma elem_of_origins xs ys x y :
  (x, y) ∈ origins xs ys ↔ x ∈ xs ∧ y ∈ ys.
Proof.
  unfold origins. rewrite list_elem_of_bind. split.
  - intros (x' & (y' & [= -> ->]%list_elem_of_singleton & Hy)%list_elem_of_bind
            & Hx). done.
  - intros [Hx Hy]. exists x. split; [|done].
    apply list_elem_of_bind. exists y. split; [|done].
    by apply list_elem_of_singleton.
Qed.

End chunks.

(** ** Laws of the geometry and index interfaces *)

(** The points of a geometry: [intersects] tells whether one of them lies
    in the box. *)
Class GeometryLaws (G : Type) `{Geometry G} := {
  points : G → Qc * Qc → Prop;
  intersects_points : ∀ g b,
    intersects g b = true ↔ ∃ p, points g p ∧ box_contains b p
}.

(** The index accepts well-ordered rectangles; the ids it yields were
    inserted, and no rectangle that overlaps the query is left out. *)
Class RTreeLaws `{RTree} := {
  rtree_accepts_ordered : ∀ x1 y1 x2 y2,
    x1 ≤ x2 → y1 ≤ y2 → rtree_accepts (x1, y1, x2, y2) = true;
  rtree_intersection_lt : ∀ entries q i,
    i ∈ rtree_intersection entries q → (i < length entries)%nat;
  rtree_intersection_complete : ∀ entries q i e,
    entries !! i = Some e → overlaps e q = true →
    i ∈ rtree_intersection entries q
}.

Lemma box_intersects_points (a b : Box) :
  box_intersects a b = true ↔ ∃ p, box_contains a p ∧ box_contains b p.
Proof.
  unfold box_intersects, box_contains.
  rewrite !andb_true_iff, !bool_decide_eq_true. split.
  - intros [[[H1 H2] H3] H4].
    exists (py_max (minx a) (minx b), py_max (miny a) (miny b)). simpl.
    pose proof (py_min_le_max (bx1 a) (bx2 a)).
    pose proof (py_min_le_max (bx1 b) (bx2 b)).
    pose proof (py_min_le_max (by1 a) (by2 a)).
    pose proof (py_min_le_max (by1 b) (by2 b)).
    fold (minx a) (maxx a) (minx b) (maxx b) (miny a) (maxy a)
      (miny b) (maxy b) in *.
    split_and!; try apply py_max_ge_l; try apply py_max_ge_r;
      unfold py_max; by case_decide.
  - intros ([px py] & (?&?&?&?) & (?&?&?&?)). simpl in *.
    split_and!; by etrans.
Qed.

#[global] Instance Box_geometry_laws : GeometryLaws Box :=
  {| points := box_contains; intersects_points := box_intersects_points |}.

#[global] Instance linear_scan_laws : RTreeLaws (H:=linear_scan).
Proof.
  split.
  - intros x1 y1 x2 y2 Hx Hy. simpl.
    by rewrite !bool_decide_eq_true_2.
  - intros entries q i. simpl.
    intros [Hi%in_seq _]%list_elem_of_In%filter_In. lia.
  - intros entries q i e Hi He. simpl.
    apply list_elem_of_In, filter_In. split.
    + apply in_seq. apply lookup_lt_Some in Hi. lia.
    + by rewrite Hi.
Qed.

(** ** Lists *)

Lemma mapM_Returned {A B} (f : A → result B) (l : list A) (k : list B) :
  Forall2 (λ a b, f a = Returned b) l k → mapM f l = Returned k.
Proof.
  induction 1 as [|a b l k Hab _ IH]; [done|]. simpl. by rewrite Hab, IH.
Qed.

Lemma Forall_filter_sub {A} (P : A → Prop) (test : A → bool) (l : list A) :
  Forall P l → Forall P (List.filter test l).
Proof.
  intros Hall. apply Forall_forall.
  intros x [Hx _]%list_elem_of_In%filter_In.
  by eapply Forall_forall in Hall; [|apply list_elem_of_In].
Qed.

Lemma mapM_Returned_fmap {A B} (f : A → result B) (h : A → B) (l : list A) :
  (∀ a, a ∈ l → f a = Returned (h a)) → mapM f l = Returned (h <$> l).
Proof.
  intros Hf. apply mapM_Returned. apply Forall2_fmap_r, Forall_Forall2_diag.
  by apply Forall_forall.
Qed.

(** ** Three houses in a square of ten degrees *)

(** Tenths of a degree. *)
Definition tenth (n : Z) : Qc := Q2Qc (n # 10).

Definition house_a : row Box :=
  Row (box (tenth 0) (tenth 0) (tenth 5) (tenth 5)) (named "a").
Definition house_b : row Box :=
  Row (box (tenth 9) (tenth 2) (tenth 11) (tenth 4)) (named "b").
Definition house_c : row Box :=
  Row (box (tenth 95) (tenth 95) (tenth 100) (tenth 100)) (named "c").

(** Three rectangles in a square of ten degrees. *)
Definition town_gdf : list (row Box) := [house_a; house_b; house_c].

(** * Further properties of [divide_data] *)

(** ** The metadata and the chunks agree, whatever the step *)

Section partition_invariant.
Context `{MathSqrt} {G : Type} `{Geometry G}.

(** The invariant of the two loops: a name is either untouched and without
    entry, or the name of a visited cell that holds a feature, with the
    features and the rectangle of that same cell. *)
Lemma fold_divide_cell_inv (gdf : list (row G)) location grid_size x_max y_max
    (cells : list (Qc * Qc)) (fs : gmap string (file G)) name :
  let st' := foldl (λ st o, divide_cell gdf location grid_size x_max y_max st
                              o.1 o.2) (fs, ∅) cells in
  (st'.2 !! name = None ∧ st'.1 !! name = fs !! name) ∨
  (∃ o, o ∈ cells ∧ name = chunk_filename location o.1 o.2 ∧
        cell_gdf gdf (grid_cell grid_size x_max y_max o.1 o.2) ≠ [] ∧
        st'.1 !! name = Some (FeatureFile
          (cell_gdf gdf (grid_cell grid_size x_max y_max o.1 o.2))) ∧
        st'.2 !! name = Some (chunk_coords grid_size x_max y_max o.1 o.2)).
Proof.
  simpl. induction cells as [|o cells IH] using rev_ind.
  - left. split; [apply lookup_empty | done].
  - rewrite foldl_app. simpl.
    set (st := foldl (λ st o, divide_cell gdf location grid_size x_max y_max st
                                o.1 o.2) (fs, ∅) cells) in *.
    assert (Hkeep :
      (st.2 !! name = None ∧ st.1 !! name = fs !! name) ∨
      (∃ o', o' ∈ cells ++ [o] ∧ name = chunk_filename location o'.1 o'.2 ∧
         cell_gdf gdf (grid_cell grid_size x_max y_max o'.1 o'.2) ≠ [] ∧
         st.1 !! name = Some (FeatureFile
           (cell_gdf gdf (grid_cell grid_size x_max y_max o'.1 o'.2))) ∧
         st.2 !! name = Some (chunk_coords grid_size x_max y_max o'.1 o'.2))).
    { destruct IH as [IH|(o' & Ho' & IH)]; [by left|].
      right. exists o'. split; [|done]. apply elem_of_app. by left. }
    unfold divide_cell.
    destruct (cell_gdf gdf (grid_cell grid_size x_max y_max o.1 o.2))
      as [|r rows] eqn:Hcell; [done|]. simpl.
    destruct (decide (name = chunk_filename location o.1 o.2)) as [->|Hne].
    + right. exists o. rewrite Hcell, !lookup_insert_eq.
      split_and!; try done. apply elem_of_app. right.
      by apply list_elem_of_singleton.
    + by rewrite !lookup_insert_ne.
Qed.

(** X4. After [divide_data], whatever the step of the grid and whatever the
    folder held before: every entry of the metadata written is filed under
    the name of a cell of the grid that a feature meets, records the
    rectangle of that cell, and the folder holds under that name a chunk
    with exactly the features of the collection that meet that rectangle; a
    file without entry, the metadata file apart, is as it was. *)
Theorem divide_data_metadata_matches_chunks (gdf : list (row G))
    (fs fs' : gmap string (file G)) location x_min y_min x_max y_max :
  divide_data gdf fs location (x_min, y_min, x_max, y_max) = Returned fs' →
  ∃ grid_size x_ranges y_ranges metadata,
    grid (x_min, y_min, x_max, y_max)
      = Returned (grid_size, x_ranges, y_ranges) ∧
    fs' !! (location +:+ "_metadata.json") = Some (JsonFile (JObj metadata)) ∧
    (∀ name coords, metadata !! name = Some coords →
       ∃ x y, x ∈ x_ranges ∧ y ∈ y_ranges ∧
         let cell := grid_cell grid_size x_max y_max x y in
         name = chunk_filename location x y ∧
         coords = chunk_coords grid_size x_max y_max x y ∧
         cell_gdf gdf cell ≠ [] ∧
         fs' !! name = Some (FeatureFile (cell_gdf gdf cell))) ∧
    (∀ name, metadata !! name = None →
             name ≠ location +:+ "_metadata.json" →
             fs' !! name = fs !! name).
Proof.
  unfold divide_data.
  destruct (grid (x_min, y_min, x_max, y_max)) as [[[grid_size xs] ys]|e]
    eqn:Hgrid; [|done].
  simpl. rewrite divide_loop_origins. intros [= <-].
  set (st' := foldl (λ st o, divide_cell gdf location grid_size x_max y_max st
                               o.1 o.2) (fs, ∅) (origins xs ys)).
  exists grid_size, xs, ys, st'.2. split_and!.
  - done.
  - apply lookup_insert_eq.
  - intros name coords Hentry.
    destruct (fold_divide_cell_inv gdf location grid_size x_max y_max
                (origins xs ys) fs name)
      as [[Hnone _]|([x y] & [Hx Hy]%elem_of_origins & -> & Hrows & Hfile & Hcoords)].
    + fold st' in Hnone. by rewrite Hnone in Hentry.
    + fold st' in Hfile, Hcoords. simpl in *.
      rewrite Hcoords in Hentry. injection Hentry as <-.
      exists x, y. split_and!; try done.
      rewrite lookup_insert_ne
        by (apply not_eq_sym, chunk_filename_not_metadata).
      done.
  - intros name Hnone Hname. rewrite lookup_insert_ne by done.
    destruct (fold_divide_cell_inv gdf location grid_size x_max y_max
                (origins xs ys) fs name)
      as [[_ Hsame]|(o & _ & _ & _ & _ & Hcoords)]; [done|].
    fold st' in Hcoords. by rewrite Hcoords in Hnone.
Qed.

End partition_invariant.

(** ** Bounds given in the wrong order *)

Lemma arange_length_backwards start stop step :
  0 < step → stop ≤ start → arange_length start stop step = 0%nat.
Proof.
  intros Hstep Hle. unfold arange_length.
  set (q := ((this stop - this start) / this step)%Q).
  pose proof (Qceiling_lt q) as Hlow.
  qc_to_q.
  assert (Hq : (q * this step == this stop - this start)%Q).
  { subst q. field. lra. }
  assert (Hqle : (q <= 0)%Q).
  { apply Qnot_lt_le. intros Hpos.
    assert (0 * this step < q * this step)%Q
      by (apply Qmult_lt_compat_r; lra). lra. }
  assert (Hc : (Qceiling q - 1 < 0)%Z).
  { rewrite Zlt_Qlt. change (inject_Z 0) with 0%Q. lra. }
  lia.
Qed.

Section ill_ordered.
Context `{MathSqrt} {G : Type} `{Geometry G}.

(** X5. When a maximum of the bounds lies below its minimum, [divide_data]
    writes no chunk. With one axis reversed the area is negative and
    [math.sqrt] raises ValueError before anything is written; with both
    reversed the area is positive, both lists of origins are empty, and the
    only file written is a metadata file with no entry. *)
Theorem divide_data_reversed_bounds (gdf : list (row G))
    (fs : gmap string (file G)) location x_min y_min x_max y_max :
  x_max < x_min ∨ y_max < y_min →
  let area := (x_max - x_min) * (y_max - y_min) in
  let result := divide_data gdf fs location (x_min, y_min, x_max, y_max) in
  (area < 0 → result = Raised ValueError) ∧
  (0 < area →
   result = Returned (<[location +:+ "_metadata.json" := JsonFile (JObj ∅)]> fs)) ∧
  (∀ fs', result = Returned fs' →
          fs' = <[location +:+ "_metadata.json" := JsonFile (JObj ∅)]> fs).
Proof.
  intros Hrev area result.
  assert (Hneg : area < 0 → result = Raised ValueError).
  { intros Harea. unfold result, divide_data, grid, grid_size_of, math_sqrt.
    rewrite decide_True; [done|].
    unfold area in Harea. revert Harea. qc_to_q. unfold Qdiv.
    intros Harea.
    assert ((this x_max - this x_min) * (this y_max - this y_min)
            * / inject_Z 100 ==
            ((this x_max - this x_min) * (this y_max - this y_min)) * (1 # 100))%Q
      as -> by (change (/ inject_Z 100)%Q with (1 # 100)%Q; ring).
    lra. }
  assert (Hpos : 0 < area →
    result = Returned (<[location +:+ "_metadata.json" := JsonFile (JObj ∅)]> fs)).
  { intros Harea.
    assert (Hboth : x_max < x_min ∧ y_max < y_min).
    { unfold area in Harea. revert Hrev Harea. qc_to_q. intros Hrev Harea.
      destruct Hrev as [Hx|Hy].
      - split; [done|]. apply Qnot_le_lt. intros Hy. nra.
      - split; [|done]. apply Qnot_le_lt. intros Hx. nra. }
    destruct Hboth as [Hx Hy].
    set (chunk_area := area / Qc_of_Z 100).
    assert (Hchunk : 0 < chunk_area).
    { unfold chunk_area. revert Harea. generalize area. intros a.
      qc_to_q. unfold Qdiv. change (/ inject_Z 100)%Q with (1 # 100)%Q.
      intros Ha. lra. }
    pose proof (sqrt_pos _ Hchunk) as Hstep.
    unfold result, divide_data, grid, grid_size_of, math_sqrt.
    fold area. fold chunk_area.
    rewrite decide_False by (apply Qcle_not_lt; by apply Qclt_le_weak).
    rewrite !bind_Returned.
    rewrite !np_arange_returns
      by (intros Hz; rewrite Hz in Hstep; by apply Qclt_not_eq in Hstep).
    rewrite !bind_Returned.
    rewrite !arange_length_backwards by (done || by apply Qclt_le_weak).
    done. }
  split_and!; [done..|].
  intros fs' Hret.
  destruct (Qclt_le_dec area 0) as [Harea|Harea].
  { rewrite (Hneg Harea) in Hret. done. }
  apply Qcle_lt_or_eq in Harea as [Harea|Harea].
  { rewrite (Hpos Harea) in Hret. by injection Hret as <-. }
  exfalso. revert Hret.
  unfold result, divide_data, grid.
  assert (Hzero : x_max = x_min ∨ y_max = y_min).
  { unfold area in Harea. symmetry in Harea.
    apply Qcmult_integral in Harea as [Hw|Hh]; [left|right].
    - replace x_max with ((x_max - x_min) + x_min) by ring. rewrite Hw. ring.
    - replace y_max with ((y_max - y_min) + y_min) by ring. rewrite Hh. ring. }
  rewrite (grid_size_of_degenerate _ _ _ _ Hzero), bind_Returned.
  by rewrite np_arange_zero_step.
Qed.

End ill_ordered.

(** * Further properties of [extract_data] *)

(** ** The index and the candidate files *)

Lemma mapM_Returned_inv {A B} (f : A → result B) (l : list A) (k : list B) :
  mapM f l = Returned k → Forall2 (λ a b, f a = Returned b) l k.
Proof.
  revert k. induction l as [|a l IH]; intros k; simpl.
  - intros [= <-]. constructor.
  - destruct (f a) as [b|e] eqn:Hfa; [|done]. simpl.
    destruct (mapM f l) as [k'|e]; [|done]. simpl.
    intros [= <-]. constructor; [done|]. by apply IH.
Qed.

Lemma mapM_Raised {A B} (f : A → result B) (l : list A) a e :
  a ∈ l → f a = Raised e → ∃ e', mapM f l = Raised e'.
Proof.
  intros Ha Hfa. induction l as [|a' l IH]; [by apply elem_of_nil in Ha|].
  simpl. destruct (f a') as [b|e1] eqn:Hfa'; [|by eexists].
  simpl. apply elem_of_cons in Ha as [->|Ha].
  - rewrite Hfa in Hfa'. done.
  - destruct (IH Ha) as [e' ->]. by eexists.
Qed.

Section candidates.
Context `{RTree}.

(** An entry of the index has the name of an entry of the metadata, and
    the index accepted its rectangle. *)
Lemma index_insert_inv entry name rect :
  index_insert entry = Returned (name, rect) →
  name = entry.1 ∧ rtree_accepts rect = true.
Proof.
  unfold index_insert.
  destruct (subscript entry.2 "x_min") as [a|]; [|done].
  destruct (subscript entry.2 "y_min") as [b|]; [|done].
  destruct (subscript entry.2 "x_max") as [c|]; [|done].
  destruct (subscript entry.2 "y_max") as [d|]; [|done]. simpl.
  destruct (py_float a) as [x1|]; [|done].
  destruct (py_float b) as [y1|]; [|done].
  destruct (py_float c) as [x2|]; [|done].
  destruct (py_float d) as [y2|]; [|done]. simpl.
  destruct (rtree_accepts (x1, y1, x2, y2)) eqn:Hacc; [|done].
  by intros [= <- <-].
Qed.

Lemma build_index_inv m entries name rect :
  build_index (JObj m) = Returned entries →
  (name, rect) ∈ entries →
  is_Some (m !! name) ∧ rtree_accepts rect = true.
Proof.
  unfold build_index. simpl. intros Hall%mapM_Returned_inv Hin.
  apply list_elem_of_lookup in Hin as [i Hi].
  destruct (Forall2_lookup_r _ _ _ _ _ Hall Hi) as ([k v] & Hkv & Hins).
  apply index_insert_inv in Hins as [-> Hacc]. simpl. split; [|done].
  exists v. apply elem_of_map_to_list. by eapply list_elem_of_lookup_2.
Qed.

(** A candidate file is an entry that the index yields and whose rectangle
    meets the query box. *)
Lemma intersecting_files_inv entries bbox files name :
  intersecting_files entries bbox = Returned files →
  name ∈ files →
  ∃ i x1 y1 x2 y2,
    i ∈ rtree_intersection entries.*2 (bounds_of bbox) ∧
    entries !! i = Some (name, (x1, y1, x2, y2)) ∧
    box_intersects bbox (box x1 y1 x2 y2) = true.
Proof.
  unfold intersecting_files.
  destruct (mapM _ _) as [found|e] eqn:Hfound; [|done]. simpl.
  intros [= <-] (l & Hl & Hname)%list_elem_of_In%in_concat.
  apply list_elem_of_In in Hl, Hname.
  apply mapM_Returned_inv in Hfound.
  apply list_elem_of_lookup in Hl as [n Hn].
  destruct (Forall2_lookup_r _ _ _ _ _ Hfound Hn) as (i & Hi & Hcand).
  unfold candidate in Hcand.
  destruct (entries !! i) as [[name' [[[x1 y1] x2] y2]]|] eqn:Hentry; [|done].
  injection Hcand as <-.
  destruct (box_intersects bbox (box x1 y1 x2 y2)) eqn:Hbox;
    [|by apply elem_of_nil in Hname].
  apply list_elem_of_singleton in Hname as ->.
  exists i, x1, y1, x2, y2. split_and!; try done.
  by eapply list_elem_of_lookup_2.
Qed.

Context `{!RTreeLaws}.

(** With an index that yields inserted ids only, the search for the
    candidates does not fail. *)
Lemma intersecting_files_returns entries bbox :
  ∃ files, intersecting_files entries bbox = Returned files.
Proof.
  unfold intersecting_files.
  set (names := λ i : nat,
    from_option (λ e : string * (Qc * Qc * Qc * Qc),
                   let '(x1, y1, x2, y2) := e.2 in
                   if box_intersects bbox (box x1 y1 x2 y2) then [e.1] else [])
                [] (entries !! i)).
  rewrite (mapM_Returned_fmap _ names); [by eexists|].
  intros i Hi%rtree_intersection_lt. rewrite length_fmap in Hi.
  apply lookup_lt_is_Some in Hi as [[name [[[x1 y1] x2] y2]] Hi].
  unfold candidate, names. by rewrite Hi.
Qed.

Lemma elem_of_intersecting_files entries bbox files i name x1 y1 x2 y2 :
  intersecting_files entries bbox = Returned files →
  entries !! i = Some (name, (x1, y1, x2, y2)) →
  overlaps (x1, y1, x2, y2) (bounds_of bbox) = true →
  box_intersects bbox (box x1 y1 x2 y2) = true →
  name ∈ files.
Proof.
  unfold intersecting_files.
  destruct (mapM _ _) as [found|e] eqn:Hfound; [|done]. simpl.
  intros [= <-] Hentry Hover Hbox.
  apply mapM_Returned_inv in Hfound.
  assert (Hi : i ∈ rtree_intersection entries.*2 (bounds_of bbox)).
  { apply (rtree_intersection_complete _ _ _ (x1, y1, x2, y2)); [|done].
    by rewrite list_lookup_fmap, Hentry. }
  apply list_elem_of_lookup in Hi as [n Hn].
  destruct (Forall2_lookup_l _ _ _ _ _ Hfound Hn) as (l & Hl & Hcand).
  unfold candidate in Hcand. rewrite Hentry, Hbox in Hcand.
  injection Hcand as <-.
  apply list_elem_of_In, in_concat. exists [name].
  rewrite <- !list_elem_of_In. split; [by eapply list_elem_of_lookup_2|].
  by apply list_elem_of_singleton.
Qed.

End candidates.

(** ** An entry of the metadata without one of its coordinates *)

Section malformed.
Context {G : Type} `{Geometry G} `{RTree}.

Lemma index_insert_missing_key name (c : gmap string json) key :
  key ∈ ["x_min"; "y_min"; "x_max"; "y_max"] → c !! key = None →
  index_insert (name, JObj c) = Raised KeyError.
Proof.
  intros Hkey%list_elem_of_In Hnone. unfold index_insert, subscript.
  cbn [fst snd]. simpl in Hkey.
  destruct Hkey as [<-|[<-|[<-|[<-|[]]]]]; rewrite Hnone;
    repeat (match goal with |- context [c !! ?k] => destruct (c !! k) end);
    done.
Qed.

(** X8. One entry of the metadata that lacks [x_min], [y_min], [x_max] or
    [y_max] ends the extraction with an exception nobody catches, before the
    first message and before any chunk is read, whatever the query and
    wherever the other entries lie: unlike a missing chunk or an undecodable
    payload, it is not skipped. *)
Theorem entry_without_coordinate_aborts (fs : gmap string (file G))
    top_left bottom_right (m c : gmap string json) name key :
  load_metadata fs = inr (JObj m) →
  m !! name = Some (JObj c) →
  key ∈ ["x_min"; "y_min"; "x_max"; "y_max"] → c !! key = None →
  ∃ e, extract_data fs top_left bottom_right = ([], Uncaught e).
Proof.
  intros Hload Hentry Hkey Hnone. unfold extract_data. rewrite Hload.
  destruct (mapM_Raised index_insert (map_to_list m) (name, JObj c) KeyError)
    as [e He].
  - by apply elem_of_map_to_list.
  - by eapply index_insert_missing_key.
  - exists e. unfold build_index. simpl. by rewrite He.
Qed.

End malformed.

(** ** A row that raises inside a chunk *)

Section failing_row.
Context {G : Type} `{Geometry G} `{RTree}.

Lemma rows_features_app_other (before : list (row G)) r after :
  properties r = JsonOther →
  Forall (λ r', properties r' ≠ JsonOther) before →
  rows_features (before ++ r :: after) = rows_features before ∧
  (iterrows (before ++ r :: after) (State [] [])).2 = Raised TypeError.
Proof.
  intros Hr Hbefore. unfold rows_features. rewrite iterrows_app.
  pose proof (iterrows_returns before (State [] []) Hbefore) as Hret.
  destruct (iterrows before (State [] [])) as [s1 res]. simpl in Hret.
  subst res. simpl. by rewrite Hr.
Qed.

(** X9. A row of a chunk whose payload raises another exception than
    JSONDecodeError (it is no text, or no JSON object) ends the reading of
    its chunk: the features collected from the rows before it are kept, the
    rows after it are not read, an error is printed for the file, and the
    loop goes on with the next candidate. The features collected are those
    of the folder in which the chunk ends before that row. *)
Theorem failing_row_ends_chunk (fs : gmap string (file G)) bbox
    filename before r after :
  fs !! filename = Some (FeatureFile (before ++ r :: after)) →
  properties r = JsonOther →
  intersects (geometry r) bbox = true →
  Forall (λ r', properties r' ≠ JsonOther) before →
  let fs' := <[filename := FeatureFile before]> fs in
  file_features fs bbox filename =
    rows_features (List.filter (λ r', intersects (geometry r') bbox) before) ∧
  (∀ s, ∃ lines, stdout (extract_file fs bbox s filename) =
                   stdout s ++ lines ++ [FileError filename]) ∧
  (∀ files s, all_features (extract_files fs bbox files s) =
              all_features (extract_files fs' bbox files s)) ∧
  (∀ top_left bottom_right metadata files,
     bbox = query_box top_left bottom_right →
     load_metadata fs = inr metadata →
     build_index metadata ≫= (λ entries, intersecting_files entries bbox)
       = Returned files →
     ∃ log, extract_data fs top_left bottom_right =
              (log, outcome_of (files ≫= file_features fs' bbox))).
Proof.
  intros Hfile Hr Hbox Hbefore fs'.
  set (keep := λ r' : row G, intersects (geometry r') bbox).
  assert (Hok : Forall (λ r', properties r' ≠ JsonOther)
                  (List.filter keep before))
    by by apply Forall_filter_sub.
  assert (Hfilter : List.filter keep (before ++ r :: after) =
                    List.filter keep before ++ r :: List.filter keep after).
  { rewrite List.filter_app. simpl. unfold keep at 2. by rewrite Hbox. }
  destruct (rows_features_app_other (List.filter keep before) r
              (List.filter keep after) Hr Hok) as [Hrows Hraise].
  assert (Hthis : file_features fs bbox filename =
                  rows_features (List.filter keep before)).
  { rewrite (file_features_rows fs bbox filename _ Hfile).
    fold keep. by rewrite Hfilter. }
  assert (Hsame : ∀ name, file_features fs bbox name = file_features fs' bbox name).
  { intros name. destruct (decide (name = filename)) as [->|Hne].
    - rewrite Hthis.
      rewrite (file_features_rows fs' bbox filename before)
        by apply lookup_insert_eq.
      done.
    - unfold file_features, extract_file, fs'. by rewrite lookup_insert_ne. }
  assert (Hbind : ∀ files, files ≫= file_features fs bbox =
                           files ≫= file_features fs' bbox).
  { intros files. induction files as [|name files IH]; [done|].
    by rewrite !bind_cons, IH, Hsame. }
  split_and!.
  - done.
  - intros s. unfold extract_file. rewrite Hfile. simpl. fold keep.
    rewrite Hfilter, (iterrows_state _ s), Hraise. simpl.
    eexists. by rewrite <- app_assoc.
  - intros files s. by rewrite !extract_files_state, Hbind.
  - intros tl br metadata files -> Hload Hfiles.
    destruct (extract_data_candidates fs tl br metadata _ Hload Hfiles)
      as (log & Hrun & _).
    exists log. by rewrite Hrun, Hbind.
Qed.

End failing_row.

(** ** A query beside every chunk *)

Section beside.
Context {G : Type} `{Geometry G} `{RTree} `{!RTreeLaws}.

(** X10. When every entry of the metadata is inserted in the index and none
    of their rectangles meets the query box (so also when the metadata has
    no entry), no file is a candidate: the extraction reports that it found
    0 files and no building, and writes nothing. *)
Theorem query_beside_every_chunk (fs : gmap string (file G))
    top_left bottom_right (m : gmap string json) :
  load_metadata fs = inr (JObj m) →
  (∀ name coords, m !! name = Some coords →
     ∃ x1 y1 x2 y2,
       index_insert (name, coords) = Returned (name, (x1, y1, x2, y2)) ∧
       box_intersects (query_box top_left bottom_right) (box x1 y1 x2 y2)
         = false) →
  extract_data fs top_left bottom_right
    = ([FoundFiles 0; NoBuildingsFound], NothingWritten).
Proof.
  intros Hload Hbeside.
  set (bbox := query_box top_left bottom_right) in *.
  assert (Hindex : ∃ entries, build_index (JObj m) = Returned entries ∧
            ∀ name x1 y1 x2 y2, (name, (x1, y1, x2, y2)) ∈ entries →
              box_intersects bbox (box x1 y1 x2 y2) = false).
  { unfold build_index. simpl.
    assert (Hall : ∀ kv, kv ∈ map_to_list m →
              ∃ e, index_insert kv = Returned e ∧
                   let '(x1, y1, x2, y2) := e.2 in
                   box_intersects bbox (box x1 y1 x2 y2) = false).
    { intros [name coords] Hkv%elem_of_map_to_list.
      destruct (Hbeside name coords Hkv) as (x1 & y1 & x2 & y2 & Hins & Hbox).
      by eexists. }
    revert Hall. generalize (map_to_list m) as l.
    induction l as [|kv l IH]; intros Hall; simpl.
    - exists []. split; [done|]. by intros ????? ?%elem_of_nil.
    - destruct (Hall kv) as (e & He & Hbox); [by left|].
      destruct IH as (entries & Hentries & Hboxes).
      { intros kv' Hkv'. apply Hall. by right. }
      rewrite He. simpl. rewrite Hentries. simpl.
      exists (e :: entries). split; [done|].
      intros name x1 y1 x2 y2 [<-|Hin]%elem_of_cons; [done|].
      by eapply Hboxes. }
  destruct Hindex as (entries & Hentries & Hboxes).
  destruct (intersecting_files_returns entries bbox) as [files Hfiles].
  assert (Hnil : files = []).
  { destruct files as [|name files]; [done|]. exfalso.
    destruct (intersecting_files_inv entries bbox _ name Hfiles)
      as (i & x1 & y1 & x2 & y2 & _ & Hentry & Hbox); [by left|].
    rewrite (Hboxes name x1 y1 x2 y2) in Hbox; [done|].
    by eapply list_elem_of_lookup_2. }
  subst files. unfold extract_data. fold bbox.
  rewrite Hload, Hentries, bind_Returned, Hfiles. done.
Qed.

End beside.

(** ** Only the files that the metadata lists are read *)

Section unlisted.
Context {G : Type} `{Geometry G} `{RTree}.

Lemma extract_files_ext (fs fs' : gmap string (file G)) bbox files s :
  (∀ filename, filename ∈ files → fs' !! filename = fs !! filename) →
  extract_files fs' bbox files s = extract_files fs bbox files s.
Proof.
  unfold extract_files. revert s.
  induction files as [|filename files IH]; intros s Hsame; [done|].
  simpl. rewrite IH by (intros ??; apply Hsame; by right).
  f_equal. unfold extract_file. rewrite Hsame by by left. done.
Qed.

(** What [extract_data] does once the metadata is loaded depends on the
    folder through the files the metadata lists only. *)
Lemma extract_data_ext (fs fs' : gmap string (file G)) tl br :
  load_metadata fs' = load_metadata fs →
  (∀ m name, load_metadata fs = inr (JObj m) → is_Some (m !! name) →
             fs' !! name = fs !! name) →
  extract_data fs' tl br = extract_data fs tl br.
Proof.
  intros Hload Hsame. unfold extract_data. rewrite Hload.
  destruct (load_metadata fs) as [[]|metadata] eqn:Hmeta; [done..|].
  destruct (build_index metadata) as [entries|e] eqn:Hentries; [|done].
  rewrite !bind_Returned.
  destruct (intersecting_files entries _) as [files|e] eqn:Hfiles; [|done].
  rewrite (extract_files_ext fs fs'); [done|].
  intros filename Hin.
  destruct (intersecting_files_inv _ _ _ _ Hfiles Hin)
    as (i & x1 & y1 & x2 & y2 & _ & Hentry & _).
  destruct metadata as [| | | | |m]; try done.
  apply (Hsame m); [done|].
  eapply build_index_inv; [done|]. by eapply list_elem_of_lookup_2.
Qed.

(** X11. In a folder with one metadata file, a file that is neither the
    metadata file nor listed in it is never read: the extraction prints and
    writes the same when that file is added, replaced or removed. *)
Theorem unlisted_file_is_not_read (fs : gmap string (file G))
    top_left bottom_right metadata_name metadata_text name :
  (∀ other, is_Some (fs !! other) →
            endswith other "_metadata.json" = true → other = metadata_name) →
  endswith metadata_name "_metadata.json" = true →
  fs !! metadata_name = Some metadata_text →
  endswith name "_metadata.json" = false →
  (∀ m, json_load metadata_text = Returned (JObj m) → m !! name = None) →
  (∀ f, extract_data (<[name := f]> fs) top_left bottom_right
        = extract_data fs top_left bottom_right) ∧
  extract_data (delete name fs) top_left bottom_right
    = extract_data fs top_left bottom_right.
Proof.
  intros Honly Hend Hmeta Hname Hunlisted.
  assert (Hne : name ≠ metadata_name).
  { intros ->. by rewrite Hend in Hname. }
  pose proof (load_metadata_only fs metadata_name metadata_text Honly Hend Hmeta)
    as Hload.
  assert (Hlisted : ∀ m name', load_metadata fs = inr (JObj m) →
            is_Some (m !! name') → name' ≠ name).
  { intros m name' Hm [v Hv] ->. rewrite Hload in Hm.
    apply loaded_inr in Hm. by rewrite (Hunlisted m) in Hv. }
  split.
  - intros f. apply extract_data_ext.
    + rewrite Hload.
      apply (load_metadata_only _ metadata_name metadata_text).
      * intros other [f' Hother] Hsuffix. apply Honly; [|done].
        destruct (decide (other = name)) as [->|Hother'].
        -- by rewrite Hsuffix in Hname.
        -- rewrite lookup_insert_ne in Hother by done. by exists f'.
      * done.
      * by rewrite lookup_insert_ne.
    + intros m name' Hm Hsome. rewrite lookup_insert_ne; [done|].
      apply not_eq_sym. by eapply Hlisted.
  - apply extract_data_ext.
    + rewrite Hload.
      apply (load_metadata_only _ metadata_name metadata_text).
      * intros other [f' Hother] Hsuffix. apply Honly; [|done].
        apply lookup_delete_Some in Hother as [_ Hother]. by exists f'.
      * done.
      * by rewrite lookup_delete_ne.
    + intros m name' Hm Hsome. rewrite lookup_delete_ne; [done|].
      apply not_eq_sym. by eapply Hlisted.
Qed.

End unlisted.

(** ** A larger query box *)

(** The index refuses a rectangle whose minimum exceeds its maximum. *)
Class RTreeRefuses `{RTree} := {
  rtree_accepts_inv : ∀ x1 y1 x2 y2,
    rtree_accepts (x1, y1, x2, y2) = true → x1 ≤ x2 ∧ y1 ≤ y2
}.

#[global] Instance linear_scan_refuses : RTreeRefuses (H:=linear_scan).
Proof.
  split. intros x1 y1 x2 y2. simpl.
  rewrite andb_true_iff, !bool_decide_eq_true. done.
Qed.

Lemma overlaps_box_intersects (bbox : Box) x1 y1 x2 y2 :
  x1 ≤ x2 → y1 ≤ y2 →
  box_intersects bbox (box x1 y1 x2 y2) = true →
  overlaps (x1, y1, x2, y2) (bounds_of bbox) = true.
Proof.
  intros Hx Hy. unfold box_intersects, overlaps, bounds_of.
  unfold minx, maxx, miny, maxy. simpl.
  rewrite (py_min_l x1 x2 Hx), (py_max_r x1 x2 Hx),
    (py_min_l y1 y2 Hy), (py_max_r y1 y2 Hy).
  rewrite !andb_true_iff, !bool_decide_eq_true. tauto.
Qed.

Section larger_query.
Context {G : Type} `{GeometryLaws G} `{RTree} `{!RTreeLaws} `{!RTreeRefuses}.

(** X12. When no payload of the folder raises inside its chunk, the
    extraction is monotone in the query box: every feature written for a box
    is written for any box that contains it. *)
Theorem larger_query_keeps_features (fs : gmap string (file G))
    top_left bottom_right top_left' bottom_right' log features :
  (∀ filename rows r, fs !! filename = Some (FeatureFile rows) → r ∈ rows →
                      properties r ≠ JsonOther) →
  (∀ p, box_contains (query_box top_left bottom_right) p →
        box_contains (query_box top_left' bottom_right') p) →
  extract_data fs top_left bottom_right = (log, Wrote features) →
  ∃ log' features',
    extract_data fs top_left' bottom_right' = (log', Wrote features') ∧
    ∀ f, f ∈ features → f ∈ features'.
Proof.
  intros Hvalid Hsub Hrun.
  set (small := query_box top_left bottom_right) in *.
  set (large := query_box top_left' bottom_right') in *.
  assert (Hstart : ∃ metadata entries files,
    load_metadata fs = inr metadata ∧
    build_index metadata = Returned entries ∧
    intersecting_files entries small = Returned files ∧
    features = files ≫= file_features fs small ∧ features ≠ []).
  { revert Hrun. unfold extract_data. fold small.
    destruct (load_metadata fs) as [[]|metadata] eqn:Hload; [done..|].
    destruct (build_index metadata) as [entries|e] eqn:Hentries; [|done].
    rewrite bind_Returned.
    destruct (intersecting_files entries small) as [files|e] eqn:Hfiles;
      [|done].
    pose proof (extract_files_state fs small files
                  (State [] [FoundFiles (length files)])) as Hfeat.
    simpl in Hfeat. rewrite Hfeat.
    destruct (files ≫= _) as [|f l] eqn:Hbind; [done|].
    intros [= _ <-]. exists metadata, entries, files.
    rewrite Hbind. done. }
  destruct Hstart as (metadata & entries & files & Hload & Hentries & Hfiles
                      & -> & Hsome).
  destruct (intersecting_files_returns entries large) as [files' Hfiles'].
  assert (Hkeep : ∀ f, f ∈ files ≫= file_features fs small →
                       f ∈ files' ≫= file_features fs large).
  { intros f (filename & Hf & Hin)%list_elem_of_bind.
    apply list_elem_of_bind. exists filename. split.
    - apply file_features_inv in Hf
        as (rows & r & m & Hfile & Hr & Hbox & Hm & ->).
      rewrite (file_features_rows fs large filename rows Hfile).
      apply rows_features_valid; [| |done].
      + apply Forall_filter_sub, Forall_forall. intros r' Hr'.
        by eapply Hvalid.
      + apply list_elem_of_In, filter_In. rewrite <- list_elem_of_In.
        split; [done|].
        apply intersects_points in Hbox as (p & Hp & Hin_small).
        apply intersects_points. exists p. split; [done|]. by apply Hsub.
    - destruct (intersecting_files_inv _ _ _ _ Hfiles Hin)
        as (i & x1 & y1 & x2 & y2 & _ & Hentry & Hbox).
      assert (Hlarge : box_intersects large (box x1 y1 x2 y2) = true).
      { apply box_intersects_points in Hbox as (p & Hp & Hq).
        apply box_intersects_points. exists p. split; [by apply Hsub | done]. }
      assert (Hacc : rtree_accepts (x1, y1, x2, y2) = true).
      { destruct metadata as [| | | | |m]; try done.
        eapply build_index_inv; [done|]. by eapply list_elem_of_lookup_2. }
      apply rtree_accepts_inv in Hacc as [Hx Hy].
      eapply elem_of_intersecting_files; [done..| |done].
      by apply overlaps_box_intersects. }
  destruct (extract_data_candidates fs top_left' bottom_right' metadata files')
    as (log' & Hrun' & _); [done|by rewrite Hentries|].
  fold large in Hrun'.
  destruct (files' ≫= file_features fs large) as [|f' l'] eqn:Hbind'.
  - destruct (files ≫= file_features fs small) as [|f l]; [done|].
    exfalso. eapply (not_elem_of_nil f), Hkeep. by left.
  - exists log', (f' :: l'). split; [done|]. done.
Qed.

End larger_query.

(** ** Dividing into a folder that is not empty *)

Section stale_files.
Context `{MathSqrt} {G : Type} `{Geometry G} `{RTree}.

(** The two loops started on two folders: the same metadata, and the same
    file under every name of the metadata. *)
Lemma fold_divide_cell_folders (gdf : list (row G)) location
    grid_size x_max y_max (cells : list (Qc * Qc))
    (fs1 fs2 : gmap string (file G)) :
  let run := λ fs, foldl (λ st o, divide_cell gdf location grid_size x_max
                                    y_max st o.1 o.2) (fs, ∅) cells in
  (run fs1).2 = (run fs2).2 ∧
  ∀ name, is_Some ((run fs1).2 !! name) →
          (run fs1).1 !! name = (run fs2).1 !! name.
Proof.
  simpl. induction cells as [|o cells [IHm IHf]] using rev_ind.
  - split; [done|]. intros name [v Hv]. simpl in Hv.
    by rewrite lookup_empty in Hv.
  - rewrite !foldl_app. simpl.
    set (st1 := foldl (λ st o, divide_cell gdf location grid_size x_max y_max st
                         o.1 o.2) (fs1, ∅) cells) in *.
    set (st2 := foldl (λ st o, divide_cell gdf location grid_size x_max y_max st
                         o.1 o.2) (fs2, ∅) cells) in *.
    unfold divide_cell.
    destruct (cell_gdf gdf (grid_cell grid_size x_max y_max o.1 o.2))
      as [|r rows]; [done|]. simpl. rewrite IHm. split; [done|].
    intros name Hname.
    destruct (decide (name = chunk_filename location o.1 o.2)) as [->|Hne].
    + by rewrite !lookup_insert_eq.
    + rewrite lookup_insert_ne in Hname by done.
      rewrite !lookup_insert_ne by done. apply IHf. by rewrite IHm.
Qed.

(** X7. What the folder held before [divide_data] does not matter to the
    extraction, as long as it held no metadata file of another name: the
    chunks of the new metadata are all rewritten, and the files left from
    before are not in the metadata, so that they are not read. *)
Theorem stale_files_are_ignored (gdf : list (row G))
    (fs fs' fresh : gmap string (file G)) location bounds
    top_left bottom_right :
  (∀ name, is_Some (fs !! name) → endswith name "_metadata.json" = true →
           name = location +:+ "_metadata.json") →
  divide_data gdf fs location bounds = Returned fs' →
  divide_data gdf ∅ location bounds = Returned fresh →
  extract_data fs' top_left bottom_right
    = extract_data fresh top_left bottom_right.
Proof.
  intros Honly. destruct bounds as [[[x_min y_min] x_max] y_max].
  unfold divide_data.
  destruct (grid (x_min, y_min, x_max, y_max)) as [[[grid_size xs] ys]|e];
    [|done].
  simpl. rewrite !divide_loop_origins.
  destruct (fold_divide_cell_folders gdf location grid_size x_max y_max
              (origins xs ys) fs ∅) as [Hmeta Hfiles].
  simpl in Hmeta, Hfiles.
  set (st := foldl (λ st o, divide_cell gdf location grid_size x_max y_max st
                         o.1 o.2) (fs, ∅) (origins xs ys)) in *.
  set (st0 := foldl (λ st o, divide_cell gdf location grid_size x_max y_max st
                         o.1 o.2) (∅, ∅) (origins xs ys)) in *.
  intros [= <-] [= <-].
  assert (Hchunk : ∀ (fs0 : gmap string (file G)) name,
    let st' := foldl (λ st o, divide_cell gdf location grid_size x_max y_max
                                st o.1 o.2) (fs0, ∅) (origins xs ys) in
    is_Some (st'.1 !! name) → endswith name "_metadata.json" = true →
    is_Some (fs0 !! name)).
  { intros fs0 name st' Hsome Hend.
    destruct (fold_divide_cell_inv gdf location grid_size x_max y_max
                (origins xs ys) fs0 name)
      as [[_ Hsame]|(o & _ & -> & _)].
    - fold st' in Hsame. by rewrite <- Hsame.
    - by rewrite endswith_chunk_filename in Hend. }
  assert (Hload : ∀ (fs0 : gmap string (file G)),
    (∀ name, is_Some (fs0 !! name) → endswith name "_metadata.json" = true →
             name = location +:+ "_metadata.json") →
    let st' := foldl (λ st o, divide_cell gdf location grid_size x_max y_max
                                st o.1 o.2) (fs0, ∅) (origins xs ys) in
    load_metadata (<[location +:+ "_metadata.json" := JsonFile (JObj st'.2)]>
                     st'.1) = inr (JObj st'.2)).
  { intros fs0 Hfs0 st'.
    rewrite (load_metadata_only _ (location +:+ "_metadata.json")
               (JsonFile (JObj st'.2)));
      [done| |apply endswith_metadata_name|apply lookup_insert_eq].
    intros other Hother Hend.
    destruct (decide (other = location +:+ "_metadata.json")) as [|Hne];
      [done|].
    rewrite lookup_insert_ne in Hother by done.
    apply Hfs0; [|done]. by apply (Hchunk fs0 other). }
  assert (Hempty : ∀ name, is_Some ((∅ : gmap string (file G)) !! name) →
            endswith name "_metadata.json" = true →
            name = location +:+ "_metadata.json").
  { intros name [f Hf]. by rewrite lookup_empty in Hf. }
  pose proof (Hload fs Honly) as Hl1. pose proof (Hload ∅ Hempty) as Hl0.
  cbv zeta in Hl1, Hl0. fold st in Hl1. fold st0 in Hl0.
  apply extract_data_ext.
  - rewrite Hl1, Hl0. by rewrite Hmeta.
  - intros m name Hm Hname. rewrite Hl0 in Hm. injection Hm as <-.
    destruct (decide (name = location +:+ "_metadata.json")) as [->|Hne].
    + rewrite !lookup_insert_eq. by rewrite Hmeta.
    + rewrite !lookup_insert_ne by done. apply Hfiles. by rewrite Hmeta.
Qed.

End stale_files.

(** * Properties of the rest of the program *)

(** ** The output file *)

Lemma endswith_suffix (s suffix : string) : endswith (s +:+ suffix) suffix = true.
Proof. rewrite endswith_append by done. by apply bool_decide_eq_true. Qed.

(** The name taken from the answer to the second question. *)
Definition geojson_name (new_name : string) : string :=
  if endswith new_name ".geojson" then new_name else new_name +:+ ".geojson".

Lemma geojson_name_endswith new_name :
  endswith (geojson_name new_name) ".geojson" = true.
Proof.
  unfold geojson_name. destruct (endswith new_name ".geojson") eqn:Hend;
    [done | apply endswith_suffix].
Qed.

Lemma ask_output_file_invalid output_file bad stdin :
  Forall (λ response, lower response ≠ "y" ∧ lower response ≠ "n") bad →
  ask_output_file output_file (bad ++ stdin) =
    ((bad ≫= λ _, [AskOverwrite output_file; InvalidInput])
       ++ (ask_output_file output_file stdin).1,
     (ask_output_file output_file stdin).2).
Proof.
  induction 1 as [|response bad [Hy Hn] _ IH].
  - simpl. by destruct (ask_output_file output_file stdin).
  - simpl. rewrite decide_False by done. rewrite decide_False by done.
    rewrite IH. done.
Qed.

Section output_file.
Context {G : Type} `{Geometry G} `{RTree}.

(** X13. When the output file exists, the answer [y] (or [Y]) keeps its name
    and the answer [n] (or [N]) takes the next line as the new name, with
    [.geojson] appended unless it ends so: the name written to then ends in
    [.geojson]. The new name is taken as it is, whether a file of that name
    exists or not: no second question is asked. *)
Theorem answered_output_file (d : disk G) (exists_ : string → bool)
    fs answer rest input_folder output_file lat lon lat' lon' :
  d !! input_folder = Some fs →
  exists_ output_file = true →
  let run := λ stdin,
    extract_data_call d exists_ stdin input_folder output_file
      [lat; lon] [lat'; lon'] in
  let found := extract_data fs (lat, lon) (lat', lon') in
  (lower answer = "y" →
   run (answer :: rest) =
     (AskOverwrite output_file :: (Says <$> found.1),
      Ended output_file found.2)) ∧
  (lower answer = "n" →
   ∀ new_name,
     endswith (geojson_name new_name) ".geojson" = true ∧
     (endswith new_name ".geojson" = true → geojson_name new_name = new_name) ∧
     run (answer :: new_name :: rest) =
       (AskOverwrite output_file :: AskNewName :: (Says <$> found.1),
        Ended (geojson_name new_name) found.2)).
Proof.
  intros Hfolder Hexists run found. unfold run, found, extract_data_call.
  rewrite Hfolder, Hexists. split.
  - intros Hy. simpl. rewrite decide_True by done. simpl.
    by destruct (extract_data fs (lat, lon) (lat', lon')).
  - intros Hn new_name. split; [apply geojson_name_endswith|]. split.
    { intros Hend. unfold geojson_name. by rewrite Hend. }
    simpl. rewrite decide_False by (rewrite Hn; done).
    rewrite decide_True by done. simpl. fold (geojson_name new_name).
    by destruct (extract_data fs (lat, lon) (lat', lon')).
Qed.

(** X14. Every answer that is neither [y] nor [n] is told to be invalid and
    the question is asked again: the lines so answered only add their
    question and that message in front of what the call shows, and the call
    ends as it does without them. *)
Theorem invalid_answers_are_asked_again (d : disk G) (exists_ : string → bool)
    fs bad stdin input_folder output_file tl br :
  d !! input_folder = Some fs →
  exists_ output_file = true →
  Forall (λ response, lower response ≠ "y" ∧ lower response ≠ "n") bad →
  let run := extract_data_call d exists_ stdin input_folder output_file tl br in
  extract_data_call d exists_ (bad ++ stdin) input_folder output_file tl br =
    ((bad ≫= λ _, [AskOverwrite output_file; InvalidInput]) ++ run.1, run.2).
Proof.
  intros Hfolder Hexists Hbad. simpl. unfold extract_data_call.
  rewrite Hfolder, Hexists, (ask_output_file_invalid _ _ _ Hbad).
  destruct (ask_output_file output_file stdin) as [asked [[name left]|]];
    simpl; [|done].
  destruct (corner tl) as [tl'|]; [|done].
  destruct (corner br) as [br'|]; [|done].
  destruct (extract_data fs tl' br'). simpl. by rewrite app_assoc.
Qed.

End output_file.

(** ** The arguments of [main] *)

(** A text without comma. *)
Definition comma_free (s : string) : bool :=
  chars (λ c, bool_decide (c ≠ ","%char)) s.

Lemma split_comma_free s : comma_free s = true → split_comma s = [s].
Proof.
  unfold comma_free. induction s as [|c s IH]; [done|].
  rewrite chars_cons. intros [Hc%bool_decide_eq_true Hs]%andb_true_iff.
  simpl. rewrite decide_False by done. by rewrite (IH Hs).
Qed.

Lemma split_comma_append a b :
  comma_free a = true →
  split_comma (a +:+ "," +:+ b) = a :: split_comma b.
Proof.
  unfold comma_free. induction a as [|c a IH].
  - intros _. rewrite append_nil_l. rewrite append_cons, append_nil_l.
    simpl. by rewrite ?decide_True.
  - rewrite chars_cons. intros [Hc%bool_decide_eq_true Hs]%andb_true_iff.
    rewrite append_cons. simpl. rewrite decide_False by done.
    by rewrite (IH Hs).
Qed.

Section arguments.
Context `{MathSqrt} `{PyFloat} `{RTree} {G : Type} `{Geometry G} `{Bounded G}.

(** X15. Each corner is read as [latitude,longitude]: for an extraction with
    an input folder and two corners of two numbers each, [main] calls
    [extract_data] with the two numbers of each corner in the order they are
    written. *)
Theorem main_reads_latitude_then_longitude (a : args) (d : disk G)
    (exists_ : string → bool) stdin folder
    lat lon lat' lon' (x_lat x_lon x_lat' x_lon' : Qc) :
  extract a = true →
  input a = Some folder → folder ≠ "" →
  top_left a = Some (lat +:+ "," +:+ lon) →
  bottom_right a = Some (lat' +:+ "," +:+ lon') →
  comma_free lat = true → comma_free lon = true →
  comma_free lat' = true → comma_free lon' = true →
  float lat = Some x_lat → float lon = Some x_lon →
  float lat' = Some x_lat' → float lon' = Some x_lon' →
  main_extract a d exists_ stdin =
    let run := extract_data_call d exists_ stdin folder (output_file a)
                 [x_lat; x_lon] [x_lat'; x_lon'] in
    (ExtractLine <$> run.1, Extraction run.2).
Proof.
  intros Hextract Hinput Hfolder Htl Hbr Hlat Hlon Hlat' Hlon'
    Hxlat Hxlon Hxlat' Hxlon'.
  unfold main_extract, parse_corner. rewrite Hextract, Hinput, Htl, Hbr.
  simpl.
  rewrite (bool_decide_eq_true_2 _ Hfolder).
  rewrite !bool_decide_eq_true_2.
  2: { destruct lat'; [rewrite append_nil_l, append_cons | rewrite append_cons]; done. }
  2: { destruct lat; [rewrite append_nil_l, append_cons | rewrite append_cons]; done. }
  simpl.
  rewrite !split_comma_append, !split_comma_free by done.
  simpl. rewrite Hxlat, Hxlon, Hxlat', Hxlon'. simpl.
  by destruct (extract_data_call _ _ _ _ _ _ _).
Qed.

(** X16. A corner written as one number is accepted by [main]: the
    IndexError comes from [extract_data], after the check of the input
    folder and after the question about the output file, and before anything
    is read from the folder. *)
Theorem corner_of_one_number_raises_late (a : args) (d : disk G)
    (exists_ : string → bool) stdin folder fs number (x : Qc) other corner' :
  extract a = true →
  input a = Some folder → folder ≠ "" → d !! folder = Some fs →
  top_left a = Some number → number ≠ "" →
  comma_free number = true → float number = Some x →
  bottom_right a = Some other → other ≠ "" → parse_corner other = Some corner' →
  main_extract a d exists_ stdin =
    let asked :=
      if exists_ (output_file a) then ask_output_file (output_file a) stdin
      else ([], Some (output_file a, stdin)) in
    (ExtractLine <$> asked.1,
     Extraction match asked.2 with
                | Some (name, _) => Ended name (Uncaught IndexError)
                | None => EndOfInput
                end).
Proof.
  intros Hextract Hinput Hfolder Hfs Htl Hnumber Hfree Hx Hbr Hother Hparse.
  unfold main_extract. rewrite Hextract, Hinput, Htl, Hbr. simpl.
  rewrite !bool_decide_eq_true_2 by done. simpl.
  rewrite Hparse. unfold parse_corner at 1.
  rewrite (split_comma_free _ Hfree). simpl. rewrite Hx. simpl.
  unfold extract_data_call. rewrite Hfs.
  destruct (if exists_ (output_file a) then _ else _) as [asked [[name left]|]];
    simpl; done.
Qed.

(** X17. The arguments of the extraction are checked after the download:
    when [--extract] comes without an input folder or without one of the
    corners (or with an empty one), [main] ends with the usage error, but
    only once the download it was also asked for has completed, and the
    files of that download stay. *)
Theorem extraction_arguments_are_checked_late (a : args) (w : web G)
    (d : disk G) (exists_ : string → bool) stdin :
  extract a = true →
  input a = None ∨ input a = Some "" ∨
  top_left a = None ∨ top_left a = Some "" ∨
  bottom_right a = None ∨ bottom_right a = Some "" →
  (truthy (download a) = false →
   main a w d exists_ stdin = ([UsageError], d, Usage)) ∧
  (∀ location lines d',
     download a = Some location → location ≠ "" →
     download_and_process_data w d location (output a) (divide a)
       = (lines, d', Completed) →
     main a w d exists_ stdin
       = ((DownloadLine <$> lines) ++ [UsageError], d', Usage)).
Proof.
  intros Hextract Hmissing.
  assert (Hcheck : truthy (input a) && truthy (top_left a)
                   && truthy (bottom_right a) = false).
  { destruct Hmissing as [-> | [-> | [-> | [-> | [-> | ->]]]]]; simpl;
      rewrite ?andb_false_r; done. }
  split.
  - intros Hno. unfold main, main_extract.
    by rewrite Hno, Hextract, Hcheck.
  - intros location lines d' Hlocation Hne Hdone. unfold main, main_extract.
    rewrite Hlocation. simpl. rewrite bool_decide_eq_true_2 by done.
    by rewrite Hdone, Hextract, Hcheck.
Qed.

End arguments.

(** ** The download *)

Lemma substring_all (m : nat) (s : string) :
  (String.length s ≤ m)%nat → String.substring 0 m s = s.
Proof.
  revert m. induction s as [|c s IH]; intros m Hm; [by destruct m|].
  destruct m as [|m]; simpl in *; [lia|]. rewrite IH; [done|lia].
Qed.

(** A text that ends with a suffix is a text followed by the suffix. *)
Lemma endswith_inv (s suffix : string) :
  endswith s suffix = true → ∃ p, s = p +:+ suffix.
Proof.
  unfold endswith. intros Hsub%bool_decide_eq_true.
  revert Hsub. generalize (String.length suffix) as m. intros m.
  induction s as [|c s IH]; intros Hsub.
  - exists "". rewrite append_nil_l. by destruct m.
  - destruct (decide (String.length (String c s) ≤ m)%nat) as [Hle|Hgt].
    + exists "". rewrite append_nil_l. rewrite <- Hsub.
      replace (String.length (String c s) - m)%nat with 0%nat by lia.
      by rewrite substring_all.
    + simpl in Hgt.
      replace (String.length (String c s) - m)%nat
        with (S (String.length s - m)) in Hsub by (simpl; lia).
      simpl in Hsub. destruct (IH Hsub) as [p ->].
      exists (String c p). by rewrite append_cons.
Qed.

Lemma endswith_geojson_name location :
  endswith (location +:+ ".geojson") "_metadata.json" = false.
Proof.
  apply not_true_is_false. intros [p Hp]%endswith_inv.
  change "_metadata.json" with ("_metad" +:+ "ata.json") in Hp.
  rewrite <- append_assoc in Hp.
  by apply append_inj_length_r in Hp as [_ ?].
Qed.

Section download_properties.
Context `{MathSqrt} {G : Type} `{Geometry G} `{Bounded G}.

(** The URLs of a location, in the order of the table. *)
Definition location_urls (links : list (string * string)) (location : string)
  : list string :=
  (List.filter (λ l : string * string, bool_decide (l.1 = location)) links).*2.

(** The rows of a URL; none when the URL cannot be processed. *)
Definition rows_of (w : web G) (url : string) : list (row G) :=
  default [] (read_json w url).

Definition unreadable (w : web G) (url : string) : bool :=
  match read_json w url with
  | Some (_ :: _) => false
  | _ => true
  end.

Lemma foldl_download_url (w : web G) urls all_data errors :
  ∃ frames,
    foldl (download_url w) (all_data, errors) urls =
      (all_data ++ frames,
       errors ++ (UrlError <$> List.filter (unreadable w) urls)) ∧
    concat frames = urls ≫= rows_of w.
Proof.
  revert all_data errors.
  induction urls as [|url urls IH]; intros all_data errors.
  - exists []. by rewrite !app_nil_r.
  - simpl. unfold download_url at 2, unreadable at 1, rows_of at 1.
    destruct (read_json w url) as [[|r rows]|] eqn:Hurl; simpl.
    + destruct (IH all_data (errors ++ [UrlError url])) as (frames & -> & Hrows).
      exists frames. by rewrite <- app_assoc.
    + destruct (IH (all_data ++ [r :: rows]) errors) as (frames & -> & Hrows).
      exists ((r :: rows) :: frames). rewrite <- app_assoc. simpl.
      by rewrite Hrows.
    + destruct (IH all_data (errors ++ [UrlError url])) as (frames & -> & Hrows).
      exists frames. by rewrite <- app_assoc.
Qed.

Lemma divide_data_raises (gdf : list (row G)) fs location bounds e :
  divide_data gdf fs location bounds = Raised e →
  e = ValueError ∨ e = ArangeError.
Proof.
  destruct bounds as [[[x_min y_min] x_max] y_max].
  unfold divide_data, grid, grid_size_of, math_sqrt.
  case_decide; [intros [= <-]; by left|].
  rewrite bind_Returned. unfold np_arange.
  case_decide; [intros [= <-]; by right|]. done.
Qed.

(** The download in closed form. *)
Lemma download_and_process_data_run (w : web G) (d : disk G)
    location output_folder links first rest :
  dataset_links w = Some links →
  location_urls links location ≫= rows_of w = first :: rest →
  let urls := location_urls links location in
  let folder := default ∅ (d !! output_folder) in
  let printed :=
    Downloading location :: (UrlError <$> List.filter (unreadable w) urls) in
  download_and_process_data w d location output_folder false =
    (printed,
     <[output_folder :=
         <[location +:+ ".geojson" := FeatureFile (first :: rest)]> folder]> d,
     Completed) ∧
  download_and_process_data w d location output_folder true =
    match divide_data (first :: rest) folder location (total_bounds first rest)
    with
    | Returned folder' => (printed, <[output_folder := folder']> d, Completed)
    | Raised e => (printed, <[output_folder := folder]> d, Crashed e)
    end.
Proof.
  intros Hlinks Hrows urls folder printed.
  unfold download_and_process_data. rewrite Hlinks.
  fold (location_urls links location). fold urls.
  destruct (List.filter _ links) as [|l ls] eqn:Hfilter.
  { unfold location_urls in Hrows. by rewrite Hfilter in Hrows. }
  destruct (foldl_download_url w urls [] []) as (frames & -> & Hframes).
  simpl. rewrite Hframes. fold urls in Hrows. rewrite Hrows.
  split; [done|].
  by destruct (divide_data _ _ _ _).
Qed.

(** X18. What the download does, in one piece: it reads every URL of the
    location in the order of the table, prints an error for each one that
    cannot be processed and goes on; the rows of the others, in that order,
    are the collection, which is written as [location.geojson] or handed to
    [divide_data] with its total bounds. *)
Theorem download_collects_every_readable_url (w : web G) (d : disk G)
    location output_folder links first rest :
  dataset_links w = Some links →
  location_urls links location ≫= rows_of w = first :: rest →
  let urls := location_urls links location in
  let folder := default ∅ (d !! output_folder) in
  let printed :=
    Downloading location :: (UrlError <$> List.filter (unreadable w) urls) in
  download_and_process_data w d location output_folder false =
    (printed,
     <[output_folder :=
         <[location +:+ ".geojson" := FeatureFile (first :: rest)]> folder]> d,
     Completed) ∧
  download_and_process_data w d location output_folder true =
    match divide_data (first :: rest) folder location (total_bounds first rest)
    with
    | Returned folder' => (printed, <[output_folder := folder']> d, Completed)
    | Raised e => (printed, <[output_folder := folder]> d, Crashed e)
    end.
Proof. apply download_and_process_data_run. Qed.

(** X19. A download that does not complete leaves no file: it ends with exit
    status 1, or with the ValueError or the error of [np.arange] that
    [divide_data] raises, and every folder holds the files it held (the
    output folder may have been created, empty). *)
Theorem failed_download_leaves_no_file (w : web G) (d d' : disk G)
    location output_folder divide_immediately lines s :
  download_and_process_data w d location output_folder divide_immediately
    = (lines, d', s) →
  s ≠ Completed →
  (s = Exited 1 ∨ s = Crashed ValueError ∨ s = Crashed ArangeError) ∧
  ∀ folder, default ∅ (d' !! folder) = default ∅ (d !! folder).
Proof.
  unfold download_and_process_data.
  assert (Hmade : ∀ folder,
    default ∅ (<[output_folder := default ∅ (d !! output_folder)]> d !! folder)
    = default ∅ (d !! folder)).
  { intros folder. destruct (decide (folder = output_folder)) as [->|Hne].
    - by rewrite lookup_insert_eq.
    - by rewrite lookup_insert_ne. }
  destruct (dataset_links w) as [links|]; [|intros [= <- <- <-]; auto].
  destruct (List.filter _ links) as [|l ls]; [intros [= <- <- <-]; auto|].
  destruct (foldl _ _ _) as [all_data errors].
  destruct (concat all_data) as [|first rest]; [intros [= <- <- <-]; auto|].
  destruct divide_immediately; [|by intros [= <- <- <-]].
  destruct (divide_data _ _ _ _) as [folder'|e] eqn:Hdivide;
    [by intros [= <- <- <-]|].
  intros [= <- <- <-] _. split; [|done].
  right. by destruct (divide_data_raises _ _ _ _ _ Hdivide) as [-> | ->]; auto.
Qed.

End download_properties.

Section undivided.
Context `{MathSqrt} {G : Type} `{Geometry G} `{Bounded G} `{RTree}.

(** X20. The extraction needs a divided download: after a download without
    [divide_immediately] into a folder that held no metadata file, the
    folder holds none, and every extraction from it ends with "Metadata file
    not found" and exit status 1, whatever the corners. *)
Theorem undivided_download_cannot_be_extracted (w : web G) (d d' : disk G)
    location output_folder lines :
  download_and_process_data w d location output_folder false
    = (lines, d', Completed) →
  (∀ name, is_Some (default ∅ (d !! output_folder) !! name) →
           endswith name "_metadata.json" = false) →
  ∃ fs, d' !! output_folder = Some fs ∧
        ∀ top_left bottom_right,
          extract_data fs top_left bottom_right = ([MetadataNotFound], SysExit).
Proof.
  unfold download_and_process_data. intros Hrun Hnone.
  destruct (dataset_links w) as [links|]; [|done].
  destruct (List.filter _ links) as [|l ls]; [done|].
  destruct (foldl _ _ _) as [all_data errors].
  destruct (concat all_data) as [|first rest]; [done|].
  injection Hrun as _ <-.
  eexists. split; [apply lookup_insert_eq|].
  intros tl br. unfold extract_data, load_metadata.
  rewrite (proj2 (metadata_file_None _)); [done|].
  intros name [f Hname].
  destruct (decide (name = location +:+ ".geojson")) as [->|Hne].
  - apply endswith_geojson_name.
  - rewrite lookup_insert_ne in Hname by done. apply Hnone. by exists f.
Qed.

End undivided.

(** ** The further theorems at concrete inputs *)

Lemma divide_data_metadata_matches_chunks_witness :
  ∃ metadata,
    tiny_folder !! "loc_metadata.json" = Some (JsonFile (JObj metadata)).
Proof.
  destruct (divide_data_metadata_matches_chunks tiny_gdf ∅ tiny_folder "loc"
              (tiny 0) (tiny 0) (tiny 100) (tiny 100))
    as (grid_size & x_ranges & y_ranges & metadata & _ & Hmeta & _).
  - vm_compute. reflexivity.
  - exists metadata. exact Hmeta.
Defined.

Lemma divide_data_reversed_bounds_witness :
  divide_data tiny_gdf ∅ "loc" (tiny 100, tiny 100, tiny 0, tiny 0)
    = Returned (<["loc_metadata.json" := JsonFile (JObj ∅)]> ∅).
Proof.
  destruct (divide_data_reversed_bounds tiny_gdf ∅ "loc"
              (tiny 100) (tiny 100) (tiny 0) (tiny 0))
    as (_ & Hboth & _).
  - left. vm_compute. reflexivity.
  - apply Hboth. vm_compute. reflexivity.
Defined.

(** A metadata file whose only entry has no [y_min]. *)
Definition keyless_folder : gmap string (file Box) :=
  {[ "loc_metadata.json" :=
       JsonFile (JObj {[ "a.geojson" := JObj {[ "x_min" := JNum 0 ]} ]}) ]}.

Lemma entry_without_coordinate_aborts_witness :
  ∃ e, extract_data keyless_folder (1, 0) (0, 1) = ([], Uncaught e).
Proof.
  apply (entry_without_coordinate_aborts keyless_folder (1, 0) (0, 1)
           {[ "a.geojson" := JObj {[ "x_min" := JNum 0 ]} ]}
           {[ "x_min" := JNum 0 ]} "a.geojson" "y_min").
  - vm_compute. reflexivity.
  - vm_compute. reflexivity.
  - apply list_elem_of_In. simpl. auto.
  - vm_compute. reflexivity.
Defined.

(** A chunk whose second row has a payload that is no text. *)
Definition unread_row : row Box :=
  Row (box (tenth 2) (tenth 2) (tenth 3) (tenth 3)) JsonOther.

Definition spoilt_folder : gmap string (file Box) :=
  {[ "c.geojson" := FeatureFile ([house_a] ++ unread_row :: [house_b]) ]}.

Lemma failing_row_ends_chunk_witness :
  file_features spoilt_folder (box (tenth 0) (tenth 0) (tenth 100) (tenth 100))
    "c.geojson"
  = rows_features
      (List.filter
         (λ r, intersects (geometry r)
                 (box (tenth 0) (tenth 0) (tenth 100) (tenth 100)))
         [house_a]).
Proof.
  destruct (failing_row_ends_chunk (H0:=linear_scan) spoilt_folder
              (box (tenth 0) (tenth 0) (tenth 100) (tenth 100))
              "c.geojson" [house_a] unread_row [house_b])
    as (Hkept & _).
  - vm_compute. reflexivity.
  - reflexivity.
  - vm_compute. reflexivity.
  - repeat constructor. discriminate.
  - exact Hkept.
Defined.

Lemma box_contains_mono (a b : Box) p :
  minx b ≤ minx a → maxx a ≤ maxx b → miny b ≤ miny a → maxy a ≤ maxy b →
  box_contains a p → box_contains b p.
Proof.
  intros ???? (?&?&?&?). unfold box_contains. split_and!; by etrans.
Qed.

(** A folder with one chunk, the unit square at the origin. *)
Definition corner_folder : gmap string (file Box) :=
  <["m_metadata.json" :=
      JsonFile (JObj {[ "c.geojson" :=
        chunk_coords (tenth 10) (tenth 100) (tenth 100) (tenth 0) (tenth 0) ]})]>
    {[ "c.geojson" := FeatureFile [house_a] ]}.

Lemma query_beside_every_chunk_witness :
  extract_data corner_folder (tenth 60, tenth 50) (tenth 50, tenth 60)
    = ([FoundFiles 0; NoBuildingsFound], NothingWritten).
Proof.
  apply (query_beside_every_chunk corner_folder
           (tenth 60, tenth 50) (tenth 50, tenth 60)
           {[ "c.geojson" :=
                chunk_coords (tenth 10) (tenth 100) (tenth 100)
                  (tenth 0) (tenth 0) ]}).
  - vm_compute. reflexivity.
  - intros name coords [<- <-]%lookup_singleton_Some.
    exists (tenth 0), (tenth 0),
      (py_min (tenth 0 + tenth 10) (tenth 100)),
      (py_min (tenth 0 + tenth 10) (tenth 100)).
    split; vm_compute; reflexivity.
Defined.

(** [corner_folder] with a file that its metadata does not list. *)
Definition noted_folder : gmap string (file Box) :=
  <["notes.geojson" := FeatureFile [house_b]]> corner_folder.

Lemma unlisted_file_is_not_read_witness :
  extract_data (<["notes.geojson" := FeatureFile [house_a; house_c]]>
                  noted_folder) (tenth 20, tenth 0) (tenth 0, tenth 20)
    = extract_data noted_folder (tenth 20, tenth 0) (tenth 0, tenth 20) ∧
  extract_data (delete "notes.geojson" noted_folder)
      (tenth 20, tenth 0) (tenth 0, tenth 20)
    = extract_data noted_folder (tenth 20, tenth 0) (tenth 0, tenth 20) ∧
  noted_folder !! "notes.geojson" = Some (FeatureFile [house_b]) ∧
  intersects (geometry house_b)
    (query_box (tenth 20, tenth 0) (tenth 0, tenth 20)) = true.
Proof.
  destruct (unlisted_file_is_not_read noted_folder
              (tenth 20, tenth 0) (tenth 0, tenth 20)
              "m_metadata.json"
              (JsonFile (JObj {[ "c.geojson" :=
                 chunk_coords (tenth 10) (tenth 100) (tenth 100)
                   (tenth 0) (tenth 0) ]}))
              "notes.geojson")
    as [Hinsert Hdelete].
  - intros other [f Hf] Hend. unfold noted_folder, corner_folder in Hf.
    apply lookup_insert_Some in Hf as [[<- _]|[_ Hf]].
    { vm_compute in Hend. discriminate Hend. }
    apply lookup_insert_Some in Hf as [[<- _]|[_ Hf]]; [done|].
    apply lookup_singleton_Some in Hf as [<- _].
    vm_compute in Hend. discriminate Hend.
  - vm_compute. reflexivity.
  - vm_compute. reflexivity.
  - vm_compute. reflexivity.
  - intros m [= <-]. vm_compute. reflexivity.
  - split_and!; [apply Hinsert | exact Hdelete | vm_compute; reflexivity
                 | vm_compute; reflexivity].
Defined.

(** Two chunks of the grid of [town_gdf]: the cells at its two ends. *)
Definition two_chunk_folder : gmap string (file Box) :=
  <["m_metadata.json" :=
      JsonFile (JObj (<["c.geojson" :=
        chunk_coords (tenth 10) (tenth 100) (tenth 100) (tenth 0) (tenth 0)]>
        {[ "d.geojson" :=
        chunk_coords (tenth 10) (tenth 100) (tenth 100)
          (tenth 90) (tenth 90) ]}))]>
    (<["c.geojson" := FeatureFile [house_a]]>
       {[ "d.geojson" := FeatureFile [house_c] ]}).

Lemma larger_query_keeps_features_witness :
  extract_data two_chunk_folder (tenth 20, tenth 0) (tenth 0, tenth 20)
    = ([FoundFiles 1; Extracted 1],
       Wrote [Feature ({[ "name" := JStr "a" ]} ∪ {[ "type" := JStr "Feature" ]})
                      (geometry house_a)]) ∧
  ∃ log' features',
    extract_data two_chunk_folder (tenth 100, tenth 0) (tenth 0, tenth 100)
      = (log', Wrote features') ∧
    length features' = 2%nat ∧
    ∀ f, f ∈ [Feature ({[ "name" := JStr "a" ]} ∪ {[ "type" := JStr "Feature" ]})
                      (geometry house_a)] → f ∈ features'.
Proof.
  assert (Hsmall :
    extract_data two_chunk_folder (tenth 20, tenth 0) (tenth 0, tenth 20)
    = ([FoundFiles 1; Extracted 1],
       Wrote [Feature ({[ "name" := JStr "a" ]} ∪ {[ "type" := JStr "Feature" ]})
                      (geometry house_a)])) by (vm_compute; reflexivity).
  split; [exact Hsmall|].
  destruct (larger_query_keeps_features two_chunk_folder
           (tenth 20, tenth 0) (tenth 0, tenth 20)
           (tenth 100, tenth 0) (tenth 0, tenth 100)
           [FoundFiles 1; Extracted 1]
           [Feature ({[ "name" := JStr "a" ]} ∪ {[ "type" := JStr "Feature" ]})
                      (geometry house_a)])
    as (log' & features' & Hlarge & Hkeep).
  - intros filename rows r Hfile Hr. unfold two_chunk_folder in Hfile.
    apply lookup_insert_Some in Hfile as [[_ [=]]|[_ Hfile]].
    apply lookup_insert_Some in Hfile as [[_ [= <-]]|[_ Hfile]].
    { apply list_elem_of_singleton in Hr as ->. discriminate. }
    apply lookup_singleton_Some in Hfile as [_ [= <-]].
    apply list_elem_of_singleton in Hr as ->. discriminate.
  - intros p. apply box_contains_mono; by_evaluation.
  - exact Hsmall.
  - exists log', features'. split; [exact Hlarge|]. split; [|exact Hkeep].
    assert (Hrun : (extract_data two_chunk_folder (tenth 100, tenth 0)
                      (tenth 0, tenth 100)).2
                   = Wrote features') by (by rewrite Hlarge).
    vm_compute in Hrun. injection Hrun as <-. reflexivity.
Defined.

(** The disk with [corner_folder] as its folder ["in"]. *)
Definition corner_disk : gmap string (gmap string (file Box)) :=
  {[ "in" := corner_folder ]}.

Lemma answered_output_file_witness :
  (extract_data_call corner_disk (λ _, true) ["N"; "town"] "in" "out.geojson"
     [tenth 100; tenth 0] [tenth 0; tenth 100]).2
  = Ended "town.geojson"
      (extract_data corner_folder (tenth 100, tenth 0) (tenth 0, tenth 100)).2.
Proof.
  destruct (answered_output_file (H0:=linear_scan) corner_disk (λ _, true)
              corner_folder "N" [] "in" "out.geojson"
              (tenth 100) (tenth 0) (tenth 0) (tenth 100))
    as [_ Hn].
  - vm_compute. reflexivity.
  - reflexivity.
  - destruct (Hn eq_refl "town") as (_ & _ & Hrun).
    exact (f_equal snd Hrun).
Defined.

Lemma invalid_answers_are_asked_again_witness :
  extract_data_call corner_disk (λ _, true) (["maybe"; ""] ++ ["y"])
    "in" "out.geojson" [tenth 100; tenth 0] [tenth 0; tenth 100]
  = let run := extract_data_call corner_disk (λ _, true) ["y"]
                 "in" "out.geojson" [tenth 100; tenth 0] [tenth 0; tenth 100] in
    ((["maybe"; ""] ≫= λ _, [AskOverwrite "out.geojson"; InvalidInput])
       ++ run.1, run.2).
Proof.
  apply (invalid_answers_are_asked_again (H0:=linear_scan) corner_disk
           (λ _, true) corner_folder).
  - vm_compute. reflexivity.
  - reflexivity.
  - repeat constructor; discriminate.
Defined.

(** A reader of natural numbers, for the examples. *)
Fixpoint natural (s : string) (n : Z) : option Z :=
  match s with
  | EmptyString => Some n
  | String c s =>
      let k := nat_of_ascii c in
      if (48 <=? k)%nat && (k <=? 57)%nat
      then natural s (10 * n + Z.of_nat (k - 48))
      else None
  end.

#[global] Instance natural_float : PyFloat := {|
  float s := match s with
             | EmptyString => None
             | _ => Qc_of_Z <$> natural s 0
             end
|}.

Definition extract_args (top_left bottom_right : option string) : args :=
  Args None "output" false true (Some "in") "out.geojson" top_left bottom_right.

Lemma main_reads_latitude_then_longitude_witness :
  main_extract (extract_args (Some "10,0") (Some "0,10")) corner_disk
    (λ _, false) []
  = let run := extract_data_call corner_disk (λ _, false) [] "in" "out.geojson"
                 [Qc_of_Z 10; Qc_of_Z 0] [Qc_of_Z 0; Qc_of_Z 10] in
    (ExtractLine <$> run.1, Extraction run.2).
Proof.
  apply (main_reads_latitude_then_longitude (extract_args (Some "10,0") (Some "0,10")) corner_disk
           (λ _, false) [] "in" "10" "0" "0" "10").
  all: first [ reflexivity | discriminate | vm_compute; reflexivity ].
Defined.

Lemma corner_of_one_number_raises_late_witness :
  main_extract (extract_args (Some "10") (Some "0,10")) corner_disk
    (λ _, false) []
  = ([], Extraction (Ended "out.geojson" (Uncaught IndexError))).
Proof.
  apply (corner_of_one_number_raises_late (extract_args (Some "10") (Some "0,10")) corner_disk
           (λ _, false) [] "in" corner_folder "10" (Qc_of_Z 10) "0,10"
           [Qc_of_Z 0; Qc_of_Z 10]).
  all: first [ reflexivity | discriminate | vm_compute; reflexivity ].
Defined.

(** A web without the table of links. *)
Definition offline : web Box := Web None (λ _, None).

Lemma extraction_arguments_are_checked_late_witness :
  main (extract_args None (Some "0,10")) offline corner_disk (λ _, false) []
  = ([UsageError], corner_disk, Usage).
Proof.
  destruct (extraction_arguments_are_checked_late
              (extract_args None (Some "0,10")) offline corner_disk
              (λ _, false) [])
    as [Hnone _].
  - reflexivity.
  - right. right. left. reflexivity.
  - apply Hnone. reflexivity.
Defined.

(** A table with two URLs for the town, of which the second cannot be
    read, and one for another place. *)
Definition town_web : web Box :=
  Web (Some [("Town", "u1"); ("Other", "u2"); ("Town", "u3")])
      (λ url, if decide (url = "u1") then Some town_gdf else None).

Lemma download_collects_every_readable_url_witness :
  download_and_process_data town_web ∅ "Town" "out" false
  = ([Downloading "Town"; UrlError "u3"],
     {[ "out" := {[ "Town.geojson" := FeatureFile town_gdf ]} ]},
     Completed).
Proof.
  destruct (download_collects_every_readable_url (H:=root16_sqrt)
              town_web ∅ "Town" "out"
              [("Town", "u1"); ("Other", "u2"); ("Town", "u3")]
              house_a [house_b; house_c])
    as [Hrun _].
  - reflexivity.
  - vm_compute. reflexivity.
  - exact Hrun.
Defined.

Lemma failed_download_leaves_no_file_witness :
  default ∅ ((download_and_process_data (H:=root16_sqrt) offline corner_disk
                "Town" "out" true).1.2 !! "in")
  = default ∅ (corner_disk !! "in").
Proof.
  destruct (failed_download_leaves_no_file (H:=root16_sqrt) offline corner_disk
              corner_disk "Town" "out" true
              [Downloading "Town"; LinksError] (Exited 1))
    as [_ Hsame].
  - reflexivity.
  - discriminate.
  - exact (Hsame "in").
Defined.

Lemma undivided_download_cannot_be_extracted_witness :
  ∃ fs,
    (download_and_process_data (H:=root16_sqrt) town_web ∅ "Town" "out"
       false).1.2 !! "out" = Some fs ∧
    ∀ top_left bottom_right,
      extract_data fs top_left bottom_right = ([MetadataNotFound], SysExit).
Proof.
  apply (undivided_download_cannot_be_extracted (H:=root16_sqrt)
           (H2:=linear_scan) town_web ∅ _ "Town" "out"
           [Downloading "Town"; UrlError "u3"]).
  - vm_compute. reflexivity.
  - intros name [f Hf]. rewrite lookup_empty in Hf. simpl in Hf.
    by rewrite lookup_empty in Hf.
Defined.

(** A folder that holds a file from before. *)
Definition used_folder : gmap string (file Box) :=
  {[ "old.geojson" := OtherFile ]}.

Definition redivided_folder : gmap string (file Box) :=
  match divide_data tiny_gdf used_folder "loc" tiny_bounds with
  | Returned fs => fs
  | Raised _ => ∅
  end.

Lemma stale_files_are_ignored_witness :
  extract_data redivided_folder tiny_top_left tiny_bottom_right
    = extract_data tiny_folder tiny_top_left tiny_bottom_right.
Proof.
  apply (stale_files_are_ignored tiny_gdf used_folder redivided_folder
           tiny_folder "loc" tiny_bounds).
  - intros name [f Hf] Hend. unfold used_folder in Hf.
    apply lookup_singleton_Some in Hf as [<- _].
    vm_compute in Hend. discriminate Hend.
  - vm_compute. reflexivity.
  - vm_compute. reflexivity.
Defined.
